(** * Snippet-image rendering: [scripts/render-snippet.js] and [main.js]

    A shallow embedding of the two render paths of the repository:
    the standalone command-line renderer ([Module RenderSnippet]) and the
    video-overlay renderer of the reel generator ([Module Main]); of the
    command line of the first ([Module Args]) and of the run of the
    second ([Module Reel]).

    JavaScript strings are [string]s (the five markup characters are ASCII,
    every other code unit is passed through unchanged).  JavaScript numbers
    are rationals [Q] together with [NaN] and the two infinities.
    [Module Js] has the operations without rounding; [Module Double] rounds
    each result to the nearest double and overflows to the infinities, as
    the language does, and is what the standalone run computes its viewport
    and its height estimate with.
    The collaborators (file system, standard streams, highlighter, headless
    browser) are a [World] of oracles, and a run is the list of calls it
    makes on them. *)

From Stdlib Require Import List String Ascii Bool ZArith QArith Qround Qpower.
From Stdlib Require Import Lia Lqa.
From Stdlib Require Import DecimalString DecimalNat DecimalZ.
Import ListNotations.

Local Open Scope string_scope.

(** ** JavaScript strings *)

Module Js.

(** The double-quote and line-feed characters. *)
Definition dquote : ascii := ascii_of_nat 34.
Definition newline : ascii := ascii_of_nat 10.
Definition dq : string := String dquote EmptyString.
Definition nl : string := String newline EmptyString.

(** [String.prototype.replaceAll(pat, rep)] for a one-character pattern and
    a replacement without [$] patterns, the only way the source calls it. *)
Fixpoint replaceAll (pat : ascii) (rep : string) (s : string) : string :=
  match s with
  | EmptyString => EmptyString
  | String c s' =>
      if Ascii.eqb c pat then rep ++ replaceAll pat rep s'
      else String c (replaceAll pat rep s')
  end.

(** [String.prototype.split(sep)] for a one-character separator: the empty
    string splits into one empty piece. *)
Fixpoint split (sep : ascii) (s : string) : list string :=
  match s with
  | EmptyString => [EmptyString]
  | String c s' =>
      if Ascii.eqb c sep then EmptyString :: split sep s'
      else match split sep s' with
           | piece :: rest => String c piece :: rest
           | [] => [String c EmptyString]
           end
  end.

(** [Array.prototype.includes] on an array of strings. *)
Fixpoint includes (l : list string) (x : string) : bool :=
  match l with
  | [] => false
  | y :: l' => String.eqb y x || includes l' x
  end.

(** Number of occurrences of a character. *)
Fixpoint count (c : ascii) (s : string) : nat :=
  match s with
  | EmptyString => 0
  | String d s' => (if Ascii.eqb d c then 1 else 0) + count c s'
  end.

(** [x] occurs in [s] as a contiguous piece. *)
Definition occurs (x s : string) : Prop :=
  exists pre post, s = pre ++ x ++ post.

Fixpoint prefixb (x s : string) : bool :=
  match x, s with
  | EmptyString, _ => true
  | String a x', String b s' => Ascii.eqb a b && prefixb x' s'
  | String _ _, EmptyString => false
  end.

Fixpoint occursb (x s : string) : bool :=
  prefixb x s ||
  match s with
  | EmptyString => false
  | String _ s' => occursb x s'
  end.

(** A value stored in the parsed option record: the flag value [true] or the
    text that followed the flag. *)
Inductive optval : Type :=
| OTrue
| OStr (s : string).

(** [String(value)] and template interpolation of an option value. *)
Definition toStr (v : optval) : string :=
  match v with
  | OTrue => "true"
  | OStr s => s
  end.

(** Truthiness of a possibly absent option value. *)
Definition truthy (v : option optval) : bool :=
  match v with
  | None => false
  | Some OTrue => true
  | Some (OStr s) => negb (String.eqb s "")
  end.

(** [v || d] for a text default [d]. *)
Definition orDefault (v : option optval) (d : string) : optval :=
  match v with
  | Some x => if truthy v then x else OStr d
  | None => OStr d
  end.

(** [a || b] on possibly absent option values. *)
Definition orElse (a b : option optval) : option optval :=
  if truthy a then a else b.

(** The values [Number(value)] can produce. *)
Inductive number : Type :=
| Finite (q : Q)
| NaN
| PosInfinity
| NegInfinity.

(** Arithmetic on numbers without rounding: the sum and the product of
    finite values are the exact ones, which the operations of the language
    round ([Double.add] and [Double.mul] below); the non-finite values
    follow the IEEE rules the language adopts. *)
Definition isFinite (n : number) : bool :=
  match n with
  | Finite _ => true
  | _ => false
  end.

Definition add (a b : number) : number :=
  match a, b with
  | NaN, _ | _, NaN => NaN
  | Finite x, Finite y => Finite (x + y)%Q
  | PosInfinity, NegInfinity | NegInfinity, PosInfinity => NaN
  | PosInfinity, _ | _, PosInfinity => PosInfinity
  | NegInfinity, _ | _, NegInfinity => NegInfinity
  end.

Definition neg (a : number) : number :=
  match a with
  | Finite x => Finite (- x)%Q
  | NaN => NaN
  | PosInfinity => NegInfinity
  | NegInfinity => PosInfinity
  end.

Definition sub (a b : number) : number := add a (neg b).

Definition mul (a b : number) : number :=
  match a, b with
  | NaN, _ | _, NaN => NaN
  | Finite x, Finite y => Finite (x * y)%Q
  | Finite x, PosInfinity | PosInfinity, Finite x =>
      match (x ?= 0)%Q with
      | Eq => NaN
      | Gt => PosInfinity
      | Lt => NegInfinity
      end
  | Finite x, NegInfinity | NegInfinity, Finite x =>
      match (x ?= 0)%Q with
      | Eq => NaN
      | Gt => NegInfinity
      | Lt => PosInfinity
      end
  | PosInfinity, PosInfinity | NegInfinity, NegInfinity => PosInfinity
  | PosInfinity, NegInfinity | NegInfinity, PosInfinity => NegInfinity
  end.

(** [Math.ceil] and [Math.max]. *)
Definition ceil (a : number) : number :=
  match a with
  | Finite x => Finite (inject_Z (Qceiling x))
  | _ => a
  end.

Definition max (a b : number) : number :=
  match a, b with
  | NaN, _ | _, NaN => NaN
  | PosInfinity, _ | _, PosInfinity => PosInfinity
  | NegInfinity, x | x, NegInfinity => x
  | Finite x, Finite y => Finite (if Qle_bool x y then y else x)
  end.

(** A whole number as a number, and the order on numbers ([NaN] compares
    with nothing). *)
Definition ofZ (z : Z) : number := Finite (inject_Z z).
Definition ofNat (n : nat) : number := ofZ (Z.of_nat n).


Definition lt (a b : number) : Prop :=
  match a, b with
  | NaN, _ | _, NaN => False
  | Finite x, Finite y => (x < y)%Q
  | NegInfinity, NegInfinity | PosInfinity, PosInfinity => False
  | NegInfinity, _ | _, PosInfinity => True
  | _, _ => False
  end.

End Js.

Import Js.

(** ** Double-precision numbers *)

(** The numbers of the language are IEEE 754 binary64 values: the result of
    an operation is the exact result rounded to the nearest number with a
    significand of 53 bits, ties to the even significand; the least unit
    is [2^-1074], and a result that rounds to [2^1024] or more is an
    infinity.  The sign of zero is not kept. *)
Module Double.

Definition pow2 (e : Z) : Q := Qpower 2 e.

(** The exponent [e] of a positive rational: [2^e <= q < 2^(e+1)]. *)
Definition exponent (q : Q) : Z :=
  let e := (Z.log2 (Qnum q) - Z.log2 (Zpos (Qden q)))%Z in
  if Qle_bool (pow2 e) q then e else (e - 1)%Z.

(** The distance between the doubles around a positive rational. *)
Definition ulp (q : Q) : Q := pow2 (Z.max (exponent q - 52) (-1074)).

(** The nearest whole number, the even one of two that are equally near. *)
Definition nearestEven (q : Q) : Z :=
  let low := Qfloor q in
  match (q - inject_Z low ?= 1 # 2)%Q with
  | Lt => low
  | Gt => (low + 1)%Z
  | Eq => if Z.even low then low else (low + 1)%Z
  end.

(** The nearest multiple of the unit, for a positive rational. *)
Definition nearest (q : Q) : Q :=
  Qred (inject_Z (nearestEven (q / ulp q)) * ulp q).

Definition round (q : Q) : number :=
  match (q ?= 0)%Q with
  | Eq => Finite 0
  | Gt =>
      let r := nearest q in
      if Qle_bool (pow2 1024) r then PosInfinity else Finite r
  | Lt =>
      let r := nearest (- q) in
      if Qle_bool (pow2 1024) r then NegInfinity else Finite (- r)
  end.

Definition rounded (n : number) : number :=
  match n with
  | Finite q => round q
  | _ => n
  end.

(** [a + b] and [a * b]. *)
Definition add (a b : number) : number := rounded (Js.add a b).

Definition mul (a b : number) : number := rounded (Js.mul a b).

(** [estimateHeight] of [scripts/render-snippet.js]. *)
Definition estimateHeight
  (lines fontSize lineHeight chromeHeight codePadding canvasPadding : number) : number :=
  let codeHeight := add (mul lines lineHeight) (mul codePadding (ofZ 2)) in
  ceil (add (add (add codeHeight chromeHeight) (mul canvasPadding (ofZ 2))) (ofZ 40)).

End Double.

(** ** Collaborators and runs *)

(** The bounding rectangle the browser measures, and the whole-pixel
    rectangle handed to the capture. *)
Record rect : Type := { rect_x : Q; rect_y : Q; rect_width : Q; rect_height : Q }.

Record clip : Type := { clip_x : Z; clip_y : Z; clip_width : Z; clip_height : Z }.

(** The calls a run makes on its collaborators, in the order it makes them. *)
Inductive call : Type :=
| ReadFile (path : optval)
| ReadStdin
| StdoutWrite (text : string)
| StderrWrite (text : string)
| GetHighlighter (theme lang : string)
| CodeToHtml (code lang theme : string)
| Launch
| NewPage
| SetViewport (width height deviceScaleFactor : number)
| SetContent (html : string)
| Evaluate
| Mkdir (dir : string)
| Screenshot (path : optval) (region : option clip) (omitBackground : bool)
| PageClose
| BrowserClose
| Exit (code : Z).

(** What the collaborators answer: whether standard input is a terminal and
    what a pipe on it yields, the text of a file, [path.dirname], the
    conversions between numeric text and numbers, the identifiers and the
    markup of the highlighter, and the bounding rectangle of the element of
    class [frame] in a loaded document, if it has one.  [rejects c] is the
    message of the error call [c] fails with, when it fails. *)
Record World : Type := {
  stdin_isTTY : bool;
  stdin_text : string;
  file_text : optval -> string;
  dirname : string -> string;
  stringToNumber : string -> number;
  numberToString : Q -> string;
  bundledThemes : list string;
  bundledLanguages : list string;
  highlighted : string -> string -> string -> string;
  frameRect : string -> option rect;
  rejects : call -> option string
}.

(** A computation returns a value or throws an error with a message, and
    extends the list of calls made so far. *)
Inductive result (A : Type) : Type :=
| Returns (a : A)
| Throws (message : string).

Arguments Returns {A} a.
Arguments Throws {A} message.

Definition trace : Type := list call.

Definition M (A : Type) : Type := trace -> result A * trace.

Definition ret {A : Type} (a : A) : M A := fun t => (Returns a, t).

Definition throw {A : Type} (message : string) : M A := fun t => (Throws message, t).

Definition bind {A B : Type} (m : M A) (k : A -> M B) : M B :=
  fun t =>
    match m t with
    | (Returns a, t') => k a t'
    | (Throws e, t') => (Throws e, t')
    end.

(** [try { body } finally { cleanup }]: the cleanup runs on both exits, and
    an error of the cleanup replaces the outcome of the body. *)
Definition tryFinally {A : Type} (body : M A) (cleanup : M unit) : M A :=
  fun t =>
    match body t with
    | (r, t') =>
        match cleanup t' with
        | (Returns _, t'') => (r, t'')
        | (Throws e, t'') => (Throws e, t'')
        end
    end.

(** One call on a collaborator: it is recorded, and throws when the world
    rejects it. *)
Definition perform (w : World) (c : call) : M unit :=
  fun t =>
    match rejects w c with
    | Some e => (Throws e, (t ++ [c])%list)
    | None => (Returns tt, (t ++ [c])%list)
    end.

Declare Scope run_scope.
Delimit Scope run_scope with run.

Notation "x <- m ;; k" := (bind m (fun x => k))
  (at level 100, m at next level, right associativity) : run_scope.
Notation "m ;; k" := (bind m (fun _ => k))
  (at level 100, right associativity) : run_scope.

(** [main().catch(...)]: an error that reaches the top is reported on the
    diagnostic stream and the process exits with status 1. *)
Definition catchExit (main : M unit) : trace * Z :=
  match main [] with
  | (Returns _, t) => (t, 0%Z)
  | (Throws e, t) => ((t ++ [StderrWrite (e ++ nl); Exit 1])%list, 1%Z)
  end.

(** [Number(value)] of an option value, and how a number is shown by a
    template. *)
Definition Number (w : World) (v : optval) : number :=
  match v with
  | OTrue => Finite 1
  | OStr s => stringToNumber w s
  end.

Definition showNumber (w : World) (n : number) : string :=
  match n with
  | Finite q => numberToString w q
  | NaN => "NaN"
  | PosInfinity => "Infinity"
  | NegInfinity => "-Infinity"
  end.

(** [path.dirname] refuses a value that is no string. *)
Definition pathTypeError : string :=
  "The " ++ dq ++ "path" ++ dq
  ++ " argument must be of type string. Received type boolean (true)".

Definition pathDirname (w : World) (p : optval) : M string :=
  match p with
  | OStr s => ret (dirname w s)
  | OTrue => throw pathTypeError
  end.

(** ** The standalone renderer: [scripts/render-snippet.js] *)

Module RenderSnippet.

Module DEFAULTS.
Definition lang : string := "javascript".
Definition theme : string := "nord".
Definition width : number := ofZ 960.
Definition padding : number := ofZ 64.
Definition font : string :=
  "ui-monospace, SFMono-Regular, Menlo, Monaco, Consolas, 'Liberation Mono', 'Courier New', monospace".
Definition title : string := "snippet".
Definition output : string := "snippet.png".
Definition background : string :=
  "radial-gradient(1200px circle at 10% 20%, #1f2937 0%, #0f172a 45%, #020617 100%)".
Definition scale : number := ofZ 2.
End DEFAULTS.

(** The option record [parseArgs] returns, with the keys [main] reads;
    [opt_positional] is the array under the key [_]. *)
Record Opts : Type := {
  opt_help : option optval;
  opt_input : option optval;
  opt_output : option optval;
  opt_lang : option optval;
  opt_theme : option optval;
  opt_width : option optval;
  opt_padding : option optval;
  opt_background : option optval;
  opt_font : option optval;
  opt_font_size : option optval;
  opt_fontSize : option optval;
  opt_fontsize : option optval;
  opt_title : option optval;
  opt_scale : option optval;
  opt_positional : list string
}.

Definition helpLines : list string := [
  "Usage:";
  "  node scripts/render-snippet.js --input <file> --output <file>";
  "  cat snippet.js | node scripts/render-snippet.js --lang js";
  EmptyString;
  "Options:";
  "  --input <path>     Read code from file (default: stdin)";
  "  --output <path>    Output image path (default: snippet.png)";
  "  --lang <id>        Language for highlighting (default: javascript)";
  "  --theme <id>       Shiki theme (default: nord)";
  "  --width <px>       Code frame width (default: 960)";
  "  --padding <px>     Canvas padding around frame (default: 64)";
  "  --background <css> Canvas background CSS (default: gradient)";
  "  --font <css>       Font-family for code (default: system monospace stack)";
  "  --font-size <px>  Code font size (default: 16)";
  "  --title <text>     Window title label (default: snippet)";
  "  --scale <number>   Device pixel ratio (default: 2)";
  "  --help             Show this help"
].

(** The five replacements of [escapeHtml], in the order the source chains
    them. *)
Definition escapeHtml (value : optval) : string :=
  replaceAll "'" "&#39;"
    (replaceAll dquote "&quot;"
      (replaceAll ">" "&gt;"
        (replaceAll "<" "&lt;"
          (replaceAll "&" "&amp;" (toStr value))))).

(** The sum of [estimateHeight] over the operations without rounding: the
    height that [Double.estimateHeight], the function the run calls,
    approximates. *)
Definition estimateHeight
  (lines fontSize lineHeight chromeHeight codePadding canvasPadding : number) : number :=
  let codeHeight := add (mul lines lineHeight) (mul codePadding (ofZ 2)) in
  ceil (add (add (add codeHeight chromeHeight) (mul canvasPadding (ofZ 2))) (ofZ 40)).

(** [available[0] || fallback]. *)
Definition firstOr (available : list string) (fallback : string) : string :=
  match available with
  | first :: _ => if String.eqb first EmptyString then fallback else first
  | [] => fallback
  end.

(** [available.includes(requested)] for a requested value that may be the
    flag value [true], which no key equals. *)
Definition includesVal (available : list string) (requested : optval) : bool :=
  match requested with
  | OStr s => includes available s
  | OTrue => false
  end.

Definition aliases : list (string * string) := [
  ("js", "javascript");
  ("ts", "typescript");
  ("py", "python");
  ("rb", "ruby");
  ("sh", "bash")
].

(** [aliases.get(requested)]. *)
Fixpoint aliasesGet (table : list (string * string)) (requested : optval) : option string :=
  match table, requested with
  | (short, long) :: rest, OStr s =>
      if String.eqb short s then Some long else aliasesGet rest requested
  | _, _ => None
  end.

(** [theme !== requested]. *)
Definition differs (resolved : string) (requested : optval) : bool :=
  match requested with
  | OStr s => negb (String.eqb resolved s)
  | OTrue => true
  end.

(** The segments of the document template between its interpolations. *)
Definition doc_head : string :=
  "<!doctype html>
<html lang=" ++ dq ++ "en" ++ dq ++ ">
<head>
  <meta charset=" ++ dq ++ "utf-8" ++ dq ++ " />
  <meta name=" ++ dq ++ "viewport" ++ dq ++ " content=" ++ dq ++ "width=device-width, initial-scale=1" ++ dq ++ " />
  <title>snippet</title>
  <style>
    :root {
      --frame-radius: 16px;
      --frame-bg: #0b1120;
      --chrome-bg: linear-gradient(90deg, #0f172a 0%, #111827 100%);
      --chrome-border: rgba(148, 163, 184, 0.16);
      --shadow: 0 30px 60px rgba(2, 6, 23, 0.6);
    }
    * { box-sizing: border-box; }
    body {
      margin: 0;
      min-height: 100vh;
      display: flex;
      align-items: center;
      justify-content: center;
      background: #0b1120;
      font-family: ".

Definition doc_canvas_padding : string :=
  ";
    }
    .canvas {
      display: inline-block;
      padding: ".

Definition doc_canvas_background : string :=
  "px;
      background: ".

Definition doc_frame_width : string :=
  ";
      border-radius: 28px;
    }
    .frame {
      width: ".

Definition doc_code_font_size : string :=
  "px;
      background: var(--frame-bg);
      border-radius: var(--frame-radius);
      box-shadow: var(--shadow);
      overflow: hidden;
      border: 1px solid rgba(148, 163, 184, 0.18);
    }
    .chrome {
      height: 40px;
      display: flex;
      align-items: center;
      padding: 0 16px;
      gap: 12px;
      background: var(--chrome-bg);
      border-bottom: 1px solid var(--chrome-border);
      color: #cbd5f5;
      font-size: 12px;
      letter-spacing: 0.06em;
      text-transform: uppercase;
    }
    .dots { display: flex; gap: 8px; }
    .dot { width: 10px; height: 10px; border-radius: 999px; }
    .dot.red { background: #f87171; }
    .dot.yellow { background: #facc15; }
    .dot.green { background: #4ade80; }
    .title { opacity: 0.7; }
    .code {
      padding: 24px;
      font-size: ".

Definition doc_body_title : string :=
  "px;
      line-height: 1.6;
      color: #e2e8f0;
    }
    .code pre,
    .code code {
      margin: 0;
      white-space: pre;
      font-family: inherit;
    }
    .code pre.shiki {
      background: transparent !important;
      padding: 0 !important;
    }
    .theme-label {
      margin-left: auto;
      opacity: 0.4;
      font-size: 11px;
    }
  </style>
</head>
<body>
  <div class=" ++ dq ++ "canvas" ++ dq ++ ">
    <div class=" ++ dq ++ "frame" ++ dq ++ ">
      <div class=" ++ dq ++ "chrome" ++ dq ++ ">
        <div class=" ++ dq ++ "dots" ++ dq ++ ">
          <span class=" ++ dq ++ "dot red" ++ dq ++ "></span>
          <span class=" ++ dq ++ "dot yellow" ++ dq ++ "></span>
          <span class=" ++ dq ++ "dot green" ++ dq ++ "></span>
        </div>
        <div class=" ++ dq ++ "title" ++ dq ++ ">".

Definition doc_theme_label : string :=
  "</div>
        <div class=" ++ dq ++ "theme-label" ++ dq ++ ">".

Definition doc_code_region : string :=
  "</div>
      </div>
      <div class=" ++ dq ++ "code" ++ dq ++ ">
        ".

Definition doc_tail : string :=
  "
      </div>
    </div>
  </div>
</body>
</html>".

Section WithWorld.

Variable w : World.

Local Open Scope run_scope.

Definition showHelp : M unit :=
  perform w (StdoutWrite (String.concat nl helpLines ++ nl)).

Definition readFile (path : optval) : M string :=
  perform w (ReadFile path) ;; ret (file_text w path).

Definition readInput (opts : Opts) : M string :=
  match opt_input opts, truthy (opt_input opts) with
  | Some path, true => readFile path
  | _, _ =>
      match opt_positional opts with
      | first :: _ => readFile (OStr first)
      | [] =>
          if stdin_isTTY w then
            throw "No input provided. Use --input or pipe code via stdin."
          else
            perform w ReadStdin ;; ret (stdin_text w)
      end
  end.

Definition toNumber (value : option optval) (fallback : number) : number :=
  match value with
  | None => fallback
  | Some v =>
      let num := Number w v in
      if isFinite num then num else fallback
  end.

Definition buildHtml
  (codeHtml : string) (width padding : number) (background font title : optval)
  (themeName : string) (fontSize : number) : string :=
  doc_head ++ toStr font
  ++ doc_canvas_padding ++ showNumber w padding
  ++ doc_canvas_background ++ toStr background
  ++ doc_frame_width ++ showNumber w width
  ++ doc_code_font_size ++ showNumber w fontSize
  ++ doc_body_title ++ escapeHtml title
  ++ doc_theme_label ++ escapeHtml (OStr themeName)
  ++ doc_code_region ++ codeHtml
  ++ doc_tail.

Definition resolveTheme (requested : optval) (fallback : string) : string :=
  let available := bundledThemes w in
  if includesVal available requested then toStr requested
  else if includes available fallback then fallback
  else firstOr available fallback.

Definition resolveLanguage (requested : optval) (fallback : string) : string :=
  let available := bundledLanguages w in
  let normalized :=
    match aliasesGet aliases requested with
    | Some long => OStr long
    | None => requested
    end in
  if includesVal available normalized then toStr normalized
  else if includes available fallback then fallback
  else firstOr available fallback.

Definition themeWarning (requestedTheme : optval) (theme : string) : string :=
  "Theme " ++ dq ++ toStr requestedTheme ++ dq ++ " not found. Using "
  ++ dq ++ theme ++ dq ++ "." ++ nl.

Definition languageWarning (requestedLang : optval) (lang : string) : string :=
  "Language " ++ dq ++ toStr requestedLang ++ dq ++ " not found. Using "
  ++ dq ++ lang ++ dq ++ "." ++ nl.

(** The rectangle [page.evaluate] returns for a measured frame. *)
Definition clipOf (r : rect) : clip :=
  {| clip_x := Qfloor (rect_x r);
     clip_y := Qfloor (rect_y r);
     clip_width := Qceiling (rect_width r);
     clip_height := Qceiling (rect_height r) |}.

(** The numeric options and the estimate, as [main] computes them. *)
Definition widthOf (opts : Opts) : number := toNumber (opt_width opts) DEFAULTS.width.

Definition paddingOf (opts : Opts) : number := toNumber (opt_padding opts) DEFAULTS.padding.

Definition scaleOf (opts : Opts) : number := toNumber (opt_scale opts) DEFAULTS.scale.

Definition fontSizeOf (opts : Opts) : number :=
  toNumber (orElse (orElse (opt_font_size opts) (opt_fontSize opts)) (opt_fontsize opts))
           (ofZ 16).

Definition lineCountOf (code : string) : nat := List.length (split newline code).

Definition estimatedHeightOf (code : string) (fontSize padding : number) : number :=
  let lineCount := ofNat (lineCountOf code) in
  let lineHeight := Double.mul fontSize (Double.round 1.6) in
  Double.estimateHeight lineCount fontSize lineHeight (ofZ 40) (ofZ 24) padding.

Definition main (opts : Opts) : M unit :=
  if truthy (opt_help opts) then showHelp
  else
    code <- readInput opts ;;
    let requestedLang := orDefault (opt_lang opts) DEFAULTS.lang in
    let requestedTheme := orDefault (opt_theme opts) DEFAULTS.theme in
    let width := widthOf opts in
    let padding := paddingOf opts in
    let font := orDefault (opt_font opts) DEFAULTS.font in
    let title := orDefault (opt_title opts) DEFAULTS.title in
    let background := orDefault (opt_background opts) DEFAULTS.background in
    let output := orDefault (opt_output opts) DEFAULTS.output in
    let scale := scaleOf opts in
    let fontSize := fontSizeOf opts in
    let theme := resolveTheme requestedTheme DEFAULTS.theme in
    let lang := resolveLanguage requestedLang DEFAULTS.lang in
    (if truthy (Some requestedTheme) && differs theme requestedTheme
     then perform w (StderrWrite (themeWarning requestedTheme theme))
     else ret tt) ;;
    (if truthy (Some requestedLang) && differs lang requestedLang
     then perform w (StderrWrite (languageWarning requestedLang lang))
     else ret tt) ;;
    perform w (GetHighlighter theme lang) ;;
    perform w (CodeToHtml code lang theme) ;;
    let codeHtml := highlighted w code lang theme in
    let estimatedHeight := estimatedHeightOf code fontSize padding in
    perform w Launch ;;
    tryFinally
      (perform w NewPage ;;
       perform w (SetViewport
                    (max (Double.add width (Double.mul padding (ofZ 2))) (ofZ 320))
                    (max estimatedHeight (ofZ 480))
                              scale) ;;
       let html := buildHtml codeHtml width padding background font title theme fontSize in
       perform w (SetContent html) ;;
       perform w Evaluate ;;
       match frameRect w html with
       | None => throw "Failed to locate canvas for screenshot."
       | Some r =>
           dir <- pathDirname w output ;;
           perform w (Mkdir dir) ;;
           perform w (Screenshot output (Some (clipOf r)) false)
       end)
      (perform w BrowserClose) ;;
    perform w (StdoutWrite ("Wrote " ++ toStr output ++ nl)).

(** The process: [main().catch(...)]. *)
Definition run (opts : Opts) : trace * Z := catchExit (main opts).

End WithWorld.

End RenderSnippet.

(** ** The video-overlay renderer: [main.js] *)

Module Main.

Module DEFAULTS.
Definition theme : string := "nord".
Definition width : number := ofZ 1080.
Definition height : number := ofZ 1920.
Definition padding : number := ofZ 80.
Definition font : string :=
  "ui-monospace, SFMono-Regular, Menlo, Monaco, Consolas, 'Liberation Mono', 'Courier New', monospace".
Definition background : string :=
  "radial-gradient(1200px circle at 10% 20%, #1f2937 0%, #0f172a 45%, #020617 100%)".
Definition scale : number := ofZ 2.
Definition fontSize : number := ofZ 24.
End DEFAULTS.

(** The segments of the document template between its interpolations. *)
Definition doc_head : string :=
  "<!doctype html>
<html lang=" ++ dq ++ "en" ++ dq ++ ">
<head>
  <meta charset=" ++ dq ++ "utf-8" ++ dq ++ " />
  <meta name=" ++ dq ++ "viewport" ++ dq ++ " content=" ++ dq ++ "width=device-width, initial-scale=1" ++ dq ++ " />
  <title>snippet</title>
  <style>
    :root {
      --frame-radius: 16px;
      --frame-bg: #0b1120;
      --chrome-bg: linear-gradient(90deg, #0f172a 0%, #111827 100%);
      --chrome-border: rgba(148, 163, 184, 0.16);
      --shadow: 0 30px 60px rgba(2, 6, 23, 0.6);
    }
    * { box-sizing: border-box; }
    body {
      margin: 0;
      width: ".

Definition doc_body_height : string :=
  "px;
      height: ".

Definition doc_body_font : string :=
  "px;
      display: flex;
      align-items: center;
      justify-content: center;
      flex-direction: column;
      gap: 60px;
      background: transparent;
      font-family: ".

Definition doc_body_padding : string :=
  ";
      padding: ".

Definition doc_frame_width : string :=
  "px;
    }
    .header {
      text-align: center;
      color: #e2e8f0;
      padding: 30px 60px;
    }
    .header h1 {
      font-size: 72px;
      font-weight: 700;
      margin: 0 0 24px 0;
      letter-spacing: -0.02em;
      text-shadow: 
        -2px -2px 0 #000,
        2px -2px 0 #000,
        -2px 2px 0 #000,
        2px 2px 0 #000,
        0 0 20px rgba(0, 0, 0, 0.5);
    }
    .level {
      font-size: 42px;
      font-weight: 600;
      color: #818cf8;
      text-transform: uppercase;
      letter-spacing: 0.1em;
      text-shadow: 
        -1.5px -1.5px 0 #000,
        1.5px -1.5px 0 #000,
        -1.5px 1.5px 0 #000,
        1.5px 1.5px 0 #000,
        0 0 15px rgba(0, 0, 0, 0.5);
    }
    .frame {
      width: ".

Definition doc_code_font_size : string :=
  "px;
      background: var(--frame-bg);
      border-radius: var(--frame-radius);
      box-shadow: var(--shadow);
      overflow: hidden;
      border: 1px solid rgba(148, 163, 184, 0.18);
      backdrop-filter: blur(10px);
    }
    .chrome {
      height: 50px;
      display: flex;
      align-items: center;
      padding: 0 20px;
      gap: 16px;
      background: var(--chrome-bg);
      border-bottom: 1px solid var(--chrome-border);
      color: #cbd5f5;
      font-size: 14px;
      letter-spacing: 0.06em;
      text-transform: uppercase;
    }
    .dots { display: flex; gap: 10px; }
    .dot { width: 14px; height: 14px; border-radius: 999px; }
    .dot.red { background: #f87171; }
    .dot.yellow { background: #facc15; }
    .dot.green { background: #4ade80; }
    .code {
      padding: 40px;
      font-size: ".

Definition doc_level : string :=
  "px;
      line-height: 1.6;
      color: #e2e8f0;
    }
    .code pre,
    .code code {
      margin: 0;
      white-space: pre;
      font-family: inherit;
    }
    .code pre.shiki {
      background: transparent !important;
      padding: 0 !important;
    }
  </style>
</head>
<body>
  <div class=" ++ dq ++ "header" ++ dq ++ ">
    <h1>What Is The Output?</h1>
    <div class=" ++ dq ++ "level" ++ dq ++ ">Level: ".

Definition doc_code_region : string :=
  "</div>
  </div>
  <div class=" ++ dq ++ "frame" ++ dq ++ ">
    <div class=" ++ dq ++ "chrome" ++ dq ++ ">
      <div class=" ++ dq ++ "dots" ++ dq ++ ">
        <span class=" ++ dq ++ "dot red" ++ dq ++ "></span>
        <span class=" ++ dq ++ "dot yellow" ++ dq ++ "></span>
        <span class=" ++ dq ++ "dot green" ++ dq ++ "></span>
      </div>
    </div>
    <div class=" ++ dq ++ "code" ++ dq ++ ">
      ".

Definition doc_tail : string :=
  "
    </div>
  </div>
</body>
</html>".

Section WithWorld.

Variable w : World.

Local Open Scope run_scope.

(** The template of this file interpolates every value as it is; the
    [background] argument is accepted and not used. *)
Definition buildHtml
  (codeHtml : string) (width height padding : number) (background font : string)
  (fontSize : number) (difficulty : string) : string :=
  doc_head ++ showNumber w width
  ++ doc_body_height ++ showNumber w height
  ++ doc_body_font ++ font
  ++ doc_body_padding ++ showNumber w padding
  ++ doc_frame_width ++ showNumber w (sub width (mul padding (ofZ 2)))
  ++ doc_code_font_size ++ showNumber w fontSize
  ++ doc_level ++ difficulty
  ++ doc_code_region ++ codeHtml
  ++ doc_tail.

(** [renderSnippet(code, difficulty, outputPath, browser)] on a browser the
    caller has launched and will close. *)
Definition renderSnippet (code difficulty outputPath : string) : M unit :=
  perform w (GetHighlighter "nord" "javascript") ;;
  perform w (CodeToHtml code "javascript" "nord") ;;
  let codeHtml := highlighted w code "javascript" "nord" in
  perform w NewPage ;;
  perform w (SetViewport DEFAULTS.width DEFAULTS.height DEFAULTS.scale) ;;
  let html :=
    buildHtml codeHtml DEFAULTS.width DEFAULTS.height DEFAULTS.padding
              DEFAULTS.background DEFAULTS.font DEFAULTS.fontSize difficulty in
  perform w (SetContent html) ;;
  perform w (Screenshot (OStr outputPath) None true) ;;
  perform w PageClose ;;
  perform w (StdoutWrite ("  ✓ Rendered: " ++ outputPath ++ nl)).

End WithWorld.

End Main.

(** ** The two phases of the standalone run *)

(** [main] reads, resolves and highlights before it launches the browser,
    and everything from the launch on depends on the earlier part only
    through the document, the viewport and the output path.  The two parts
    are named here for the proofs; [main_phases] shows that [main] is their
    composition. *)
Module Phases.

Record Plan : Type := {
  plan_output : optval;
  plan_html : string;
  plan_width : number;
  plan_height : number;
  plan_scale : number
}.

Section WithWorld.

Variable w : World.

Local Open Scope run_scope.

Definition prepare (opts : RenderSnippet.Opts) : M Plan :=
  code <- RenderSnippet.readInput w opts ;;
  let requestedLang :=
    orDefault (RenderSnippet.opt_lang opts) RenderSnippet.DEFAULTS.lang in
  let requestedTheme :=
    orDefault (RenderSnippet.opt_theme opts) RenderSnippet.DEFAULTS.theme in
  let width := RenderSnippet.widthOf w opts in
  let padding := RenderSnippet.paddingOf w opts in
  let font := orDefault (RenderSnippet.opt_font opts) RenderSnippet.DEFAULTS.font in
  let title := orDefault (RenderSnippet.opt_title opts) RenderSnippet.DEFAULTS.title in
  let background :=
    orDefault (RenderSnippet.opt_background opts) RenderSnippet.DEFAULTS.background in
  let output :=
    orDefault (RenderSnippet.opt_output opts) RenderSnippet.DEFAULTS.output in
  let scale := RenderSnippet.scaleOf w opts in
  let fontSize := RenderSnippet.fontSizeOf w opts in
  let theme := RenderSnippet.resolveTheme w requestedTheme RenderSnippet.DEFAULTS.theme in
  let lang := RenderSnippet.resolveLanguage w requestedLang RenderSnippet.DEFAULTS.lang in
  (if truthy (Some requestedTheme) && RenderSnippet.differs theme requestedTheme
   then perform w (StderrWrite (RenderSnippet.themeWarning requestedTheme theme))
   else ret tt) ;;
  (if truthy (Some requestedLang) && RenderSnippet.differs lang requestedLang
   then perform w (StderrWrite (RenderSnippet.languageWarning requestedLang lang))
   else ret tt) ;;
  perform w (GetHighlighter theme lang) ;;
  perform w (CodeToHtml code lang theme) ;;
  let codeHtml := highlighted w code lang theme in
  ret {| plan_output := output;
         plan_html :=
           RenderSnippet.buildHtml w codeHtml width padding background font
                                   title theme fontSize;
         plan_width :=
           max (Double.add width (Double.mul padding (ofZ 2))) (ofZ 320);
         plan_height :=
           max (RenderSnippet.estimatedHeightOf code fontSize padding) (ofZ 480);
         plan_scale := scale |}.

Definition session (p : Plan) : M unit :=
  perform w Launch ;;
  tryFinally
    (perform w NewPage ;;
     perform w (SetViewport (plan_width p) (plan_height p) (plan_scale p)) ;;
     perform w (SetContent (plan_html p)) ;;
     perform w Evaluate ;;
     match frameRect w (plan_html p) with
     | None => throw "Failed to locate canvas for screenshot."
     | Some r =>
         dir <- pathDirname w (plan_output p) ;;
         perform w (Mkdir dir) ;;
         perform w (Screenshot (plan_output p) (Some (RenderSnippet.clipOf r)) false)
     end)
    (perform w BrowserClose) ;;
  perform w (StdoutWrite ("Wrote " ++ toStr (plan_output p) ++ nl)).

End WithWorld.

(** The calls of the first phase. *)
Definition early (c : call) : Prop :=
  match c with
  | ReadFile _ | ReadStdin | StderrWrite _ | GetHighlighter _ _
  | CodeToHtml _ _ _ => True
  | _ => False
  end.

(** The calls a run makes outside the session: the early ones, the writes
    to the standard streams and the exit. *)
Definition outer (c : call) : Prop :=
  match c with
  | StdoutWrite _ | StderrWrite _ | Exit _ => True
  | _ => early c
  end.

End Phases.

(** ** The specification's words, for comparison with the code *)

Module Spec.

(** The entity of a markup-special character; every other character stands
    for itself. *)
Definition entity (c : ascii) : string :=
  if Ascii.eqb c "&" then "&amp;"
  else if Ascii.eqb c "<" then "&lt;"
  else if Ascii.eqb c ">" then "&gt;"
  else if Ascii.eqb c dquote then "&quot;"
  else if Ascii.eqb c "'" then "&#39;"
  else String c EmptyString.

(** A text with each of its characters replaced by its entity. *)
Fixpoint escaped (s : string) : string :=
  match s with
  | EmptyString => EmptyString
  | String c s' => entity c ++ escaped s'
  end.

(** The five markup-special characters. *)
Definition special (c : ascii) : bool :=
  Ascii.eqb c "&" || Ascii.eqb c "<" || Ascii.eqb c ">"
  || Ascii.eqb c dquote || Ascii.eqb c "'".

(** Number of markup-special characters of a text. *)
Fixpoint specials (s : string) : nat :=
  match s with
  | EmptyString => 0
  | String c s' => (if special c then 1 else 0) + specials s'
  end.

(** The layout estimate of the data model, over the operations without
    rounding. *)
Record LayoutEstimate : Type := {
  lineCount : number;
  lineHeightPx : number;
  codeBlockHeightPx : number;
  canvasHeightPx : number
}.

Definition innerPadding : number := ofZ 24.
Definition chromeBarHeightPx : number := ofZ 40.
Definition fixedMargin : number := ofZ 40.

Definition layoutEstimate (code : string) (fontSizePx canvasPadding : number)
  : LayoutEstimate :=
  let lineCount := ofNat (count newline code + 1) in
  let lineHeightPx := mul fontSizePx (Finite 1.6) in
  let codeBlockHeightPx :=
    add (mul lineCount lineHeightPx) (mul (ofZ 2) innerPadding) in
  {| lineCount := lineCount;
     lineHeightPx := lineHeightPx;
     codeBlockHeightPx := codeBlockHeightPx;
     canvasHeightPx :=
       add (add (add codeBlockHeightPx chromeBarHeightPx)
                (mul (ofZ 2) canvasPadding))
           fixedMargin |}.

(** The same formula with every product and sum rounded to a double, and
    [1.6] the double the literal denotes. *)
Definition layoutEstimateRounded (code : string) (fontSizePx canvasPadding : number)
  : LayoutEstimate :=
  let lineCount := ofNat (count newline code + 1) in
  let lineHeightPx := Double.mul fontSizePx (Double.round 1.6) in
  let codeBlockHeightPx :=
    Double.add (Double.mul lineCount lineHeightPx) (Double.mul (ofZ 2) innerPadding) in
  {| lineCount := lineCount;
     lineHeightPx := lineHeightPx;
     codeBlockHeightPx := codeBlockHeightPx;
     canvasHeightPx :=
       Double.add (Double.add (Double.add codeBlockHeightPx chromeBarHeightPx)
                              (Double.mul (ofZ 2) canvasPadding))
                  fixedMargin |}.

(** A capture that rasterizes only the measured frame: every capture call
    of the run is given the rounded rectangle of the frame of the document
    the run loaded. *)
Definition capturesOnlyFrame (w : World) (t : trace) : Prop :=
  forall path region transparent,
    In (Screenshot path region transparent) t ->
    exists html r,
      In (SetContent html) t /\ frameRect w html = Some r
      /\ region = Some (RenderSnippet.clipOf r).



End Spec.

(** ** Sample worlds and options *)

Module Demo.

(** Decimal text of the whole part of a number (the numbers of the samples
    are whole), and the decimal whole numbers among the numeric texts. *)
Definition showWhole (q : Q) : string :=
  NilZero.string_of_int (Z.to_int (Qfloor q)).

Definition readDecimal (s : string) : number :=
  if String.eqb s EmptyString then Finite 0
  else if String.eqb s "Infinity" then PosInfinity
  else match NilZero.int_of_string s with
       | Some d => ofZ (Z.of_int d)
       | None => NaN
       end.

Definition frameMarkup : string := "<div class=" ++ dq ++ "frame" ++ dq ++ ">".

(** Code arrives on a pipe, every call succeeds, and the browser finds the
    frame of a document that has one. *)
Definition world : World := {|
  stdin_isTTY := false;
  stdin_text := "console.log(1+1)";
  file_text := fun _ => "let a = 1;" ++ nl ++ "let b = a < 2;" ++ nl;
  dirname := fun _ => ".";
  stringToNumber := readDecimal;
  numberToString := showWhole;
  bundledThemes := ["nord"; "dracula"];
  bundledLanguages := ["javascript"; "typescript"; "python"];
  highlighted := fun code _ _ =>
    "<pre class=" ++ dq ++ "shiki" ++ dq ++ "><code>" ++ Spec.escaped code
    ++ "</code></pre>";
  frameRect := fun html =>
    if occursb frameMarkup html
    then Some {| rect_x := 64.5; rect_y := 139.25;
                 rect_width := 960; rect_height := 113.6 |}
    else None;
  rejects := fun _ => None
|}.

(** The same with a terminal on standard input. *)
Definition terminal : World := {|
  stdin_isTTY := true;
  stdin_text := EmptyString;
  file_text := file_text world;
  dirname := dirname world;
  stringToNumber := stringToNumber world;
  numberToString := numberToString world;
  bundledThemes := bundledThemes world;
  bundledLanguages := bundledLanguages world;
  highlighted := highlighted world;
  frameRect := frameRect world;
  rejects := rejects world
|}.

(** The same with a browser that finds no frame. *)
Definition blind : World := {|
  stdin_isTTY := stdin_isTTY world;
  stdin_text := stdin_text world;
  file_text := file_text world;
  dirname := dirname world;
  stringToNumber := stringToNumber world;
  numberToString := numberToString world;
  bundledThemes := bundledThemes world;
  bundledLanguages := bundledLanguages world;
  highlighted := highlighted world;
  frameRect := fun _ => None;
  rejects := rejects world
|}.

(** No option given, and single options on top of that. *)
Definition noOpts : RenderSnippet.Opts := {|
  RenderSnippet.opt_help := None;
  RenderSnippet.opt_input := None;
  RenderSnippet.opt_output := None;
  RenderSnippet.opt_lang := None;
  RenderSnippet.opt_theme := None;
  RenderSnippet.opt_width := None;
  RenderSnippet.opt_padding := None;
  RenderSnippet.opt_background := None;
  RenderSnippet.opt_font := None;
  RenderSnippet.opt_font_size := None;
  RenderSnippet.opt_fontSize := None;
  RenderSnippet.opt_fontsize := None;
  RenderSnippet.opt_title := None;
  RenderSnippet.opt_scale := None;
  RenderSnippet.opt_positional := []
|}.


Definition withWidth (width : string) : RenderSnippet.Opts := {|
  RenderSnippet.opt_help := None;
  RenderSnippet.opt_input := None;
  RenderSnippet.opt_output := None;
  RenderSnippet.opt_lang := None;
  RenderSnippet.opt_theme := None;
  RenderSnippet.opt_width := Some (OStr width);
  RenderSnippet.opt_padding := None;
  RenderSnippet.opt_background := None;
  RenderSnippet.opt_font := None;
  RenderSnippet.opt_font_size := None;
  RenderSnippet.opt_fontSize := None;
  RenderSnippet.opt_fontsize := None;
  RenderSnippet.opt_title := None;
  RenderSnippet.opt_scale := None;
  RenderSnippet.opt_positional := []
|}.

Definition withPadding (padding : string) : RenderSnippet.Opts := {|
  RenderSnippet.opt_help := None;
  RenderSnippet.opt_input := None;
  RenderSnippet.opt_output := None;
  RenderSnippet.opt_lang := None;
  RenderSnippet.opt_theme := None;
  RenderSnippet.opt_width := None;
  RenderSnippet.opt_padding := Some (OStr padding);
  RenderSnippet.opt_background := None;
  RenderSnippet.opt_font := None;
  RenderSnippet.opt_font_size := None;
  RenderSnippet.opt_fontSize := None;
  RenderSnippet.opt_fontsize := None;
  RenderSnippet.opt_title := None;
  RenderSnippet.opt_scale := None;
  RenderSnippet.opt_positional := []
|}.

(** An empty pipe and empty files, and a browser that finds the frame of
    every document. *)
Definition empty : World := {|
  stdin_isTTY := false;
  stdin_text := EmptyString;
  file_text := fun _ => EmptyString;
  dirname := dirname world;
  stringToNumber := stringToNumber world;
  numberToString := numberToString world;
  bundledThemes := bundledThemes world;
  bundledLanguages := bundledLanguages world;
  highlighted := highlighted world;
  frameRect := fun _ =>
    Some {| rect_x := 64; rect_y := 139; rect_width := 960; rect_height := 114 |};
  rejects := rejects world
|}.

End Demo.

(** ** The command line of the standalone renderer *)

(** [parseArgs] of [scripts/render-snippet.js], and [main] started from the
    arguments of the process. *)
Module Args.

(** [s.startsWith("--")] and [s.slice(2)]. *)
Definition isFlag (s : string) : bool := prefixb "--" s.

Definition slice2 (s : string) : string :=
  match s with
  | String _ (String _ rest) => rest
  | _ => EmptyString
  end.

(** The property [_] of the option record: the array of the positional
    arguments, or the value that a flag named [_] has put in its place. *)
Inductive underscore : Type :=
| Positional (args : list string)
| Shadowed (v : optval).

(** The option record: its flags, latest first, and its property [_]. *)
Record Parsed : Type := {
  flags : list (string * optval);
  under : underscore
}.

(** [{ _: [] }]. *)
Definition empty : Parsed := {| flags := []; under := Positional [] |}.

(** [opts[key] = value].  The key [_] replaces the array, and the key
    [__proto__] is the accessor of the prototype, which ignores a value
    that is no object. *)
Definition assign (key : string) (value : optval) (opts : Parsed) : Parsed :=
  if String.eqb key "_" then {| flags := flags opts; under := Shadowed value |}
  else if String.eqb key "__proto__" then opts
  else {| flags := (key, value) :: flags opts; under := under opts |}.

(** [opts._.push(arg)], a type error when [_] is no array any more. *)
Definition pushError : string := "opts._.push is not a function".

Definition push (arg : string) (opts : Parsed) : result Parsed :=
  match under opts with
  | Positional args =>
      Returns {| flags := flags opts; under := Positional (args ++ [arg]) |}
  | Shadowed _ => Throws pushError
  end.

(** The loop of [parseArgs] from the argument at hand on. *)
Fixpoint parseFrom (argv : list string) (opts : Parsed) : result Parsed :=
  match argv with
  | [] => Returns opts
  | arg :: rest =>
      if isFlag arg then
        let key := slice2 arg in
        match rest with
        | [] => Returns (assign key OTrue opts)
        | next :: rest' =>
            if String.eqb next EmptyString || isFlag next
            then parseFrom rest (assign key OTrue opts)
            else parseFrom rest' (assign key (OStr next) opts)
        end
      else
        match push arg opts with
        | Returns opts' => parseFrom rest opts'
        | Throws e => Throws e
        end
  end.

Definition parseArgs (argv : list string) : result Parsed := parseFrom argv empty.

(** [opts[key]] for a key that is no property of every object. *)
Fixpoint lookup (key : string) (l : list (string * optval)) : option optval :=
  match l with
  | [] => None
  | (k, v) :: l' => if String.eqb k key then Some v else lookup key l'
  end.

Definition get (key : string) (opts : Parsed) : option optval :=
  lookup key (flags opts).

(** What [main] reads of [opts._]: whether its length is positive and its
    element 0, which for a text is its first character. *)
Definition positionalOf (u : underscore) : list string :=
  match u with
  | Positional args => args
  | Shadowed (OStr (String c _)) => [String c EmptyString]
  | Shadowed _ => []
  end.

(** The option record as [main] reads it. *)
Definition optsOf (opts : Parsed) : RenderSnippet.Opts := {|
  RenderSnippet.opt_help := get "help" opts;
  RenderSnippet.opt_input := get "input" opts;
  RenderSnippet.opt_output := get "output" opts;
  RenderSnippet.opt_lang := get "lang" opts;
  RenderSnippet.opt_theme := get "theme" opts;
  RenderSnippet.opt_width := get "width" opts;
  RenderSnippet.opt_padding := get "padding" opts;
  RenderSnippet.opt_background := get "background" opts;
  RenderSnippet.opt_font := get "font" opts;
  RenderSnippet.opt_font_size := get "font-size" opts;
  RenderSnippet.opt_fontSize := get "fontSize" opts;
  RenderSnippet.opt_fontsize := get "fontsize" opts;
  RenderSnippet.opt_title := get "title" opts;
  RenderSnippet.opt_scale := get "scale" opts;
  RenderSnippet.opt_positional := positionalOf (under opts)
|}.

(** [main] from [process.argv.slice(2)], and the process. *)
Definition mainArgv (w : World) (argv : list string) : M unit :=
  match parseArgs argv with
  | Returns opts => RenderSnippet.main w (optsOf opts)
  | Throws e => throw e
  end.

Definition run (w : World) (argv : list string) : trace * Z :=
  catchExit (mainArgv w argv).

(** A command line of flags with their values. *)
Definition encode (pairs : list (string * string)) : list string :=
  flat_map (fun kv => ["--" ++ fst kv; snd kv]) pairs.

(** A value stored for a flag: [true], or an argument of the command line
    that is not empty and is no flag itself. *)
Definition valueOk (argv : list string) (v : optval) : Prop :=
  match v with
  | OTrue => True
  | OStr s => s <> EmptyString /\ isFlag s = false /\ In s argv
  end.

(** A pair that [encode] writes and [parseArgs] reads back: a key that is
    neither [_] nor [__proto__], and a value that is not empty and does not
    begin with two dashes. *)
Definition pairOk (kv : string * string) : Prop :=
  fst kv <> "_" /\ fst kv <> "__proto__"
  /\ snd kv <> EmptyString /\ isFlag (snd kv) = false.

End Args.

(** ** The reel generator: the helpers of [main.js] *)

Module Reel.

(** What [getTimestampedFolder] reads of the clock: [getFullYear],
    [getMonth] (from 0), [getDate], [getHours], [getMinutes] and
    [getSeconds] of the date at hand. *)
Record Clock : Type := {
  fullYear : Z;
  month : nat;
  date : nat;
  hours : nat;
  minutes : nat;
  seconds : nat
}.

(** [String(n)] of a whole number. *)
Definition showNat (n : nat) : string := NilZero.string_of_uint (Nat.to_uint n).

Definition showZ (z : Z) : string := NilZero.string_of_int (Z.to_int z).

(** [s.padStart(target, pad)] for a pad of one character. *)
Fixpoint repeatChar (c : ascii) (n : nat) : string :=
  match n with
  | O => EmptyString
  | S n' => String c (repeatChar c n')
  end.

Definition padStart (target : nat) (pad : ascii) (s : string) : string :=
  repeatChar pad (target - String.length s) ++ s.

Definition getTimestampedFolder (now : Clock) : string :=
  let year := showZ (fullYear now) in
  let month := padStart 2 "0" (showNat (month now + 1)) in
  let day := padStart 2 "0" (showNat (date now)) in
  let hours := padStart 2 "0" (showNat (hours now)) in
  let minutes := padStart 2 "0" (showNat (minutes now)) in
  let seconds := padStart 2 "0" (showNat (seconds now)) in
  "output_" ++ year ++ month ++ day ++ "_" ++ hours ++ minutes ++ seconds.

(** A field of the name: a number padded to two digits; and the part of
    the name after the year. *)
Definition twoDigits (n : nat) : string := padStart 2 "0" (showNat n).

Definition afterYear (c : Clock) : string :=
  twoDigits (month c + 1) ++ twoDigits (date c) ++ "_"
  ++ twoDigits (hours c) ++ twoDigits (minutes c) ++ twoDigits (seconds c).

(** The fields of a date are in their ranges. *)
Definition inRange (c : Clock) : Prop :=
  (month c <= 11 /\ 1 <= date c <= 31
   /\ hours c <= 23 /\ minutes c <= 59 /\ seconds c <= 59)%nat.

(** The order of two dates of one year. *)
Definition compareInYear (a b : Clock) : comparison :=
  match Nat.compare (month a) (month b) with
  | Eq =>
      match Nat.compare (date a) (date b) with
      | Eq =>
          match Nat.compare (hours a) (hours b) with
          | Eq =>
              match Nat.compare (minutes a) (minutes b) with
              | Eq => Nat.compare (seconds a) (seconds b)
              | c => c
              end
          | c => c
          end
      | c => c
      end
  | c => c
  end.

(** The start of the segment [extractRandomVideoSegment] cuts, from the
    duration of the video, the duration wanted and the draw of
    [Math.random], over the operations without rounding. *)
Definition segmentStart (totalDuration duration random : number) : number :=
  let maxStartTime := max (ofZ 0) (sub totalDuration duration) in
  mul random maxStartTime.

(** *** The answer of the model *)

(** [s.slice(n)]. *)
Fixpoint drop (n : nat) (s : string) : string :=
  match n, s with
  | O, _ => s
  | S k, String _ rest => drop k rest
  | S _, EmptyString => EmptyString
  end.

(** [s.replace(/<fence>\n?/g, '')] for a fence that is not empty: every
    match, from the left, is dropped with the newline that follows it if
    there is one.  [skip] counts the characters of the match at hand that
    are still to drop. *)
Fixpoint removeFences (fence : string) (skip : nat) (s : string) : string :=
  match s with
  | EmptyString => EmptyString
  | String c rest =>
      match skip with
      | S k => removeFences fence k rest
      | O =>
          if prefixb fence s then
            removeFences fence
              (String.length fence - 1
               + (if prefixb nl (drop (String.length fence) s) then 1 else 0))
              rest
          else String c (removeFences fence 0 rest)
      end
  end.

Definition fence : string := "```".
Definition jsonFence : string := "```json".

(** The two replacements of [generateSnippetWithAI], and the text it gives
    to [JSON.parse], from [String.prototype.trim]. *)
Definition stripFences (s : string) : string :=
  removeFences fence 0 (removeFences jsonFence 0 s).

Definition cleanText (trim : string -> string) (text : string) : string :=
  stripFences (trim text).

(** *** The run of the generator *)

(** The two defaults of [main.js] the overlay render does not read. *)
Module DEFAULTS.
Definition videoDuration : number := ofZ 10.
Definition bRollPath : string := "./bRoll.mov".
End DEFAULTS.

(** The request sent to the model. *)
Definition PROMPT : string :=
  "You are helping me produce viral Instagram Reels for the brand @frontendfuture.

🎯 GOAL
Generate 1 mini coding reel idea where:
- shows a short JavaScript snippet
- asks " ++ dq ++ "What is the output?" ++ dq ++ "
- creates curiosity and comments
- DO NOT reveal the correct answer anywhere

🧩 CODE SNIPPET REQUIREMENTS
- Write a 3–5 line JavaScript snippet
- Must include at least one console.log(...)
- Must be curiosity-driven
- Prefer interesting quirks:
  * arrays
  * objects
  * numbers
  * type coercion
  * loops or conditions
  * Math quirks
  * conversions

📦 OUTPUT FORMAT
Respond with ONLY valid JSON in this exact format (no markdown, no backticks):
{
  " ++ dq ++ "difficulty" ++ dq ++ ": " ++ dq ++ "EASY" ++ dq ++ " | " ++ dq ++ "MEDIUM" ++ dq ++ " | " ++ dq ++ "HARD" ++ dq ++ ",
  " ++ dq ++ "code" ++ dq ++ ": " ++ dq ++ "the JavaScript code snippet" ++ dq ++ ",
  " ++ dq ++ "caption" ++ dq ++ ": " ++ dq ++ "What is the output? Drop your guess below.\n\nWant free remote income coding training? Comment FREE TRAINING below. You must be following @frontendfuture or we cannot send it." ++ dq ++ "
}

IMPORTANT:
- Return ONLY the JSON object
- No markdown code blocks
- No explanations
- No revealing the answer
- Code should be clean and properly formatted".

(** The answer of the model as [main] reads it: the properties [code],
    [difficulty] and [caption], as the texts a template shows for them.
    An answer that is read to a value without properties fails where
    [main] first reads one, with no event in between; for the events this
    is a failure of [JSON.parse].  A code that is no text is outside the
    model. *)
Record Snippet : Type := {
  code : string;
  difficulty : string;
  caption : string
}.

(** The two jobs given to ffmpeg. *)
Inductive job : Type :=
| ExtractSegment (inputVideo outputVideo : string) (startTime duration : number)
| OverlayImage (backgroundVideo overlayImage outputVideo : string) (duration : number).

(** What a job reports to its listeners: the command line of its [start]
    event if it starts, the [percent] of each [progress] event if it has
    one, and the message of its [error] event; without one it ends. *)
Record Transcode : Type := {
  commandLine : option string;
  percents : list (option number);
  failure : option string
}.

(** What a run of the generator does, in the order it does it: the calls of
    the renderer, and [fs.access], [generateText], [ffmpeg.ffprobe], the
    start of a job and [fs.writeFile]. *)
Inductive event : Type :=
| Call (c : call)
| Access (path : string)
| GenerateText (prompt : string)
| Ffprobe (path : string)
| Ffmpeg (j : job)
| WriteFile (path content : string).

(** The collaborators of the generator: those of the render, the clock,
    [path.join], whether [OPENAI_API_KEY] is set, the text of the answer,
    [String.prototype.trim] and [JSON.parse] with the properties of what
    it returns, the duration [ffprobe] finds, the draw of [Math.random],
    [toFixed(2)] of a finite number, and what a job reports.  [refuses e]
    is the message of the error that [e] fails with, when it fails. *)
Record Studio : Type := {
  browser : World;
  now : Clock;
  join : string -> string -> string;
  hasApiKey : bool;
  answer : string;
  trim : string -> string;
  parseJson : string -> result Snippet;
  probedDuration : string -> number;
  random : Q;
  fixed2 : Q -> string;
  transcode : job -> Transcode;
  refuses : event -> option string
}.

(** A computation returns or throws, and has done a list of events. *)
Definition R (A : Type) : Type := (result A * list event)%type.

Definition done {A : Type} (a : A) : R A := (Returns a, []).

Definition fail {A : Type} (message : string) : R A := (Throws message, []).

Definition next {A B : Type} (m : R A) (k : A -> R B) : R B :=
  match m with
  | (Returns a, l) => match k a with (r, l') => (r, (l ++ l')%list) end
  | (Throws e, l) => (Throws e, l)
  end.

(** [try { body } finally { cleanup }] and [try { body } catch (err) {
    handler }]. *)
Definition finally {A : Type} (body : R A) (cleanup : R unit) : R A :=
  match body, cleanup with
  | (r, l), (Returns _, l') => (r, (l ++ l')%list)
  | (_, l), (Throws e, l') => (Throws e, (l ++ l')%list)
  end.

Definition rescue {A : Type} (body : R A) (handler : string -> R A) : R A :=
  match body with
  | (Returns a, l) => (Returns a, l)
  | (Throws e, l) => match handler e with (r, l') => (r, (l ++ l')%list) end
  end.

(** What the listeners of a job write is recorded: a listener that throws
    does not reject the promise of the job, and is outside the model. *)
Definition note (l : list event) : R unit := (Returns tt, l).

(** The calls of the renderer among the events. *)
Definition lift {A : Type} (m : M A) : R A :=
  match m [] with (r, calls) => (r, map Call calls) end.

Declare Scope reel_scope.
Delimit Scope reel_scope with reel.

Notation "x <- m ;; k" := (next m (fun x => k))
  (at level 100, m at next level, right associativity) : reel_scope.
Notation "m ;; k" := (next m (fun _ => k))
  (at level 100, right associativity) : reel_scope.

(** [Math.round], and whether a number is truthy. *)
Definition round (n : number) : number :=
  match n with
  | Finite q => Finite (inject_Z (Qfloor (q + (1 # 2))))
  | _ => n
  end.

Definition truthyNumber (n : number) : bool :=
  match n with
  | Finite q => negb (Qeq_bool q 0)
  | NaN => false
  | _ => true
  end.

Definition cr : string := String (ascii_of_nat 13) EmptyString.

Section WithStudio.

Variable s : Studio.

Local Open Scope reel_scope.

(** One event: it is recorded, and throws when it is refused. *)
Definition refusal (e : event) : option string :=
  match e with
  | Call c => rejects (browser s) c
  | _ => refuses s e
  end.

Definition step (e : event) : R unit :=
  match refusal e with
  | Some message => (Throws message, [e])
  | None => (Returns tt, [e])
  end.

(** [console.log(text)], and [n.toFixed(2)]. *)
Definition log (text : string) : R unit := step (Call (StdoutWrite (text ++ nl))).

Definition toFixed2 (n : number) : string :=
  match n with
  | Finite q => fixed2 s q
  | NaN => "NaN"
  | PosInfinity => "Infinity"
  | NegInfinity => "-Infinity"
  end.

Definition generateSnippetWithAI (index : nat) : R Snippet :=
  if hasApiKey s then
    log ("Generating snippet " ++ showNat (index + 1) ++ "...") ;;
    step (GenerateText PROMPT) ;;
    match parseJson s (cleanText (trim s) (answer s)) with
    | Returns snippet => done snippet
    | Throws e => fail e
    end
  else fail "Missing OPENAI_API_KEY".

Definition getVideoDuration (videoPath : string) : R number :=
  step (Ffprobe videoPath) ;; done (probedDuration s videoPath).

(** The listeners of a job: [start], [progress], and [end] or [error]. *)
Definition onStart (commandLine : option string) : list event :=
  match commandLine with
  | Some c => [Call (StdoutWrite ("FFmpeg command: " ++ c ++ nl))]
  | None => []
  end.

Definition onProgress (percent : option number) : list event :=
  match percent with
  | Some p =>
      if truthyNumber p
      then [Call (StdoutWrite
                    (cr ++ "Progress: " ++ showNumber (browser s) (round p) ++ "%"))]
      else []
  | None => []
  end.

Definition runJob (j : job) (ended failed : string) : R unit :=
  let report := transcode s j in
  note [Ffmpeg j] ;;
  note (onStart (commandLine report)) ;;
  note (flat_map onProgress (percents report)) ;;
  match failure report with
  | None => note [Call (StdoutWrite (ended ++ nl))]
  | Some message =>
      note [Call (StderrWrite (nl ++ "FFmpeg error: " ++ message ++ nl))] ;;
      fail failed
  end.

Definition extractRandomVideoSegment
  (inputVideo outputVideo : string) (duration : number) : R unit :=
  log (nl ++ "Extracting random segment from b-roll video...") ;;
  totalDuration <- getVideoDuration inputVideo ;;
  let startTime := segmentStart totalDuration duration (Finite (random s)) in
  log ("B-roll duration: " ++ toFixed2 totalDuration ++ "s") ;;
  log ("Extracting " ++ showNumber (browser s) duration ++ "s from "
       ++ toFixed2 startTime ++ "s") ;;
  runJob (ExtractSegment inputVideo outputVideo startTime duration)
         (nl ++ "✓ Video segment extracted: " ++ outputVideo)
         "Failed to extract video segment.".

Definition overlayCodeOnVideo
  (backgroundVideo overlayImage outputVideo : string) (duration : number) : R unit :=
  log (nl ++ "Overlaying code snippet on background video...") ;;
  runJob (OverlayImage backgroundVideo overlayImage outputVideo duration)
         (nl ++ "✓ Final video created: " ++ outputVideo)
         "Failed to overlay code on video.".

(** The folder of a run and the four files in it. *)
Definition outputDir : string := "./" ++ getTimestampedFolder (now s).
Definition imagePath : string := join s outputDir "snippet.png".
Definition bRollSegmentPath : string := join s outputDir "broll_segment.mp4".
Definition videoPath : string := join s outputDir "reel.mp4".
Definition captionPath : string := join s outputDir "caption.txt".

Definition captionContent (snippet : Snippet) : string :=
  "==================== REEL ====================" ++ nl
  ++ "DIFFICULTY: " ++ difficulty snippet ++ nl ++ nl
  ++ "CODE:" ++ nl ++ code snippet ++ nl ++ nl
  ++ "CAPTION:" ++ nl ++ caption snippet ++ nl.

(** The block of [main] under [try]. *)
Definition produce : R unit :=
  let duration := DEFAULTS.videoDuration in
  snippet <- generateSnippetWithAI 0 ;;
  lift (Main.renderSnippet (browser s) (code snippet) (difficulty snippet) imagePath) ;;
  extractRandomVideoSegment DEFAULTS.bRollPath bRollSegmentPath duration ;;
  overlayCodeOnVideo bRollSegmentPath imagePath videoPath duration ;;
  step (WriteFile captionPath (captionContent snippet)) ;;
  log ("✓ Caption saved: " ++ captionPath) ;;
  log (nl ++ repeatChar "=" 60) ;;
  log "✨ ALL DONE!" ;;
  log (repeatChar "=" 60) ;;
  log ("📁 Folder: " ++ outputDir) ;;
  log ("🎥 Video: " ++ videoPath) ;;
  log ("📝 Caption: " ++ captionPath) ;;
  log ("🖼️  Image: " ++ imagePath) ;;
  log ("🎬 B-roll segment: " ++ bRollSegmentPath).

Definition main : R unit :=
  step (Call (Mkdir outputDir)) ;;
  log (nl ++ "📁 Output directory: " ++ outputDir ++ nl) ;;
  let duration := DEFAULTS.videoDuration in
  rescue (step (Access DEFAULTS.bRollPath))
         (fun _ => fail ("B-roll video not found at: " ++ DEFAULTS.bRollPath)) ;;
  log ("Generating 1 code snippet for a " ++ showNumber (browser s) duration
       ++ "s video..." ++ nl) ;;
  step (Call Launch) ;;
  finally produce (step (Call BrowserClose)).

(** [main().catch(...)]: the error is reported and the process exits with
    status 1. *)
Definition run : list event * Z :=
  match main with
  | (Returns _, l) => (l, 0%Z)
  | (Throws e, l) =>
      ((l ++ [Call (StderrWrite ("Error: " ++ e ++ nl)); Call (Exit 1)])%list, 1%Z)
  end.

End WithStudio.

(** *** The stages of a run *)

(** The two jobs a run gives to ffmpeg, the render of the answer, and what
    [main] does once the video is made; [produce] is these in a row. *)
Module Stages.

Section WithStudio.

Variable s : Studio.

Local Open Scope reel_scope.

Definition extractJob : job :=
  ExtractSegment DEFAULTS.bRollPath (bRollSegmentPath s)
    (segmentStart (probedDuration s DEFAULTS.bRollPath)
       DEFAULTS.videoDuration (Finite (random s)))
    DEFAULTS.videoDuration.

Definition overlayJob : job :=
  OverlayImage (bRollSegmentPath s) (imagePath s) (videoPath s)
    DEFAULTS.videoDuration.

Definition render (snippet : Snippet) : R unit :=
  lift (Main.renderSnippet (browser s) (code snippet) (difficulty snippet)
          (imagePath s)).

Definition extract : R unit :=
  extractRandomVideoSegment s DEFAULTS.bRollPath (bRollSegmentPath s)
    DEFAULTS.videoDuration.

Definition overlay : R unit :=
  overlayCodeOnVideo s (bRollSegmentPath s) (imagePath s)
    (videoPath s) DEFAULTS.videoDuration.

(** The lines [main] logs after the caption is saved. *)
Definition summary : list string := [
  "✓ Caption saved: " ++ captionPath s;
  nl ++ repeatChar "=" 60;
  "✨ ALL DONE!";
  repeatChar "=" 60;
  "📁 Folder: " ++ outputDir s;
  "🎥 Video: " ++ videoPath s;
  "📝 Caption: " ++ captionPath s;
  "🖼️  Image: " ++ imagePath s;
  "🎬 B-roll segment: " ++ bRollSegmentPath s
].

Definition save (snippet : Snippet) : R unit :=
  step s (WriteFile (captionPath s) (captionContent snippet)) ;;
  log s ("✓ Caption saved: " ++ captionPath s) ;;
  log s (nl ++ repeatChar "=" 60) ;;
  log s "✨ ALL DONE!" ;;
  log s (repeatChar "=" 60) ;;
  log s ("📁 Folder: " ++ outputDir s) ;;
  log s ("🎥 Video: " ++ videoPath s) ;;
  log s ("📝 Caption: " ++ captionPath s) ;;
  log s ("🖼️  Image: " ++ imagePath s) ;;
  log s ("🎬 B-roll segment: " ++ bRollSegmentPath s).

(** What a run does before it launches the browser. *)
Definition startup : R unit :=
  step s (Call (Mkdir (outputDir s))) ;;
  log s (nl ++ "📁 Output directory: " ++ outputDir s ++ nl) ;;
  rescue (step s (Access DEFAULTS.bRollPath))
    (fun _ => fail ("B-roll video not found at: " ++ DEFAULTS.bRollPath)) ;;
  log s ("Generating 1 code snippet for a "
         ++ showNumber (browser s) DEFAULTS.videoDuration ++ "s video..." ++ nl).

(** The events that give ffmpeg no job and write no file. *)
Definition quiet (e : event) : Prop :=
  match e with
  | Ffmpeg _ | WriteFile _ _ => False
  | _ => True
  end.

(** What the listeners of a job write while it runs, and the line each
    of the two jobs logs when it ends. *)
Definition listened (j : job) : list event :=
  (onStart (commandLine (transcode s j))
   ++ flat_map (onProgress s) (percents (transcode s j)))%list.

Definition extractEnded : string :=
  nl ++ "✓ Video segment extracted: " ++ bRollSegmentPath s.

Definition overlayEnded : string :=
  nl ++ "✓ Final video created: " ++ videoPath s.

End WithStudio.

End Stages.

End Reel.

(** ** Sample inputs of the command line and of the generator *)

Module Sample.

(** The document of the standalone run on no option. *)
Definition document : string :=
  RenderSnippet.buildHtml Demo.world
    (highlighted Demo.world "console.log(1+1)" "javascript" "nord")
    (ofZ 960) (ofZ 64) (OStr RenderSnippet.DEFAULTS.background)
    (OStr RenderSnippet.DEFAULTS.font) (OStr "snippet") "nord" (ofZ 16).

(** A command line with flags, a file and the help flag, and one with a
    flag named [_]. *)
Definition argv : list string := ["--lang"; "js"; "file.js"; "--help"; "--title"].

Definition shadowing : list string := ["--_"; "x"; "y"].

(** Fifteen lines of code. *)
Definition fifteenLines : string := String.concat nl (repeat "x" 15).

Definition pairs : list (string * string) :=
  [("lang", "ts"); ("theme", "nord"); ("lang", "js")].

(** The seventh of January 2025, five past nine and 59 seconds, and the
    second after. *)
Definition clock : Reel.Clock := {|
  Reel.fullYear := 2025;
  Reel.month := 0;
  Reel.date := 7;
  Reel.hours := 9;
  Reel.minutes := 5;
  Reel.seconds := 59
|}.

Definition later : Reel.Clock := {|
  Reel.fullYear := 2025;
  Reel.month := 0;
  Reel.date := 7;
  Reel.hours := 9;
  Reel.minutes := 6;
  Reel.seconds := 0
|}.

(** An answer of the model in a fence, and what [JSON.parse] reads in it. *)
Definition snippet : Reel.Snippet := {|
  Reel.code := "console.log(0.1 + 0.2 === 0.3);";
  Reel.difficulty := "easy";
  Reel.caption := "What is the output?"
|}.

Definition json : string :=
  "{" ++ dq ++ "code" ++ dq ++ ": " ++ dq ++ "console.log(0.1 + 0.2 === 0.3);" ++ dq
  ++ ", " ++ dq ++ "difficulty" ++ dq ++ ": " ++ dq ++ "easy" ++ dq
  ++ ", " ++ dq ++ "caption" ++ dq ++ ": " ++ dq ++ "What is the output?" ++ dq ++ "}".

Definition answer : string := Reel.jsonFence ++ nl ++ json ++ nl ++ Reel.fence.

Definition parseJson (text : string) : result Reel.Snippet :=
  if String.eqb text (json ++ nl) then Returns snippet
  else Throws "Unexpected end of JSON input".

(** [path.join] of a folder that begins with [./] and a file name, and
    [toFixed(2)]. *)
Definition join (dir file : string) : string :=
  (if prefixb "./" dir then Reel.drop 2 dir else dir) ++ "/" ++ file.

Definition fixed2 (q : Q) : string :=
  let n := Qfloor ((if Qle_bool 0 q then q else - q) * 100 + (1 # 2)) in
  (if Qle_bool 0 q then EmptyString else "-")
  ++ Reel.showZ (n / 100) ++ "." ++ Reel.twoDigits (Z.to_nat (n mod 100)).

(** A job that starts, reports its progress three times and ends, and one
    that fails. *)
Definition ending : Reel.Transcode := {|
  Reel.commandLine := Some "ffmpeg -ss 10 -i ./bRoll.mov -t 10";
  Reel.percents := [Some (Finite 49.5); None; Some (Finite 0)];
  Reel.failure := None
|}.

Definition failing : Reel.Transcode := {|
  Reel.commandLine := Some "ffmpeg -i broll_segment.mp4 -i snippet.png";
  Reel.percents := [];
  Reel.failure := Some "ffmpeg exited with code 1: Conversion failed!"
|}.

Definition make
  (key : bool) (jobs : Reel.job -> Reel.Transcode)
  (refused : Reel.event -> option string) : Reel.Studio := {|
  Reel.browser := Demo.world;
  Reel.now := clock;
  Reel.join := join;
  Reel.hasApiKey := key;
  Reel.answer := answer;
  Reel.trim := fun text => text;
  Reel.parseJson := parseJson;
  Reel.probedDuration := fun _ => Finite 30;
  Reel.random := 1 # 2;
  Reel.fixed2 := fixed2;
  Reel.transcode := jobs;
  Reel.refuses := refused
|}.

(** Everything succeeds; the key is missing; the background video is
    missing; the second job fails. *)
Definition studio : Reel.Studio := make true (fun _ => ending) (fun _ => None).

Definition noKey : Reel.Studio := make false (fun _ => ending) (fun _ => None).

Definition noVideo : Reel.Studio :=
  make true (fun _ => ending)
       (fun e =>
          match e with
          | Reel.Access _ => Some "ENOENT: no such file or directory, access './bRoll.mov'"
          | _ => None
          end).

Definition brokenOverlay : Reel.Studio :=
  make true
       (fun j =>
          match j with
          | Reel.OverlayImage _ _ _ _ => failing
          | _ => ending
          end)
       (fun _ => None).

End Sample.
(** ** Strings *)

Section StringFacts.

Local Open Scope nat_scope.

Lemma append_assoc (a b c : string) : (a ++ b) ++ c = a ++ (b ++ c).
Proof. induction a as [|x a IH]; simpl; [reflexivity | now rewrite IH]. Qed.

Lemma append_nil_r (a : string) : a ++ EmptyString = a.
Proof. induction a as [|x a IH]; simpl; [reflexivity | now rewrite IH]. Qed.

Lemma replaceAll_app (pat : ascii) (rep a b : string) :
  replaceAll pat rep (a ++ b) = replaceAll pat rep a ++ replaceAll pat rep b.
Proof.
  induction a as [|x a IH]; simpl; [reflexivity|].
  destruct (Ascii.eqb x pat); simpl; rewrite IH; [|reflexivity].
  now rewrite append_assoc.
Qed.

Lemma count_app (c : ascii) (a b : string) :
  count c (a ++ b) = count c a + count c b.
Proof. induction a as [|x a IH]; simpl; [reflexivity | rewrite IH; lia]. Qed.

Lemma prefixb_spec (x s : string) :
  prefixb x s = true <-> exists post, s = x ++ post.
Proof.
  revert s; induction x as [|a x IH]; intros s; simpl.
  - split; [intros _; now exists s | reflexivity].
  - destruct s as [|b s].
    + split; [discriminate | intros [post H]; discriminate].
    + rewrite andb_true_iff, IH. split.
      * intros [Hab [post ->]]. apply Ascii.eqb_eq in Hab. subst b.
        now exists post.
      * intros [post H]. injection H as -> ->. split.
        -- apply Ascii.eqb_refl.
        -- now exists post.
Qed.

Lemma occursb_spec (x s : string) : occursb x s = true <-> occurs x s.
Proof.
  unfold occurs. induction s as [|b s IH].
  - simpl. rewrite orb_false_r, prefixb_spec. split.
    + intros [post H]. now exists EmptyString, post.
    + intros [pre [post H]]. destruct pre; [now exists post | discriminate].
  - cbn [occursb]. rewrite orb_true_iff, prefixb_spec, IH. split.
    + intros [[post H] | [pre [post H]]].
      * now exists EmptyString, post.
      * exists (String b pre), post. simpl. now rewrite H.
    + intros [pre [post H]]. destruct pre as [|c pre].
      * left. now exists post.
      * right. simpl in H. injection H as _ H. now exists pre, post.
Qed.

(** Splitting at a character yields one piece more than the text has
    occurrences of it. *)
Lemma split_length (sep : ascii) (s : string) :
  List.length (split sep s) = count sep s + 1.
Proof.
  induction s as [|c s IH]; simpl; [reflexivity|].
  destruct (Ascii.eqb c sep); simpl; [now rewrite IH|].
  destruct (split sep s) as [|piece rest]; simpl in *; lia.
Qed.

End StringFacts.

(** ** Escaping *)

Section Escaping.

Local Open Scope nat_scope.

(** The five replacements, as a function of the text. *)
Let chain (s : string) : string := RenderSnippet.escapeHtml (OStr s).

Lemma chain_app (a b : string) : chain (a ++ b) = chain a ++ chain b.
Proof.
  unfold chain, RenderSnippet.escapeHtml; simpl.
  now rewrite !replaceAll_app.
Qed.

Lemma chain_char (c : ascii) : chain (String c EmptyString) = Spec.entity c.
Proof.
  destruct c as [[] [] [] [] [] [] [] []]; reflexivity.
Qed.

(** The chained replacements escape each character on its own: the entity
    of one character is never rewritten by a later replacement. *)
Lemma escapeHtml_escaped (value : optval) :
  RenderSnippet.escapeHtml value = Spec.escaped (toStr value).
Proof.
  change (RenderSnippet.escapeHtml value) with (chain (toStr value)).
  generalize (toStr value) as s.
  induction s as [|c s IH]; [reflexivity|].
  change (String c s) with (String c EmptyString ++ s).
  rewrite chain_app, chain_char, IH. reflexivity.
Qed.

Lemma entity_raw (c : ascii) :
  count "<" (Spec.entity c) = 0 /\ count ">" (Spec.entity c) = 0
  /\ count dquote (Spec.entity c) = 0 /\ count "'" (Spec.entity c) = 0
  /\ count "&" (Spec.entity c) = (if Spec.special c then 1 else 0).
Proof.
  destruct c as [[] [] [] [] [] [] [] []]; repeat split; reflexivity.
Qed.

(** [X1] No [<], [>], double or single quote is left in an escaped text,
    and it has one [&] for each special character of the text, the one
    that starts its entity. *)
Lemma escapeHtml_no_raw (value : optval) :
  let e := RenderSnippet.escapeHtml value in
  count "<" e = 0 /\ count ">" e = 0 /\ count dquote e = 0
  /\ count "'" e = 0 /\ count "&" e = Spec.specials (toStr value).
Proof.
  cbv zeta. rewrite escapeHtml_escaped.
  generalize (toStr value) as s.
  induction s as [|c s IH]; [repeat split; reflexivity|].
  destruct IH as (H1 & H2 & H3 & H4 & H5).
  destruct (entity_raw c) as (E1 & E2 & E3 & E4 & E5).
  cbn [Spec.escaped Spec.specials]. rewrite !count_app.
  rewrite H1, H2, H3, H4, H5, E1, E2, E3, E4, E5. repeat split; reflexivity.
Qed.

End Escaping.

(** ** The composed documents *)

Section Documents.

Variable w : World.

(** The standalone document: the title and the theme name go in escaped,
    the markup of the highlighter goes in as it is. *)
Lemma buildHtml_standalone_shape
  (width padding : number) (background font : optval) (fontSize : number) :
  exists before,
    forall (codeHtml : string) (title : optval) (themeName : string),
      RenderSnippet.buildHtml w codeHtml width padding background font title
                              themeName fontSize
      = before ++ Spec.escaped (toStr title)
        ++ RenderSnippet.doc_theme_label ++ Spec.escaped themeName
        ++ RenderSnippet.doc_code_region ++ codeHtml
        ++ RenderSnippet.doc_tail.
Proof.
  exists (RenderSnippet.doc_head ++ toStr font
          ++ RenderSnippet.doc_canvas_padding ++ showNumber w padding
          ++ RenderSnippet.doc_canvas_background ++ toStr background
          ++ RenderSnippet.doc_frame_width ++ showNumber w width
          ++ RenderSnippet.doc_code_font_size ++ showNumber w fontSize
          ++ RenderSnippet.doc_body_title).
  intros codeHtml title themeName.
  unfold RenderSnippet.buildHtml.
  rewrite !escapeHtml_escaped, !append_assoc. reflexivity.
Qed.

(** The video-overlay document: the difficulty goes in as it is. *)
Lemma buildHtml_overlay_shape
  (width height padding : number) (background font : string) (fontSize : number) :
  exists before,
    forall (codeHtml difficulty : string),
      Main.buildHtml w codeHtml width height padding background font fontSize
                     difficulty
      = before ++ Main.doc_level ++ difficulty ++ Main.doc_code_region
        ++ codeHtml ++ Main.doc_tail.
Proof.
  exists (Main.doc_head ++ showNumber w width
          ++ Main.doc_body_height ++ showNumber w height
          ++ Main.doc_body_font ++ font
          ++ Main.doc_body_padding ++ showNumber w padding
          ++ Main.doc_frame_width
          ++ showNumber w (sub width (mul padding (ofZ 2)))
          ++ Main.doc_code_font_size ++ showNumber w fontSize).
  intros codeHtml difficulty.
  unfold Main.buildHtml. rewrite !append_assoc. reflexivity.
Qed.

(** The text around the difficulty: it follows the label and is followed
    by the end of the label's element. *)
Lemma doc_level_label :
  exists pre, Main.doc_level = pre ++ "Level: ".
Proof.
  exists (substring 0 (String.length Main.doc_level - 7) Main.doc_level).
  vm_compute. reflexivity.
Qed.

Lemma doc_code_region_close :
  exists post, Main.doc_code_region = "</div>" ++ post.
Proof. apply prefixb_spec. vm_compute. reflexivity. Qed.

Lemma overlay_difficulty_occurs
  (codeHtml : string) (width height padding : number) (background font : string)
  (fontSize : number) (difficulty : string) :
  occurs ("Level: " ++ difficulty ++ "</div>")
         (Main.buildHtml w codeHtml width height padding background font
                         fontSize difficulty).
Proof.
  destruct (buildHtml_overlay_shape width height padding background font fontSize)
    as [before H].
  destruct doc_level_label as [pre Hpre].
  destruct doc_code_region_close as [post Hpost].
  rewrite H, Hpre, Hpost.
  exists (before ++ pre), (post ++ codeHtml ++ Main.doc_tail).
  rewrite !append_assoc. reflexivity.
Qed.

End Documents.

(** [C1] The claim holds for the standalone document and fails for the
    video-overlay one: its template interpolates the difficulty with no
    escaping.  For the difficulty [<b>&] the document has the raw text
    after the label, where the escaped text would be [&lt;b&gt;&amp;]; in
    the sample world no escaped form of it occurs in the document at all.
    The markup of the highlighter is embedded as it is. *)
Theorem overlay_difficulty_not_escaped :
  (forall (w : World) (codeHtml : string),
      occurs ("Level: <b>&</div>")
             (Main.buildHtml w codeHtml Main.DEFAULTS.width Main.DEFAULTS.height
                             Main.DEFAULTS.padding Main.DEFAULTS.background
                             Main.DEFAULTS.font Main.DEFAULTS.fontSize "<b>&"))
  /\ RenderSnippet.escapeHtml (OStr "<b>&") = "&lt;b&gt;&amp;"
  /\ ~ occurs "&lt;b&gt;&amp;"
         (Main.buildHtml Demo.world
            (highlighted Demo.world "console.log(1+1)" "javascript" "nord")
            Main.DEFAULTS.width Main.DEFAULTS.height Main.DEFAULTS.padding
            Main.DEFAULTS.background Main.DEFAULTS.font Main.DEFAULTS.fontSize
            "<b>&").
Proof.
  split; [|split].
  - intros w codeHtml.
    apply (overlay_difficulty_occurs w codeHtml _ _ _ _ _ _ "<b>&").
  - reflexivity.
  - intros H. apply occursb_spec in H. vm_compute in H. discriminate.
Qed.

(** ** Numbers and the height estimate *)

Section Estimate.

Local Open Scope Q_scope.


Lemma lt_ceil (a b : Q) : a + 1 <= b -> lt (ceil (Finite a)) (ceil (Finite b)).
Proof.
  intros H. simpl.
  pose proof (Qceiling_lt a) as Ha. pose proof (Qle_ceiling b) as Hb.
  replace (Qceiling a - 1)%Z with (Qceiling a + (-1))%Z in Ha by lia.
  rewrite inject_Z_plus in Ha. change (inject_Z (-1)) with (-1 # 1) in Ha. lra.
Qed.



Lemma ofNat_succ (n : nat) :
  inject_Z (Z.of_nat (n + 1)) == inject_Z (Z.of_nat n) + 1.
Proof.
  rewrite Nat2Z.inj_add, inject_Z_plus. reflexivity.
Qed.



End Estimate.

(** ** Double-precision rounding *)

Section DoubleFacts.

Local Open Scope Q_scope.

Lemma pow2_pos (e : Z) : 0 < Double.pow2 e.
Proof. apply Qpower_0_lt. reflexivity. Qed.

Lemma pow2_plus (a b : Z) : Double.pow2 (a + b) == Double.pow2 a * Double.pow2 b.
Proof. apply Qpower_plus. discriminate. Qed.

Lemma pow2_le (a b : Z) : (a <= b)%Z -> Double.pow2 a <= Double.pow2 b.
Proof. intros H. apply Qpower_le_compat_l; [exact H | discriminate]. Qed.

Lemma pow2_inject (n : Z) : (0 <= n)%Z -> Double.pow2 n == inject_Z (2 ^ n).
Proof. intros H. unfold Double.pow2. now rewrite Zpower_Qpower. Qed.

(** The exponent of a positive rational is not above it. *)
Lemma exponent_le (q : Q) : 0 < q -> Double.pow2 (Double.exponent q) <= q.
Proof.
  intros Hq. unfold Double.exponent.
  destruct (Qle_bool _ q) eqn:E; [now apply Qle_bool_iff|].
  destruct q as [n d]. cbn [Qnum Qden] in *.
  assert (Hn : (0 < n)%Z).
  { unfold Qlt in Hq. cbn in Hq. lia. }
  pose proof (Z.log2_spec n Hn) as [Hn1 _].
  pose proof (Z.log2_spec (Z.pos d) (Pos2Z.is_pos d)) as [_ Hd2].
  pose proof (Z.log2_nonneg n) as Hln.
  pose proof (Z.log2_nonneg (Z.pos d)) as Hld.
  replace (Z.log2 n - Z.log2 (Z.pos d) - 1)%Z
    with (Z.log2 n - Z.succ (Z.log2 (Z.pos d)))%Z by lia.
  unfold Double.pow2. rewrite Qpower_minus by discriminate.
  change (2 ^ Z.log2 n / 2 ^ Z.succ (Z.log2 (Z.pos d)))
    with (Double.pow2 (Z.log2 n) / Double.pow2 (Z.succ (Z.log2 (Z.pos d)))).
  rewrite !pow2_inject by lia.
  apply Qle_shift_div_r.
  - change 0 with (inject_Z 0). rewrite <- Zlt_Qlt. lia.
  - unfold Qle, Qmult, inject_Z. cbn [Qnum Qden].
    rewrite !Z.mul_1_r. rewrite Pos.mul_1_r.
    apply Z.mul_le_mono_nonneg; lia.
Qed.

(** The nearest whole number is within a half. *)
Lemma nearestEven_near (q : Q) :
  q - (1 # 2) <= inject_Z (Double.nearestEven q) <= q + (1 # 2).
Proof.
  unfold Double.nearestEven.
  pose proof (Qfloor_le q) as Hl. pose proof (Qlt_floor q) as Hu.
  rewrite inject_Z_plus in Hu. change (inject_Z 1) with 1 in Hu.
  destruct (Qcompare_spec (q - inject_Z (Qfloor q)) (1 # 2)) as [E|E|E].
  - destruct (Z.even (Qfloor q)); rewrite ?inject_Z_plus;
      change (inject_Z 1) with 1; lra.
  - lra.
  - rewrite inject_Z_plus. change (inject_Z 1) with 1. lra.
Qed.

Lemma nearestEven_nonneg (q : Q) : 0 <= q -> (0 <= Double.nearestEven q)%Z.
Proof.
  intros H. unfold Double.nearestEven.
  assert (H0 : (0 <= Qfloor q)%Z).
  { change 0%Z with (Qfloor 0). now apply Qfloor_resp_le. }
  destruct (_ ?= _); [destruct (Z.even _)| |]; lia.
Qed.

Lemma ulp_pos (q : Q) : 0 < Double.ulp q.
Proof. apply pow2_pos. Qed.

(** The unit in the last place of a positive rational is at most [2^-52]
    of it, or the least unit. *)
Lemma ulp_le (q : Q) :
  0 < q -> Double.ulp q <= q * (1 # 2 ^ 52) + (1 # 2 ^ 1074).
Proof.
  intros Hq. unfold Double.ulp.
  assert (H52 : Double.pow2 (-52) == 1 # 2 ^ 52) by reflexivity.
  assert (H1074 : Double.pow2 (-1074) == 1 # 2 ^ 1074) by reflexivity.
  pose proof (exponent_le q Hq) as He.
  assert (Ha : 0 <= 1 # 2 ^ 52) by discriminate.
  assert (Hb : 0 <= 1 # 2 ^ 1074) by discriminate.
  set (a := 1 # 2 ^ 52) in *. set (b := 1 # 2 ^ 1074) in *.
  assert (Hqa : 0 <= q * a) by (apply Qmult_le_0_compat; lra).
  destruct (Z.max_spec (Double.exponent q - 52) (-1074)) as [[_ ->]|[_ ->]].
  - rewrite H1074. lra.
  - replace (Double.exponent q - 52)%Z with (Double.exponent q + -52)%Z by lia.
    rewrite pow2_plus, H52.
    assert (Double.pow2 (Double.exponent q) * a <= q * a)
      by (apply Qmult_le_compat_r; assumption).
    lra.
Qed.

(** The nearest double of a positive rational is within half a unit. *)
Lemma nearest_near (q : Q) :
  0 < q ->
  0 <= Double.nearest q
  /\ q - Double.ulp q * (1 # 2) <= Double.nearest q <= q + Double.ulp q * (1 # 2).
Proof.
  intros Hq. unfold Double.nearest. rewrite Qred_correct.
  pose proof (ulp_pos q) as Hu.
  pose proof (nearestEven_near (q / Double.ulp q)) as [H1 H2].
  assert (Hn : 0 <= inject_Z (Double.nearestEven (q / Double.ulp q))).
  { change 0 with (inject_Z 0). rewrite <- Zle_Qle. apply nearestEven_nonneg.
    apply Qle_shift_div_l; [exact Hu|]. lra. }
  assert (Hq' : q == q / Double.ulp q * Double.ulp q).
  { field. intros F. rewrite F in Hu. discriminate Hu. }
  split; [apply Qmult_le_0_compat; lra|].
  set (n := inject_Z (Double.nearestEven (q / Double.ulp q))) in *.
  set (u := Double.ulp q) in *. set (x := q / u) in *.
  assert (A : (x - (1 # 2)) * u <= n * u) by (apply Qmult_le_compat_r; lra).
  assert (B : n * u <= (x + (1 # 2)) * u) by (apply Qmult_le_compat_r; lra).
  split; lra.
Qed.

End DoubleFacts.

Section DoubleNear.

Local Open Scope Q_scope.

Lemma nearest_bound (q : Q) :
  0 < q ->
  0 <= Double.nearest q
  /\ q - (q * (1 # 9007199254740992) + (1 # 1152921504606846976)) <= Double.nearest q
  /\ Double.nearest q <= q + (q * (1 # 9007199254740992) + (1 # 1152921504606846976)).
Proof.
  intros E.
  destruct (nearest_near q E) as (Hn & Hl & Hu).
  pose proof (ulp_le q E) as Hulp.
  assert (A : (1 # 2 ^ 52) * (1 # 2) == 1 # 9007199254740992) by reflexivity.
  assert (B : (1 # 2 ^ 1074) * (1 # 2) <= 1 # 1152921504606846976)
    by (apply Qle_bool_iff; vm_compute; reflexivity).
  set (a := 1 # 2 ^ 52) in *. set (b := 1 # 2 ^ 1074) in *.
  assert (C : q * a * (1 # 2) == q * (1 # 9007199254740992)).
  { rewrite <- A. ring. }
  split; [exact Hn|]. split; lra.
Qed.

Lemma no_overflow (r : Q) :
  r <= 2305843009213693952 -> Qle_bool (Double.pow2 1024) r = false.
Proof.
  intros H.
  assert (P : 2305843009213693952 < Double.pow2 1024)
    by (apply Qlt_alt; vm_compute; reflexivity).
  destruct (Qle_bool _ _) eqn:F; [|reflexivity].
  apply Qle_bool_iff in F. lra.
Qed.

(** A rational between [-M] and [M], for an [M] up to [2^60], is rounded
    to a finite double within [M * 2^-53 + 2^-60] of it, and of its sign. *)
Lemma round_near (q M : Q) :
  - M <= q <= M -> M <= 1152921504606846976 ->
  exists r,
    Double.round q = Finite r
    /\ (0 <= q -> 0 <= r)
    /\ q - (M * (1 # 9007199254740992) + (1 # 1152921504606846976)) <= r
    /\ r <= q + (M * (1 # 9007199254740992) + (1 # 1152921504606846976)).
Proof.
  intros [H0 HM] Hbig. unfold Double.round.
  destruct (Qcompare_spec q 0) as [E|E|E].
  - exists 0. split; [reflexivity|]. split; [intros _; lra|]. lra.
  - assert (E' : 0 < - q) by lra.
    destruct (nearest_bound (- q) E') as (Hn & Hl & Hu).
    rewrite no_overflow by lra.
    exists (- Double.nearest (- q)).
    split; [reflexivity|]. split; [intros F; lra|]. lra.
  - destruct (nearest_bound q E) as (Hn & Hl & Hu).
    rewrite no_overflow by lra.
    exists (Double.nearest q).
    split; [reflexivity|]. split; [intros _; exact Hn|]. lra.
Qed.

(** A rational that is not negative is rounded to a double that is not
    negative, or to the positive infinity; from 1 on, to no less than a
    half. *)
Lemma round_nonneg (q : Q) :
  0 <= q ->
  Double.round q = PosInfinity
  \/ exists r, Double.round q = Finite r /\ 0 <= r /\ (1 <= q -> 1 # 2 <= r).
Proof.
  intros H. unfold Double.round.
  destruct (Qcompare_spec q 0) as [E|E|E].
  - right. exists 0. split; [reflexivity|]. split; [lra|]. intros F. lra.
  - lra.
  - destruct (nearest_bound q E) as (Hn & Hl & _).
    destruct (Qle_bool _ _); [now left|].
    right. exists (Double.nearest q). split; [reflexivity|]. split; [exact Hn|].
    intros H1. lra.
Qed.

End DoubleNear.

Section EstimateNear.

Local Open Scope Q_scope.

Lemma mult_near (a x y e A : Q) :
  - A <= a <= A -> y - e <= x <= y + e ->
  a * y - A * e <= a * x <= a * y + A * e.
Proof.
  intros [Ha HA] [Hl Hu].
  assert (He : 0 <= e) by lra.
  destruct (Qlt_le_dec a 0) as [Hneg|Hpos].
  - assert (H1 : (- a) * (x - y + e) >= 0) by (apply Qmult_le_0_compat; lra).
    assert (H2 : (- a) * (y + e - x) >= 0) by (apply Qmult_le_0_compat; lra).
    assert (H3 : (A + a) * e >= 0) by (apply Qmult_le_0_compat; lra).
    split; lra.
  - assert (H1 : a * (x - y + e) >= 0) by (apply Qmult_le_0_compat; lra).
    assert (H2 : a * (y + e - x) >= 0) by (apply Qmult_le_0_compat; lra).
    assert (H3 : (A - a) * e >= 0) by (apply Qmult_le_0_compat; lra).
    split; lra.
Qed.

Lemma mult_bound (a x A X : Q) :
  - A <= a <= A -> - X <= x <= X -> - (A * X) <= a * x <= A * X.
Proof.
  intros Ha Hx.
  assert (HA : 0 <= A) by lra.
  pose proof (mult_near a x 0 X A Ha) as H.
  assert (E : a * 0 == 0) by ring.
  lra.
Qed.

(** The sum the estimate rounds up, in double arithmetic, is within a
    sixteenth of the exact sum, for sizes up to 4096 and up to [2^30]
    lines. *)
Lemma estimate_near (lines : nat) (f p : Q) :
  - 4096 <= f <= 4096 -> - 4096 <= p <= 4096 -> (Z.of_nat lines <= 2 ^ 30)%Z ->
  exists s,
    Double.estimateHeight (ofNat lines) (Finite f)
      (Double.mul (Finite f) (Double.round 1.6)) (ofZ 40) (ofZ 24) (Finite p)
    = ceil (Finite s)
    /\ inject_Z (Z.of_nat lines) * (f * 1.6) + 24 * 2 + 40 + p * 2 + 40 - (1 # 16) <= s
    /\ s <= inject_Z (Z.of_nat lines) * (f * 1.6) + 24 * 2 + 40 + p * 2 + 40 + (1 # 16).
Proof.
  intros Hf Hp Hn.
  assert (HN : - (1073741824) <= inject_Z (Z.of_nat lines) <= 1073741824).
  { split.
    - assert (0 <= inject_Z (Z.of_nat lines)); [|lra].
      change 0 with (inject_Z 0). rewrite <- Zle_Qle. lia.
    - change 1073741824 with (inject_Z (2 ^ 30)). now rewrite <- Zle_Qle. }
  set (N := inject_Z (Z.of_nat lines)) in *.
  set (eps := 1 # 9007199254740992) in *.
  set (tiny := 1 # 1152921504606846976) in *.
  assert (Heps : eps == 1 # 9007199254740992) by reflexivity.
  assert (Htiny : tiny == 1 # 1152921504606846976) by reflexivity.
  (* the literal *)
  destruct (round_near 1.6 2) as (k & Ek & _ & Hk1 & Hk2); [lra | lra |].
  fold eps tiny in Hk1, Hk2.
  (* the line height *)
  assert (Hk3 : - (2) <= k <= 2) by lra.
  pose proof (mult_bound f k 4096 2 Hf Hk3) as Bfk.
  destruct (round_near (f * k) 8192) as (lh & Elh & _ & Hlh1 & Hlh2); [lra | lra |].
  fold eps tiny in Hlh1, Hlh2.
  assert (Hk4 : 1.6 - (2 * eps + tiny) <= k <= 1.6 + (2 * eps + tiny)) by lra.
  pose proof (mult_near f k 1.6 (2 * eps + tiny) 4096 Hf Hk4) as Nfk.
  assert (Hlh3 : - (8193) <= lh <= 8193) by lra.
  (* the lines *)
  pose proof (mult_bound N lh 1073741824 8193 HN Hlh3) as BNlh.
  destruct (round_near (N * lh) 17592186044416) as (t & Et & _ & Ht1 & Ht2);
    [lra | lra |].
  fold eps tiny in Ht1, Ht2.
  assert (Hlh4 : f * 1.6 - (8192 * eps + tiny + 4096 * (2 * eps + tiny)) <= lh
                 <= f * 1.6 + (8192 * eps + tiny + 4096 * (2 * eps + tiny))) by lra.
  pose proof (mult_near N lh (f * 1.6) _ 1073741824 HN Hlh4) as NNlh.
  (* the padding of the code *)
  destruct (round_near (24 * 2) 48) as (c & Ec & _ & Hc1 & Hc2); [lra | lra |].
  fold eps tiny in Hc1, Hc2.
  (* the sums *)
  destruct (round_near (t + c) 17592186044416) as (s1 & E1 & _ & H11 & H12);
    [lra | lra |].
  fold eps tiny in H11, H12.
  destruct (round_near (s1 + 40) 17592186044416) as (s2 & E2 & _ & H21 & H22);
    [lra | lra |].
  fold eps tiny in H21, H22.
  destruct (round_near (p * 2) 8192) as (pp & Epp & _ & Hpp1 & Hpp2); [lra | lra |].
  fold eps tiny in Hpp1, Hpp2.
  destruct (round_near (s2 + pp) 17592186044416) as (s3 & E3 & _ & H31 & H32);
    [lra | lra |].
  fold eps tiny in H31, H32.
  destruct (round_near (s3 + 40) 17592186044416) as (s4 & E4 & _ & H41 & H42);
    [lra | lra |].
  fold eps tiny in H41, H42.
  exists s4. split.
  - unfold Double.estimateHeight, Double.mul, Double.add, ofNat, ofZ.
    fold N. rewrite Ek. cbn [Js.mul Js.add Double.rounded].
    rewrite Elh. cbn [Js.mul Js.add Double.rounded].
    rewrite Et.
    change (inject_Z 24 * inject_Z 2) with (24 * 2). rewrite Ec.
    cbn [Js.mul Js.add Double.rounded]. rewrite E1.
    cbn [Js.mul Js.add Double.rounded]. change (inject_Z 40) with 40. rewrite E2.
    change (inject_Z 2) with 2. rewrite Epp.
    cbn [Js.mul Js.add Double.rounded]. rewrite E3.
    cbn [Js.mul Js.add Double.rounded]. rewrite E4. reflexivity.
  - lra.
Qed.

End EstimateNear.

Section EstimateFacts.

Local Open Scope Q_scope.

Lemma ceiling_le (a : Q) (z : Z) : a <= inject_Z z -> (Qceiling a <= z)%Z.
Proof.
  intros H. pose proof (Qceiling_lt a) as Hc.
  assert (F : inject_Z (Qceiling a - 1) < inject_Z z) by lra.
  rewrite <- Zlt_Qlt in F. lia.
Qed.

(** Two sums that differ by less than one have ceilings that differ by at
    most one. *)
Lemma ceiling_near (a b : Q) :
  b - 1 <= a <= b + 1 -> (Qceiling b - 1 <= Qceiling a <= Qceiling b + 1)%Z.
Proof.
  intros [Hl Hu].
  pose proof (Qle_ceiling a) as Ha. pose proof (Qle_ceiling b) as Hb.
  split.
  - assert (H : (Qceiling b <= Qceiling a + 1)%Z); [|lia].
    apply ceiling_le. rewrite inject_Z_plus. change (inject_Z 1) with 1. lra.
  - apply ceiling_le. rewrite inject_Z_plus. change (inject_Z 1) with 1. lra.
Qed.

(** The exact canvas height of the layout estimate. *)
Lemma layoutEstimate_finite (code : string) (f p : Q) :
  exists x,
    Spec.canvasHeightPx (Spec.layoutEstimate code (Finite f) (Finite p)) = Finite x
    /\ x == inject_Z (Z.of_nat (RenderSnippet.lineCountOf code)) * (f * 1.6)
            + 24 * 2 + 40 + p * 2 + 40.
Proof.
  unfold Spec.layoutEstimate, RenderSnippet.lineCountOf.
  cbn [Spec.canvasHeightPx]. rewrite split_length.
  unfold Spec.innerPadding, Spec.chromeBarHeightPx, Spec.fixedMargin, ofNat, ofZ.
  cbn [Js.add Js.mul]. eexists. split; [reflexivity|].
  change (inject_Z 2) with 2. change (inject_Z 24) with 24.
  change (inject_Z 40) with 40. ring.
Qed.

(** The estimate of the empty code is positive whenever the font size and
    the padding are not negative. *)
Lemma empty_estimate_positive (f p : Q) :
  0 <= f -> 0 <= p ->
  lt (ofZ 0) (RenderSnippet.estimatedHeightOf EmptyString (Finite f) (Finite p)).
Proof.
  intros Hf Hp.
  unfold RenderSnippet.estimatedHeightOf, Double.estimateHeight.
  change (RenderSnippet.lineCountOf EmptyString) with 1%nat.
  unfold Double.mul, Double.add, ofNat, ofZ.
  change (inject_Z (Z.of_nat 1)) with 1. change (inject_Z 2) with 2.
  change (inject_Z 24) with 24. change (inject_Z 40) with 40.
  change (inject_Z 0) with 0.
  destruct (round_near 1.6 2) as (k & Ek & Hk0 & _); [lra | lra |].
  rewrite Ek. cbn [Js.mul Double.rounded].
  assert (Hk : 0 <= k) by (apply Hk0; lra).
  (* the sum before the last addition is not negative, or infinite *)
  assert (Hsum : forall n : number,
             n = PosInfinity \/ (exists x, n = Finite x /\ 0 <= x) ->
             lt (Finite 0) (ceil (Double.rounded (Js.add n (Finite 40))))).
  { intros n [->|(x & -> & Hx)]; [exact I|].
    cbn [Js.add Double.rounded].
    destruct (round_nonneg (x + 40)) as [->|(r & -> & _ & Hr)]; [lra | exact I |].
    cbn [ceil lt]. pose proof (Qle_ceiling r) as Hc. lra. }
  assert (Hadd : forall n m : number,
             n = PosInfinity \/ (exists x, n = Finite x /\ 0 <= x) ->
             m = PosInfinity \/ (exists y, m = Finite y /\ 0 <= y) ->
             Double.rounded (Js.add n m) = PosInfinity
             \/ (exists z, Double.rounded (Js.add n m) = Finite z /\ 0 <= z)).
  { intros n m [->|(x & -> & Hx)] [->|(y & -> & Hy)]; try (left; reflexivity).
    cbn [Js.add Double.rounded].
    destruct (round_nonneg (x + y)) as [->|(r & -> & Hr & _)]; [lra | left; reflexivity |].
    right. exists r. split; [reflexivity | exact Hr]. }
  assert (Hmul : forall x y : Q, 0 <= x -> 0 <= y ->
             Double.round (x * y) = PosInfinity
             \/ (exists z, Double.round (x * y) = Finite z /\ 0 <= z)).
  { intros x y Hx Hy.
    destruct (round_nonneg (x * y)) as [->|(r & -> & Hr & _)];
      [apply Qmult_le_0_compat; assumption | left; reflexivity |].
    right. exists r. split; [reflexivity | exact Hr]. }
  apply Hsum. apply Hadd; [|apply Hmul; lra].
  apply Hadd; [|right; exists 40; split; [reflexivity | lra]].
  apply Hadd; [|apply Hmul; lra].
  destruct (Hmul f k Hf Hk) as [->|(lh & -> & Hlh)].
  - left. reflexivity.
  - cbn [Js.mul Double.rounded]. apply Hmul; lra.
Qed.

(** A line more raises the estimate, for a font size from 1 to 4096. *)
Lemma estimate_grows (lines : nat) (f p : Q) :
  1 <= f <= 4096 -> - 4096 <= p <= 4096 -> (Z.of_nat (lines + 1) <= 2 ^ 30)%Z ->
  lt (Double.estimateHeight (ofNat lines) (Finite f)
        (Double.mul (Finite f) (Double.round 1.6)) (ofZ 40) (ofZ 24) (Finite p))
     (Double.estimateHeight (ofNat (lines + 1)) (Finite f)
        (Double.mul (Finite f) (Double.round 1.6)) (ofZ 40) (ofZ 24) (Finite p)).
Proof.
  intros Hf Hp Hn.
  destruct (estimate_near lines f p) as (a & -> & Ha1 & Ha2); [lra | lra | lia |].
  destruct (estimate_near (lines + 1) f p) as (b & -> & Hb1 & Hb2); [lra | lra | lia |].
  apply lt_ceil. rewrite ofNat_succ in Hb1. lra.
Qed.

End EstimateFacts.

(** ** The estimate and the layout formula *)

Section LayoutFormula.

Local Open Scope Q_scope.

Lemma mul_comm (a b : number) : mul a b = mul b a.
Proof.
  destruct a as [x| | |], b as [y| | |]; try reflexivity.
  cbn [mul]. f_equal. unfold Qmult. now rewrite Z.mul_comm, Pos.mul_comm.
Qed.

Lemma double_mul_comm (a b : number) : Double.mul a b = Double.mul b a.
Proof. unfold Double.mul. now rewrite mul_comm. Qed.

(** Doubles that are known: the literals [1.6] and [0.1], the product
    [24 * 1.6], the sum [0.1 + 0.2], a tie that goes to the even
    significand, and a product that overflows. *)
Lemma round_examples :
  Double.round 1.6 = Finite (3602879701896397 # 2251799813685248)
  /\ Double.round 0.1 = Finite (3602879701896397 # 36028797018963968)
  /\ Double.mul (ofZ 24) (Double.round 1.6)
     = Finite (1351079888211149 # 35184372088832)
  /\ Double.add (Double.round 0.1) (Double.round 0.2)
     = Finite (1351079888211149 # 4503599627370496)
  /\ Double.round 9007199254740993 = Finite 9007199254740992
  /\ Double.round 9007199254740995 = Finite 9007199254740996
  /\ Double.mul (Double.round (12 * inject_Z (10 ^ 307))) (Double.round 1.6)
     = PosInfinity.
Proof. repeat split; vm_compute; reflexivity. Qed.

(** [C5] Amended.  The estimate the code computes is the layout formula
    with each product and each sum rounded to a double, rounded up: lines
    times 1.6 font sizes, twice the inner padding of 24, the chrome bar of
    40, twice the canvas padding and the fixed margin of 40, with the
    lines counted as the newline-delimited pieces of the code.  For a font
    size and a padding between -4096 and 4096 and up to [2^30] lines it is a
    whole number at most one away from the formula without rounding,
    rounded up. *)
Theorem estimate_is_rounded_layout_formula (code : string) :
  (forall fontSize padding : number,
      RenderSnippet.estimatedHeightOf code fontSize padding
      = ceil (Spec.canvasHeightPx (Spec.layoutEstimateRounded code fontSize padding))
      /\ ofNat (RenderSnippet.lineCountOf code)
         = Spec.lineCount (Spec.layoutEstimateRounded code fontSize padding)
      /\ Spec.lineCount (Spec.layoutEstimateRounded code fontSize padding)
         = Spec.lineCount (Spec.layoutEstimate code fontSize padding))
  /\ (forall f p : Q,
        - 4096 <= f <= 4096 -> - 4096 <= p <= 4096 ->
        (Z.of_nat (RenderSnippet.lineCountOf code) <= 2 ^ 30)%Z ->
        exists (x : Q) (h : Z),
          Spec.canvasHeightPx (Spec.layoutEstimate code (Finite f) (Finite p))
          = Finite x
          /\ RenderSnippet.estimatedHeightOf code (Finite f) (Finite p)
             = Finite (inject_Z h)
          /\ (Qceiling x - 1 <= h <= Qceiling x + 1)%Z).
Proof.
  split.
  - intros fontSize padding.
    unfold RenderSnippet.estimatedHeightOf, Double.estimateHeight,
      Spec.layoutEstimateRounded, Spec.layoutEstimate, RenderSnippet.lineCountOf.
    cbn [Spec.canvasHeightPx Spec.lineCount]. rewrite split_length.
    unfold Spec.innerPadding, Spec.chromeBarHeightPx, Spec.fixedMargin.
    rewrite (double_mul_comm (ofZ 2) (ofZ 24)), (double_mul_comm (ofZ 2) padding).
    repeat split; reflexivity.
  - intros f p Hf Hp Hn.
    destruct (layoutEstimate_finite code f p) as (x & Hx & Ex).
    destruct (estimate_near (RenderSnippet.lineCountOf code) f p Hf Hp Hn)
      as (s & Hs & Hs1 & Hs2).
    exists x, (Qceiling s). split; [exact Hx|]. split; [exact Hs|].
    apply ceiling_near. rewrite Ex. split; lra.
Qed.

End LayoutFormula.

(** [C5] As stated the claim fails: for fifteen lines at a font size of 24
    and a padding of 64 the formula gives 832, and the code, whose line
    height is the double [38.400000000000006], gives 833. *)
Lemma estimate_above_layout_formula :
  RenderSnippet.estimatedHeightOf Sample.fifteenLines (ofZ 24) (ofZ 64) = ofZ 833
  /\ ceil (Spec.canvasHeightPx
             (Spec.layoutEstimate Sample.fifteenLines (ofZ 24) (ofZ 64)))
     = ofZ 832
  /\ RenderSnippet.estimatedHeightOf Sample.fifteenLines (ofZ 24) (ofZ 64)
     <> ceil (Spec.canvasHeightPx
                (Spec.layoutEstimate Sample.fifteenLines (ofZ 24) (ofZ 64))).
Proof.
  assert (A : RenderSnippet.estimatedHeightOf Sample.fifteenLines (ofZ 24) (ofZ 64)
              = ofZ 833) by (vm_compute; reflexivity).
  assert (B : ceil (Spec.canvasHeightPx
                      (Spec.layoutEstimate Sample.fifteenLines (ofZ 24) (ofZ 64)))
              = ofZ 832) by (vm_compute; reflexivity).
  split; [exact A|]. split; [exact B|].
  rewrite A, B. discriminate.
Qed.

Lemma estimate_is_rounded_layout_formula_witness :
  (- 4096 <= 24 <= 4096)%Q /\ (- 4096 <= 64 <= 4096)%Q
  /\ (Z.of_nat (RenderSnippet.lineCountOf Sample.fifteenLines) <= 2 ^ 30)%Z
  /\ exists (x : Q) (h : Z),
       Spec.canvasHeightPx
         (Spec.layoutEstimate Sample.fifteenLines (Finite 24) (Finite 64))
       = Finite x
       /\ RenderSnippet.estimatedHeightOf Sample.fifteenLines (Finite 24) (Finite 64)
          = Finite (inject_Z h)
       /\ (Qceiling x - 1 <= h <= Qceiling x + 1)%Z.
Proof.
  assert (Hf : (- 4096 <= 24 <= 4096)%Q) by (split; discriminate).
  assert (Hp : (- 4096 <= 64 <= 4096)%Q) by (split; discriminate).
  assert (Hn : (Z.of_nat (RenderSnippet.lineCountOf Sample.fifteenLines) <= 2 ^ 30)%Z)
    by (vm_compute; discriminate).
  split; [exact Hf|]. split; [exact Hp|]. split; [exact Hn|].
  exact (proj2 (estimate_is_rounded_layout_formula Sample.fifteenLines)
               24 64 Hf Hp Hn).
Defined.

(** ** Numeric options *)

Section NumericOptions.

Variable w : World.

Lemma toNumber_not_finite (v : optval) (fallback : number) :
  isFinite (Number w v) = false ->
  RenderSnippet.toNumber w (Some v) fallback = fallback.
Proof. intros H. unfold RenderSnippet.toNumber. now rewrite H. Qed.

Lemma toNumber_finite (value : option optval) (fallback : number) :
  isFinite fallback = true ->
  isFinite (RenderSnippet.toNumber w value fallback) = true.
Proof.
  intros H. unfold RenderSnippet.toNumber.
  destruct value as [v|]; [|exact H].
  destruct (isFinite (Number w v)) eqn:E; [exact E | exact H].
Qed.

(** [C9] A numeric option whose value is no finite number is replaced by the
    default of the option (960, 64, 2 and 16), so each of the four numbers
    the render takes from the options is finite, whatever the options
    are. *)
Theorem malformed_numeric_option_uses_default (opts : RenderSnippet.Opts) :
  (forall v, RenderSnippet.opt_width opts = Some v ->
             isFinite (Number w v) = false ->
             RenderSnippet.widthOf w opts = ofZ 960)
  /\ (forall v, RenderSnippet.opt_padding opts = Some v ->
                isFinite (Number w v) = false ->
                RenderSnippet.paddingOf w opts = ofZ 64)
  /\ (forall v, RenderSnippet.opt_scale opts = Some v ->
                isFinite (Number w v) = false ->
                RenderSnippet.scaleOf w opts = ofZ 2)
  /\ (forall v, RenderSnippet.opt_font_size opts = Some v ->
                truthy (Some v) = true ->
                isFinite (Number w v) = false ->
                RenderSnippet.fontSizeOf w opts = ofZ 16)
  /\ isFinite (RenderSnippet.widthOf w opts) = true
  /\ isFinite (RenderSnippet.paddingOf w opts) = true
  /\ isFinite (RenderSnippet.scaleOf w opts) = true
  /\ isFinite (RenderSnippet.fontSizeOf w opts) = true.
Proof.
  assert (Hw : isFinite (RenderSnippet.widthOf w opts) = true)
    by (apply toNumber_finite; reflexivity).
  assert (Hp : isFinite (RenderSnippet.paddingOf w opts) = true)
    by (apply toNumber_finite; reflexivity).
  assert (Hs : isFinite (RenderSnippet.scaleOf w opts) = true)
    by (apply toNumber_finite; reflexivity).
  assert (Hf : isFinite (RenderSnippet.fontSizeOf w opts) = true)
    by (apply toNumber_finite; reflexivity).
  repeat split; try assumption.
  - intros v Hv Hn. unfold RenderSnippet.widthOf. rewrite Hv.
    now apply toNumber_not_finite.
  - intros v Hv Hn. unfold RenderSnippet.paddingOf. rewrite Hv.
    now apply toNumber_not_finite.
  - intros v Hv Hn. unfold RenderSnippet.scaleOf. rewrite Hv.
    now apply toNumber_not_finite.
  - intros v Hv Ht Hn. unfold RenderSnippet.fontSizeOf, orElse.
    rewrite Hv, Ht, Ht. now apply toNumber_not_finite.
Qed.

End NumericOptions.

Lemma malformed_numeric_option_uses_default_witness :
  isFinite (Number Demo.world (OStr "wide")) = false
  /\ RenderSnippet.widthOf Demo.world (Demo.withWidth "wide") = ofZ 960.
Proof.
  assert (Hn : isFinite (Number Demo.world (OStr "wide")) = false)
    by (vm_compute; reflexivity).
  split; [exact Hn|].
  exact (proj1 (malformed_numeric_option_uses_default Demo.world
                  (Demo.withWidth "wide"))
               (OStr "wide") eq_refl Hn).
Defined.

(** ** Runs of the standalone renderer *)

(** Symbolic execution: the decision a computation takes next is the
    innermost scrutinee at the head of the term that computes it. *)
Ltac head_scrutinee t :=
  lazymatch t with
  | match ?x with _ => _ end => head_scrutinee x
  | (match ?x with _ => _ end) _ => head_scrutinee x
  | _ => t
  end.

Ltac run_reduce := cbn beta iota zeta delta [app fst snd].

Ltac run_unfold :=
  unfold RenderSnippet.run, catchExit, RenderSnippet.main, Phases.prepare,
    Phases.session, RenderSnippet.readInput, RenderSnippet.readFile,
    RenderSnippet.showHelp, Main.renderSnippet, pathDirname, tryFinally, bind,
    perform, ret, throw.

(** One decision of the left-hand side of an equation. *)
Ltac run_step :=
  lazymatch goal with
  | |- ?lhs = _ =>
      let s := head_scrutinee lhs in
      lazymatch s with
      | lhs => fail
      | _ => let E := fresh "E" in destruct s eqn:E; run_reduce
      end
  end.

(** Every way a phase can go, with the phase replaced by its outcome. *)
Ltac phase_cases m :=
  let res := fresh "res" in
  let Hres := fresh "Hres" in
  remember m as res eqn:Hres in *;
  revert Hres; run_unfold; run_reduce;
  repeat (lazymatch goal with
          | |- _ = ?rhs -> _ =>
              let s := head_scrutinee rhs in
              lazymatch s with
              | rhs => fail
              | _ => let E := fresh "E" in destruct s eqn:E; run_reduce
              end
          end);
  intros ->; cbn [fst snd] in *.

(** Cases of a membership in a list of calls that is written out, and the
    proof of one. *)
Ltac in_cases H :=
  cbn [In] in H;
  repeat (destruct H as [H|H]; [try discriminate H|]);
  try contradiction H.

Ltac in_solve := cbn [In]; repeat first [left; reflexivity | right].

(** The place of two adjacent calls in a list that is written out: the
    prefix of length [n] is tried for [n] up to a bound. *)
Ltac cut_at t n fuel :=
  lazymatch fuel with
  | O => fail "no such place"
  | S ?fuel' =>
      first
        [ solve [ exists (firstn n t), (skipn (S (S n)) t);
                  cbn [firstn skipn];
                  split; [in_solve | reflexivity] ]
        | cut_at t (S n) fuel' ]
  end.

Section Runs.

Variable w : World.

(** [main] is its two phases. *)
Lemma main_phases (opts : RenderSnippet.Opts) (t : trace) :
  RenderSnippet.main w opts t
  = (if truthy (RenderSnippet.opt_help opts) then RenderSnippet.showHelp w
     else bind (Phases.prepare w opts) (Phases.session w)) t.
Proof.
  run_unfold; run_reduce.
  generalize RenderSnippet.estimatedHeightOf, Double.add, Double.mul.
  intros estimate plus times.
  repeat first [reflexivity | run_step].
Qed.

(** A session started after some calls makes the calls it makes when
    started first. *)
Lemma session_appends (p : Phases.Plan) (t : trace) :
  Phases.session w p t
  = (fst (Phases.session w p []), (t ++ snd (Phases.session w p []))%list).
Proof.
  run_unfold; run_reduce.
  repeat run_step.
  all: rewrite <- ?app_assoc; reflexivity.
Qed.

(** The calls and the exit status of a run, by phase. *)
Lemma run_phases (opts : RenderSnippet.Opts) :
  RenderSnippet.run w opts
  = if truthy (RenderSnippet.opt_help opts) then catchExit (RenderSnippet.showHelp w)
    else match Phases.prepare w opts [] with
         | (Throws e, t1) => ((t1 ++ [StderrWrite (e ++ nl); Exit 1])%list, 1%Z)
         | (Returns p, t1) =>
             match Phases.session w p [] with
             | (Returns _, ts) => ((t1 ++ ts)%list, 0%Z)
             | (Throws e, ts) =>
                 ((t1 ++ ts ++ [StderrWrite (e ++ nl); Exit 1])%list, 1%Z)
             end
         end.
Proof.
  unfold RenderSnippet.run, catchExit. rewrite main_phases.
  destruct (truthy (RenderSnippet.opt_help opts)); [reflexivity|].
  unfold bind at 1.
  destruct (Phases.prepare w opts []) as [[p|e] t1]; [|reflexivity].
  rewrite session_appends.
  destruct (Phases.session w p []) as [[u|e] ts]; cbn [fst snd];
    rewrite ?app_assoc; reflexivity.
Qed.

(** The first phase makes early calls only. *)
Lemma prepare_early (opts : RenderSnippet.Opts) :
  Forall Phases.early (snd (Phases.prepare w opts [])).
Proof.
  phase_cases (Phases.prepare w opts []).
  all: repeat constructor.
Qed.

Lemma early_In (t : trace) (c : call) :
  Forall Phases.early t -> In c t -> Phases.early c.
Proof. intros H Hin. rewrite Forall_forall in H. now apply H. Qed.

(** The help text is all a run with the help flag writes. *)
Lemma help_calls (c : call) :
  In c (fst (catchExit (RenderSnippet.showHelp w))) ->
  match c with
  | StdoutWrite _ | StderrWrite _ | Exit _ => True
  | _ => False
  end.
Proof.
  unfold catchExit, RenderSnippet.showHelp, perform.
  destruct (rejects w _); cbn [fst app]; intros H; in_cases H;
    subst c; exact I.
Qed.

Lemma early_outer (c : call) : Phases.early c -> Phases.outer c.
Proof. destruct c; simpl; tauto. Qed.

(** Where a call of a run comes from: it is an outer call or a call of the
    session. *)
Lemma run_call_kinds (opts : RenderSnippet.Opts) (c : call) :
  In c (fst (RenderSnippet.run w opts)) ->
  Phases.outer c
  \/ exists p t1,
       truthy (RenderSnippet.opt_help opts) = false
       /\ Phases.prepare w opts [] = (Returns p, t1)
       /\ In c (snd (Phases.session w p [])).
Proof.
  rewrite run_phases.
  destruct (truthy (RenderSnippet.opt_help opts)) eqn:Hhelp.
  - intros H. left. apply help_calls in H. destruct c; simpl; tauto.
  - pose proof (prepare_early opts) as He.
    destruct (Phases.prepare w opts []) as [[p|e] t1] eqn:Hp; cbn [snd] in He.
    + destruct (Phases.session w p []) as [[u|e] ts] eqn:Hs; cbn [fst]; intros H.
      * apply in_app_or in H as [H|H].
        -- left. apply early_outer. now apply (early_In t1).
        -- right. exists p, t1. rewrite Hs. auto.
      * apply in_app_or in H as [H|H]; [|apply in_app_or in H as [H|H]].
        -- left. apply early_outer. now apply (early_In t1).
        -- right. exists p, t1. rewrite Hs. auto.
        -- left. in_cases H; subst c; exact I.
    + cbn [fst]. intros H. left. apply in_app_or in H as [H|H].
      * apply early_outer. now apply (early_In t1).
      * in_cases H; subst c; exact I.
Qed.

(** The calls of a run whose first phase returns: those of the first phase,
    those of the session and, when the session throws, the report and the
    exit. *)
Lemma run_of_session (opts : RenderSnippet.Opts) (p : Phases.Plan) (t1 : trace) :
  truthy (RenderSnippet.opt_help opts) = false ->
  Phases.prepare w opts [] = (Returns p, t1) ->
  Forall Phases.early t1
  /\ match fst (Phases.session w p []) with
     | Returns _ =>
         RenderSnippet.run w opts
         = ((t1 ++ snd (Phases.session w p []))%list, 0%Z)
     | Throws e =>
         RenderSnippet.run w opts
         = ((t1 ++ snd (Phases.session w p [])
                ++ [StderrWrite (e ++ nl); Exit 1])%list, 1%Z)
     end.
Proof.
  intros Hhelp Hp. split.
  - pose proof (prepare_early opts) as He. now rewrite Hp in He.
  - rewrite run_phases, Hhelp, Hp.
    destruct (Phases.session w p []) as [[u|e] ts]; reflexivity.
Qed.

Lemma session_call_in_run
  (opts : RenderSnippet.Opts) (p : Phases.Plan) (t1 : trace) (c : call) :
  truthy (RenderSnippet.opt_help opts) = false ->
  Phases.prepare w opts [] = (Returns p, t1) ->
  In c (snd (Phases.session w p [])) ->
  In c (fst (RenderSnippet.run w opts)).
Proof.
  intros Hhelp Hp Hin.
  destruct (run_of_session opts p t1 Hhelp Hp) as [_ H].
  destruct (fst (Phases.session w p [])); rewrite H; cbn [fst];
    apply in_or_app; right; [assumption|].
  apply in_or_app; now left.
Qed.

(** What a session captures, and when it creates the directory. *)
Lemma session_screenshot
  (p : Phases.Plan) (path : optval) (region : option clip) (transparent : bool) :
  In (Screenshot path region transparent) (snd (Phases.session w p [])) ->
  In (SetContent (Phases.plan_html p)) (snd (Phases.session w p []))
  /\ exists r, frameRect w (Phases.plan_html p) = Some r
               /\ region = Some (RenderSnippet.clipOf r).
Proof.
  intros H. phase_cases (Phases.session w p []); in_cases H.
  all: injection H as <- <- <-.
  all: split; [in_solve | eexists; split; reflexivity].
Qed.

Lemma session_mkdir (p : Phases.Plan) (dir : string) :
  In (Mkdir dir) (snd (Phases.session w p [])) ->
  (exists r, frameRect w (Phases.plan_html p) = Some r)
  /\ exists pre post,
       In (SetContent (Phases.plan_html p)) pre
       /\ snd (Phases.session w p []) = (pre ++ Evaluate :: Mkdir dir :: post)%list.
Proof.
  intros H. phase_cases (Phases.session w p []); in_cases H.
  all: injection H as <-.
  all: split; [eexists; reflexivity|].
  all: match goal with
       | |- exists pre post, _ /\ ?t = _ => cut_at t 0%nat 12%nat
       end.
Qed.

(** A session whose measurement finds no frame. *)
Lemma session_no_frame (p : Phases.Plan) (html : string) :
  In (SetContent html) (snd (Phases.session w p [])) ->
  rejects w (SetContent html) = None ->
  rejects w Evaluate = None ->
  frameRect w html = None ->
  exists e,
    Phases.session w p []
    = (Throws e, [Launch; NewPage;
                  SetViewport (Phases.plan_width p) (Phases.plan_height p)
                              (Phases.plan_scale p);
                  SetContent html; Evaluate; BrowserClose])
    /\ (rejects w BrowserClose = None ->
        e = "Failed to locate canvas for screenshot.").
Proof.
  intros Hin Hload Heval Hframe.
  phase_cases (Phases.session w p []); in_cases Hin.
  all: injection Hin as <-; try congruence.
  all: eexists; split; [reflexivity | congruence].
Qed.

(** In every standalone run the capture is given the rounded rectangle of
    the frame of the document the run loaded. *)
Lemma standalone_captures_only_frame (opts : RenderSnippet.Opts) :
  Spec.capturesOnlyFrame w (fst (RenderSnippet.run w opts)).
Proof.
  intros path region transparent H.
  destruct (run_call_kinds opts _ H) as [Hout | (p & t1 & Hhelp & Hp & Hs)];
    [contradiction Hout|].
  destruct (session_screenshot p _ _ _ Hs) as (Hc & r & Hr & Hreg).
  exists (Phases.plan_html p), r. split; [|split; assumption].
  now apply (session_call_in_run opts p t1).
Qed.

(** The overlay renderer captures the whole viewport of 1080 by 1920, with
    a transparent background, and measures nothing. *)
Lemma overlay_captures_viewport
  (code difficulty outputPath : string)
  (path : optval) (region : option clip) (transparent : bool) :
  In (Screenshot path region transparent)
     (snd (Main.renderSnippet w code difficulty outputPath [])) ->
  path = OStr outputPath /\ region = None /\ transparent = true
  /\ In (SetViewport (ofZ 1080) (ofZ 1920) (ofZ 2))
        (snd (Main.renderSnippet w code difficulty outputPath []))
  /\ ~ In Evaluate (snd (Main.renderSnippet w code difficulty outputPath [])).
Proof.
  intros H.
  phase_cases (Main.renderSnippet w code difficulty outputPath []); in_cases H.
  all: injection H as <- <- <-.
  all: repeat split; [in_solve | intros H; in_cases H].
Qed.

(** The calls of an overlay render nothing rejects. *)
Lemma overlay_calls (code difficulty outputPath : string) :
  (forall c, rejects w c = None) ->
  snd (Main.renderSnippet w code difficulty outputPath [])
  = [GetHighlighter "nord" "javascript";
     CodeToHtml code "javascript" "nord";
     NewPage;
     SetViewport Main.DEFAULTS.width Main.DEFAULTS.height Main.DEFAULTS.scale;
     SetContent
       (Main.buildHtml w (highlighted w code "javascript" "nord")
          Main.DEFAULTS.width Main.DEFAULTS.height Main.DEFAULTS.padding
          Main.DEFAULTS.background Main.DEFAULTS.font Main.DEFAULTS.fontSize
          difficulty);
     Screenshot (OStr outputPath) None true;
     PageClose;
     StdoutWrite ("  ✓ Rendered: " ++ outputPath ++ nl)].
Proof.
  intros Hrej. run_unfold; run_reduce. rewrite !Hrej. reflexivity.
Qed.

(** [C8] The rectangle given to the capture is the measured rectangle of
    the frame with its origin rounded down and its extent rounded up. *)
Theorem capture_region_is_rounded_frame
  (opts : RenderSnippet.Opts) (path : optval) (region : option clip)
  (transparent : bool) :
  In (Screenshot path region transparent) (fst (RenderSnippet.run w opts)) ->
  exists html r,
    In (SetContent html) (fst (RenderSnippet.run w opts))
    /\ frameRect w html = Some r
    /\ region = Some {| clip_x := Qfloor (rect_x r);
                        clip_y := Qfloor (rect_y r);
                        clip_width := Qceiling (rect_width r);
                        clip_height := Qceiling (rect_height r) |}.
Proof.
  intros H. exact (standalone_captures_only_frame opts _ _ _ H).
Qed.

(** [C2] Amended: the standalone run captures the measured frame
    rectangle only; the overlay render of [main.js] measures nothing and
    captures its whole viewport of 1080 by 1920 with a transparent
    background. *)
Theorem capture_frame_or_viewport :
  (forall opts : RenderSnippet.Opts,
      Spec.capturesOnlyFrame w (fst (RenderSnippet.run w opts)))
  /\ (forall (code difficulty outputPath : string)
             (path : optval) (region : option clip) (transparent : bool),
        In (Screenshot path region transparent)
           (snd (Main.renderSnippet w code difficulty outputPath [])) ->
        path = OStr outputPath /\ region = None /\ transparent = true
        /\ In (SetViewport (ofZ 1080) (ofZ 1920) (ofZ 2))
              (snd (Main.renderSnippet w code difficulty outputPath []))
        /\ ~ In Evaluate (snd (Main.renderSnippet w code difficulty outputPath []))).
Proof.
  split.
  - exact standalone_captures_only_frame.
  - exact overlay_captures_viewport.
Qed.

(** [C7] With no input flag, no positional file and a terminal on standard
    input the run makes no call at all before it reports the missing input
    and exits with status 1: no directory and no file is created.  In every
    run a directory is created only right after a measurement that found
    the frame. *)
Theorem no_input_fails_before_any_output (opts : RenderSnippet.Opts) :
  (truthy (RenderSnippet.opt_help opts) = false ->
   truthy (RenderSnippet.opt_input opts) = false ->
   RenderSnippet.opt_positional opts = [] ->
   stdin_isTTY w = true ->
   RenderSnippet.run w opts
   = ([StderrWrite ("No input provided. Use --input or pipe code via stdin." ++ nl);
       Exit 1], 1%Z))
  /\ (forall dir, In (Mkdir dir) (fst (RenderSnippet.run w opts)) ->
        exists html r pre post,
          frameRect w html = Some r
          /\ In (SetContent html) pre
          /\ fst (RenderSnippet.run w opts)
             = (pre ++ Evaluate :: Mkdir dir :: post)%list).
Proof.
  split.
  - intros Hhelp Hinput Hpos Htty.
    unfold RenderSnippet.run, catchExit, RenderSnippet.main,
      RenderSnippet.readInput.
    rewrite Hhelp, Hinput, Hpos, Htty.
    destruct (RenderSnippet.opt_input opts); reflexivity.
  - intros dir H.
    destruct (run_call_kinds opts _ H) as [Hout | (p & t1 & Hhelp & Hp & Hs)];
      [contradiction Hout|].
    destruct (session_mkdir p dir Hs) as ((r & Hr) & pre & post & Hpre & Hcut).
    destruct (run_of_session opts p t1 Hhelp Hp) as [_ Hrun].
    exists (Phases.plan_html p), r, (t1 ++ pre)%list.
    destruct (fst (Phases.session w p [])) as [u|e]; rewrite Hrun, Hcut;
      cbn [fst].
    + exists post. split; [assumption|]. split; [apply in_or_app; now right|].
      now rewrite <- app_assoc.
    + exists (post ++ [StderrWrite (e ++ nl); Exit 1])%list.
      split; [assumption|]. split; [apply in_or_app; now right|].
      rewrite <- !app_assoc. reflexivity.
Qed.

(** [C4] When the document was loaded and the measurement finds no frame,
    the run throws the failure of the render right after the one
    measurement it makes, closes the browser, reports the error and exits
    with status 1; nothing is captured and no directory is created. *)
Theorem frame_not_found_fails_and_releases
  (opts : RenderSnippet.Opts) (html : string) :
  In (SetContent html) (fst (RenderSnippet.run w opts)) ->
  rejects w (SetContent html) = None ->
  rejects w Evaluate = None ->
  frameRect w html = None ->
  snd (RenderSnippet.run w opts) = 1%Z
  /\ (exists pre e,
        fst (RenderSnippet.run w opts)
        = (pre ++ [SetContent html; Evaluate; BrowserClose;
                   StderrWrite (e ++ nl); Exit 1])%list
        /\ (rejects w BrowserClose = None ->
            e = "Failed to locate canvas for screenshot.")
        /\ ~ In Evaluate pre /\ ~ In BrowserClose pre)
  /\ (forall path region transparent,
        ~ In (Screenshot path region transparent) (fst (RenderSnippet.run w opts)))
  /\ (forall dir, ~ In (Mkdir dir) (fst (RenderSnippet.run w opts))).
Proof.
  intros Hin Hload Heval Hframe.
  destruct (run_call_kinds opts _ Hin) as [Hout | (p & t1 & Hhelp & Hp & Hs)];
    [contradiction Hout|].
  destruct (session_no_frame p html Hs Hload Heval Hframe) as (e & Hsess & He).
  destruct (run_of_session opts p t1 Hhelp Hp) as [Hearly Hrun].
  rewrite Hsess in Hrun. cbn [fst snd app] in Hrun. rewrite Hrun. cbn [fst snd].
  assert (Hno : forall c, ~ Phases.early c ->
                  (c <> Launch /\ c <> NewPage /\ c <> SetContent html
                   /\ c <> Evaluate /\ c <> BrowserClose
                   /\ (forall e', c <> StderrWrite e') /\ c <> Exit 1
                   /\ (forall a b d, c <> SetViewport a b d)) ->
                  ~ In c (t1 ++ [Launch; NewPage;
                                 SetViewport (Phases.plan_width p)
                                   (Phases.plan_height p) (Phases.plan_scale p);
                                 SetContent html; Evaluate; BrowserClose;
                                 StderrWrite (e ++ nl); Exit 1])%list).
  { intros c Hc (N1 & N2 & N3 & N4 & N5 & N6 & N7 & N8) H.
    apply in_app_or in H as [H|H]; [now apply Hc, (early_In t1)|].
    cbn [In] in H.
    destruct H as [H|[H|[H|[H|[H|[H|[H|[H|[]]]]]]]]]; symmetry in H;
      first [ contradiction | now apply N6 in H | now apply N8 in H ]. }
  split; [reflexivity|]. split; [|split].
  - exists (t1 ++ [Launch; NewPage;
                   SetViewport (Phases.plan_width p) (Phases.plan_height p)
                               (Phases.plan_scale p)])%list, e.
    split; [now rewrite <- app_assoc|]. split; [exact He|].
    split; intros H; apply in_app_or in H as [H|H];
      first [ exact (early_In t1 _ Hearly H) | in_cases H ].
  - intros path region transparent. apply Hno; [exact (fun F => F)|].
    repeat split; try discriminate; intros; discriminate.
  - intros dir. apply Hno; [exact (fun F => F)|].
    repeat split; try discriminate; intros; discriminate.
Qed.

(** *** Identifier resolution and its warnings *)



(** The two warnings, the failure of the measurement and the refusal of a
    path that is no string begin with different letters. *)
Lemma themeWarning_not_languageWarning (a c : optval) (b d : string) :
  RenderSnippet.themeWarning a b <> RenderSnippet.languageWarning c d.
Proof. discriminate. Qed.



(** The first phase of a run nothing rejects and that has an input: one
    read, the warnings that apply, and the two calls on the highlighter. *)
Lemma prepare_calls (opts : RenderSnippet.Opts) :
  (forall c, rejects w c = None) ->
  ~ (truthy (RenderSnippet.opt_input opts) = false
     /\ RenderSnippet.opt_positional opts = []
     /\ stdin_isTTY w = true) ->
  let requestedLang :=
    orDefault (RenderSnippet.opt_lang opts) RenderSnippet.DEFAULTS.lang in
  let requestedTheme :=
    orDefault (RenderSnippet.opt_theme opts) RenderSnippet.DEFAULTS.theme in
  let theme :=
    RenderSnippet.resolveTheme w requestedTheme RenderSnippet.DEFAULTS.theme in
  let lang :=
    RenderSnippet.resolveLanguage w requestedLang RenderSnippet.DEFAULTS.lang in
  exists p read code,
    Phases.prepare w opts []
    = (Returns p,
       read
       :: (if truthy (Some requestedTheme)
              && RenderSnippet.differs theme requestedTheme
           then [StderrWrite (RenderSnippet.themeWarning requestedTheme theme)]
           else [])
       ++ (if truthy (Some requestedLang)
              && RenderSnippet.differs lang requestedLang
           then [StderrWrite (RenderSnippet.languageWarning requestedLang lang)]
           else [])
       ++ [GetHighlighter theme lang; CodeToHtml code lang theme])%list
    /\ (read = ReadStdin \/ exists path, read = ReadFile path).
Proof.
  intros Hrej Hinput. cbv zeta.
  phase_cases (Phases.prepare w opts []);
    try match goal with
        | E : rejects w _ = Some _ |- _ => rewrite Hrej in E; discriminate E
        end.
  all: try (exfalso; apply Hinput; repeat split; reflexivity).
  all: eexists _, _, _; split; [reflexivity|];
       first [left; reflexivity | right; eexists; reflexivity].
Qed.

(** The calls of a run whose first phase returned, split by their origin. *)
Lemma run_calls_split
  (opts : RenderSnippet.Opts) (p : Phases.Plan) (t1 : trace) (c : call) :
  truthy (RenderSnippet.opt_help opts) = false ->
  Phases.prepare w opts [] = (Returns p, t1) ->
  In c (fst (RenderSnippet.run w opts))
  <-> In c t1 \/ In c (snd (Phases.session w p []))
      \/ exists e, fst (Phases.session w p []) = Throws e
                   /\ In c [StderrWrite (e ++ nl); Exit 1].
Proof.
  intros Hhelp Hp.
  destruct (run_of_session opts p t1 Hhelp Hp) as [_ Hrun].
  destruct (fst (Phases.session w p [])) as [u|e]; rewrite Hrun; cbn [fst];
    rewrite ?in_app_iff.
  - split; [tauto|]. intros [H|[H|(e & He & _)]]; [tauto | tauto | discriminate].
  - split.
    + intros [H|[H|H]]; [tauto | tauto |]. right; right. now exists e.
    + intros [H|[H|(e' & He & H)]]; [tauto | tauto |].
      injection He as <-. tauto.
Qed.





(** What the session is given: the document of the options and of the
    highlighted code, which is the text of the pipe or of a file; a viewport
    as wide as the frame with its padding and as high as the estimate, and
    no smaller than 320 by 480; and the output path. *)
Lemma prepare_plan (opts : RenderSnippet.Opts) (p : Phases.Plan) (t1 : trace) :
  Phases.prepare w opts [] = (Returns p, t1) ->
  let theme :=
    RenderSnippet.resolveTheme w
      (orDefault (RenderSnippet.opt_theme opts) RenderSnippet.DEFAULTS.theme)
      RenderSnippet.DEFAULTS.theme in
  let lang :=
    RenderSnippet.resolveLanguage w
      (orDefault (RenderSnippet.opt_lang opts) RenderSnippet.DEFAULTS.lang)
      RenderSnippet.DEFAULTS.lang in
  exists code,
    In (CodeToHtml code lang theme) t1
    /\ (code = stdin_text w \/ exists path, code = file_text w path)
    /\ Phases.plan_html p
       = RenderSnippet.buildHtml w (highlighted w code lang theme)
           (RenderSnippet.widthOf w opts) (RenderSnippet.paddingOf w opts)
           (orDefault (RenderSnippet.opt_background opts)
                      RenderSnippet.DEFAULTS.background)
           (orDefault (RenderSnippet.opt_font opts) RenderSnippet.DEFAULTS.font)
           (orDefault (RenderSnippet.opt_title opts) RenderSnippet.DEFAULTS.title)
           theme (RenderSnippet.fontSizeOf w opts)
    /\ Phases.plan_width p
       = max (Double.add (RenderSnippet.widthOf w opts)
                         (Double.mul (RenderSnippet.paddingOf w opts) (ofZ 2)))
             (ofZ 320)
    /\ Phases.plan_height p
       = max (RenderSnippet.estimatedHeightOf code
                (RenderSnippet.fontSizeOf w opts) (RenderSnippet.paddingOf w opts))
             (ofZ 480)
    /\ Phases.plan_scale p = RenderSnippet.scaleOf w opts
    /\ Phases.plan_output p
       = orDefault (RenderSnippet.opt_output opts) RenderSnippet.DEFAULTS.output.
Proof.
  intros H. cbv zeta.
  phase_cases (Phases.prepare w opts []); try discriminate H.
  all: injection H as <- <-; cbn [Phases.plan_html Phases.plan_width
                                  Phases.plan_height Phases.plan_scale
                                  Phases.plan_output].
  all: eexists; split; [in_solve|].
  all: split; [first [left; reflexivity | right; eexists; reflexivity]|].
  all: repeat split; reflexivity.
Qed.

Lemma session_viewport (p : Phases.Plan) (a b c : number) :
  In (SetViewport a b c) (snd (Phases.session w p [])) ->
  a = Phases.plan_width p /\ b = Phases.plan_height p /\ c = Phases.plan_scale p.
Proof.
  intros H. phase_cases (Phases.session w p []); in_cases H.
  all: injection H as <- <- <-; repeat split; reflexivity.
Qed.

Lemma session_document (p : Phases.Plan) (html : string) :
  In (SetContent html) (snd (Phases.session w p [])) -> html = Phases.plan_html p.
Proof.
  intros H. phase_cases (Phases.session w p []); in_cases H.
  all: injection H as <-; reflexivity.
Qed.

(** The viewport a run asks for has the height of the estimate, and no
    less than 480. *)
Lemma run_viewport (opts : RenderSnippet.Opts) (a b c : number) :
  In (SetViewport a b c) (fst (RenderSnippet.run w opts)) ->
  exists code,
    a = max (Double.add (RenderSnippet.widthOf w opts)
                        (Double.mul (RenderSnippet.paddingOf w opts) (ofZ 2)))
            (ofZ 320)
    /\ b = max (RenderSnippet.estimatedHeightOf code
                  (RenderSnippet.fontSizeOf w opts) (RenderSnippet.paddingOf w opts))
               (ofZ 480)
    /\ c = RenderSnippet.scaleOf w opts.
Proof.
  intros H.
  destruct (run_call_kinds opts _ H) as [Hout | (p & t1 & Hhelp & Hp & Hs)];
    [contradiction Hout|].
  destruct (prepare_plan opts p t1 Hp) as (code & _ & _ & _ & Hw & Hh & Hsc & _).
  destruct (session_viewport p a b c Hs) as (-> & -> & ->).
  exists code. now rewrite Hw, Hh, Hsc.
Qed.

(** [X3] The document a run loads is made of the markup the highlighter
    returned for the code the run read, in the resolved language and
    theme: it ends with the escaped title, the theme label, the escaped
    name of the resolved theme and then that markup as it is. *)
Lemma run_document_escapes (opts : RenderSnippet.Opts) (html : string) :
  In (SetContent html) (fst (RenderSnippet.run w opts)) ->
  let theme :=
    RenderSnippet.resolveTheme w
      (orDefault (RenderSnippet.opt_theme opts) RenderSnippet.DEFAULTS.theme)
      RenderSnippet.DEFAULTS.theme in
  let lang :=
    RenderSnippet.resolveLanguage w
      (orDefault (RenderSnippet.opt_lang opts) RenderSnippet.DEFAULTS.lang)
      RenderSnippet.DEFAULTS.lang in
  exists before code,
    In (CodeToHtml code lang theme) (fst (RenderSnippet.run w opts))
    /\ (code = stdin_text w \/ exists path, code = file_text w path)
    /\ html
       = before
         ++ Spec.escaped
              (toStr (orDefault (RenderSnippet.opt_title opts)
                                RenderSnippet.DEFAULTS.title))
         ++ RenderSnippet.doc_theme_label
         ++ Spec.escaped theme
         ++ RenderSnippet.doc_code_region
         ++ highlighted w code lang theme
         ++ RenderSnippet.doc_tail.
Proof.
  intros H. cbv zeta.
  destruct (run_call_kinds opts _ H) as [Hout | (p & t1 & Hhelp & Hp & Hs)];
    [contradiction Hout|].
  destruct (prepare_plan opts p t1 Hp) as (code & Hcode & Hsrc & Hhtml & _).
  cbv zeta in Hcode, Hhtml.
  rewrite (session_document p html Hs), Hhtml.
  destruct (buildHtml_standalone_shape w
              (RenderSnippet.widthOf w opts) (RenderSnippet.paddingOf w opts)
              (orDefault (RenderSnippet.opt_background opts)
                         RenderSnippet.DEFAULTS.background)
              (orDefault (RenderSnippet.opt_font opts) RenderSnippet.DEFAULTS.font)
              (RenderSnippet.fontSizeOf w opts)) as [before Hshape].
  exists before, code.
  split; [|split; [exact Hsrc | apply Hshape]].
  apply (run_calls_split opts p t1 _ Hhelp Hp). left. exact Hcode.
Qed.

(** [X4] The browser a run launched is closed, whatever happens after
    the launch. *)
Lemma run_releases_browser (opts : RenderSnippet.Opts) :
  In Launch (fst (RenderSnippet.run w opts)) ->
  rejects w Launch = None ->
  exists pre post,
    fst (RenderSnippet.run w opts) = (pre ++ Launch :: post)%list
    /\ In BrowserClose post.
Proof.
  intros H Hlaunch.
  destruct (run_call_kinds opts _ H) as [Hout | (p & t1 & Hhelp & Hp & Hs)];
    [contradiction Hout|].
  destruct (run_of_session opts p t1 Hhelp Hp) as [_ Hrun].
  assert (Hsess : exists post, snd (Phases.session w p []) = Launch :: post
                               /\ In BrowserClose post).
  { clear Hrun Hs H.
    phase_cases (Phases.session w p []); try congruence.
    all: eexists; split; [reflexivity | in_solve]. }
  destruct Hsess as (post & Hpost & Hclose).
  exists t1.
  destruct (fst (Phases.session w p [])) as [u|e]; rewrite Hrun, Hpost; cbn [fst].
  - exists post. auto.
  - exists (post ++ [StderrWrite (e ++ nl); Exit 1])%list. split; [reflexivity|].
    apply in_or_app. now left.
Qed.

End Runs.
(** ** The sample runs *)

(** [C2] As stated the claim fails: the overlay render captures with no
    rectangle at all. *)
Lemma overlay_capture_not_frame :
  ~ Spec.capturesOnlyFrame Demo.world
      (snd (Main.renderSnippet Demo.world "console.log(1+1)" "EASY" "snippet.png" [])).
Proof.
  intros H.
  destruct (H (OStr "snippet.png") None true) as (html & r & _ & _ & Hregion).
  - rewrite overlay_calls by reflexivity. in_solve.
  - discriminate Hregion.
Qed.

Lemma capture_frame_or_viewport_witness :
  In (Screenshot (OStr "snippet.png") None true)
     (snd (Main.renderSnippet Demo.world "console.log(1+1)" "EASY" "snippet.png" []))
  /\ In (SetViewport (ofZ 1080) (ofZ 1920) (ofZ 2))
        (snd (Main.renderSnippet Demo.world "console.log(1+1)" "EASY" "snippet.png" [])).
Proof.
  assert (Hin : In (Screenshot (OStr "snippet.png") None true)
                   (snd (Main.renderSnippet Demo.world "console.log(1+1)" "EASY"
                           "snippet.png" []))).
  { rewrite overlay_calls by reflexivity. in_solve. }
  split; [exact Hin|].
  exact (proj1 (proj2 (proj2 (proj2
           (proj2 (capture_frame_or_viewport Demo.world)
                  "console.log(1+1)" "EASY" "snippet.png"
                  (OStr "snippet.png") None true Hin))))).
Defined.

Lemma capture_region_is_rounded_frame_witness :
  In (Screenshot (OStr "snippet.png")
        (Some {| clip_x := 64; clip_y := 139; clip_width := 960; clip_height := 114 |})
        false)
     (fst (RenderSnippet.run Demo.world Demo.noOpts))
  /\ exists html r,
       In (SetContent html) (fst (RenderSnippet.run Demo.world Demo.noOpts))
       /\ frameRect Demo.world html = Some r
       /\ Some {| clip_x := 64; clip_y := 139; clip_width := 960; clip_height := 114 |}
          = Some {| clip_x := Qfloor (rect_x r);
                    clip_y := Qfloor (rect_y r);
                    clip_width := Qceiling (rect_width r);
                    clip_height := Qceiling (rect_height r) |}.
Proof.
  assert (Hin : In (Screenshot (OStr "snippet.png")
                      (Some {| clip_x := 64; clip_y := 139;
                               clip_width := 960; clip_height := 114 |})
                      false)
                   (fst (RenderSnippet.run Demo.world Demo.noOpts))).
  { vm_compute. in_solve. }
  split; [exact Hin|].
  exact (capture_region_is_rounded_frame Demo.world Demo.noOpts _ _ _ Hin).
Defined.



Lemma frame_not_found_fails_and_releases_witness :
  frameRect Demo.blind
    (RenderSnippet.buildHtml Demo.blind
       (highlighted Demo.blind "console.log(1+1)" "javascript" "nord")
       (ofZ 960) (ofZ 64) (OStr RenderSnippet.DEFAULTS.background)
       (OStr RenderSnippet.DEFAULTS.font) (OStr "snippet") "nord" (ofZ 16))
  = None
  /\ snd (RenderSnippet.run Demo.blind Demo.noOpts) = 1%Z.
Proof.
  split; [reflexivity|].
  refine (proj1 (frame_not_found_fails_and_releases Demo.blind Demo.noOpts
                   (RenderSnippet.buildHtml Demo.blind
                      (highlighted Demo.blind "console.log(1+1)" "javascript" "nord")
                      (ofZ 960) (ofZ 64) (OStr RenderSnippet.DEFAULTS.background)
                      (OStr RenderSnippet.DEFAULTS.font) (OStr "snippet") "nord"
                      (ofZ 16))
                   _ eq_refl eq_refl eq_refl)).
  vm_compute. in_solve.
Defined.

Lemma no_input_fails_before_any_output_witness :
  stdin_isTTY Demo.terminal = true
  /\ RenderSnippet.run Demo.terminal Demo.noOpts
     = ([StderrWrite ("No input provided. Use --input or pipe code via stdin." ++ nl);
         Exit 1], 1%Z).
Proof.
  split; [reflexivity|].
  exact (proj1 (no_input_fails_before_any_output Demo.terminal Demo.noOpts)
               eq_refl eq_refl eq_refl eq_refl).
Defined.

(** ** Escaping loses nothing *)

Section MoreEscaping.

Local Open Scope nat_scope.

(** The entity of a character, by cases. *)
Lemma entity_cases (c : ascii) :
  (Spec.special c = false /\ Spec.entity c = String c EmptyString)
  \/ (c = "&"%char /\ Spec.entity c = "&amp;")
  \/ (c = "<"%char /\ Spec.entity c = "&lt;")
  \/ (c = ">"%char /\ Spec.entity c = "&gt;")
  \/ (c = dquote /\ Spec.entity c = "&quot;")
  \/ (c = "'"%char /\ Spec.entity c = "&#39;").
Proof.
  destruct c as [[] [] [] [] [] [] [] []];
    first [ left; split; reflexivity
          | right; left; split; reflexivity
          | right; right; left; split; reflexivity
          | right; right; right; left; split; reflexivity
          | right; right; right; right; left; split; reflexivity
          | right; right; right; right; right; split; reflexivity ].
Qed.

Lemma escaped_injective (a b : string) :
  Spec.escaped a = Spec.escaped b -> a = b.
Proof.
  revert b. induction a as [|c a IH]; intros [|d b] H.
  - reflexivity.
  - exfalso. cbn [Spec.escaped] in H.
    destruct (entity_cases d) as [[_ E]|[[_ E]|[[_ E]|[[_ E]|[[_ E]|[_ E]]]]]];
      rewrite E in H; discriminate H.
  - exfalso. cbn [Spec.escaped] in H.
    destruct (entity_cases c) as [[_ E]|[[_ E]|[[_ E]|[[_ E]|[[_ E]|[_ E]]]]]];
      rewrite E in H; discriminate H.
  - cbn [Spec.escaped] in H.
    destruct (entity_cases c) as [[Sc Ec]|[[-> Ec]|[[-> Ec]|[[-> Ec]|[[-> Ec]|[-> Ec]]]]]];
    destruct (entity_cases d) as [[Sd Ed]|[[-> Ed]|[[-> Ed]|[[-> Ed]|[[-> Ed]|[-> Ed]]]]]];
      rewrite ?Ec, ?Ed in H; cbn [append] in H;
      try discriminate H;
      try (injection H as Hc H; subst; first [discriminate Sc | discriminate Sd]);
      try (injection H as H; f_equal; now apply IH).
    injection H as -> H. f_equal. now apply IH.
Qed.

(** [X2] Escaping loses nothing: two values with the same escaped text
    have the same text. *)
Theorem escapeHtml_injective (a b : optval) :
  RenderSnippet.escapeHtml a = RenderSnippet.escapeHtml b -> toStr a = toStr b.
Proof.
  rewrite !escapeHtml_escaped. apply escaped_injective.
Qed.

End MoreEscaping.

Lemma escapeHtml_injective_witness :
  RenderSnippet.escapeHtml OTrue = RenderSnippet.escapeHtml (OStr "true")
  /\ toStr OTrue = toStr (OStr "true").
Proof.
  split; [reflexivity|].
  exact (escapeHtml_injective OTrue (OStr "true") eq_refl).
Defined.

(** ** Further properties of the standalone run *)

Section MoreRuns.

Variable w : World.

(** Which source the first phase reads. *)
Lemma prepare_reads (opts : RenderSnippet.Opts) (c : call) :
  In c (snd (Phases.prepare w opts [])) ->
  (forall path, c = ReadFile path ->
     (truthy (RenderSnippet.opt_input opts) = true
      /\ RenderSnippet.opt_input opts = Some path)
     \/ (truthy (RenderSnippet.opt_input opts) = false
         /\ exists first rest,
              RenderSnippet.opt_positional opts = first :: rest
              /\ path = OStr first))
  /\ (c = ReadStdin ->
      truthy (RenderSnippet.opt_input opts) = false
      /\ RenderSnippet.opt_positional opts = []
      /\ stdin_isTTY w = false).
Proof.
  intros H.
  phase_cases (Phases.prepare w opts []); in_cases H.
  all: subst c; split; [intros path Hc | intros Hc]; try discriminate Hc.
  all: try (injection Hc as <-).
  all: first [ left; split; reflexivity
             | right; split; [reflexivity | eexists _, _; split; reflexivity]
             | repeat split; reflexivity ].
Qed.

(** The session makes no early call. *)
Lemma session_not_early (p : Phases.Plan) (c : call) :
  In c (snd (Phases.session w p [])) -> ~ Phases.early c.
Proof.
  intros H. phase_cases (Phases.session w p []); in_cases H.
  all: subst c; exact (fun F => F).
Qed.

(** A read of a run is a read of its first phase. *)
Lemma run_read_in_prepare (opts : RenderSnippet.Opts) (c : call) :
  In c (fst (RenderSnippet.run w opts)) ->
  (c = ReadStdin \/ exists path, c = ReadFile path) ->
  truthy (RenderSnippet.opt_help opts) = false
  /\ In c (snd (Phases.prepare w opts [])).
Proof.
  intros H Hc. rewrite run_phases in H.
  destruct (truthy (RenderSnippet.opt_help opts)) eqn:Hhelp.
  - apply help_calls in H. destruct Hc as [->|[path ->]]; contradiction H.
  - split; [reflexivity|].
    assert (Hlate : forall e, ~ In c [StderrWrite (e ++ nl); Exit 1]).
    { intros e F. destruct Hc as [->|[path ->]]; in_cases F. }
    destruct (Phases.prepare w opts []) as [[p|e] t1]; cbn [snd].
    + pose proof (session_not_early p c) as Hs.
      assert (Hearly : Phases.early c) by (destruct Hc as [->|[path ->]]; exact I).
      destruct (Phases.session w p []) as [[u|e] ts]; cbn [fst snd] in *.
      * apply in_app_or in H as [H|H]; [assumption | now apply Hs in H].
      * apply in_app_or in H as [H|H]; [assumption|].
        apply in_app_or in H as [H|H]; [now apply Hs in H | now apply Hlate in H].
    + cbn [fst] in H. apply in_app_or in H as [H|H]; [assumption|].
      now apply Hlate in H.
Qed.

(** [X5] A run reads one source: the file of the input flag when it is given,
    else the first positional file, else the pipe on standard input, and
    that only when standard input is no terminal. *)
Theorem input_source_precedence (opts : RenderSnippet.Opts) :
  (forall path, In (ReadFile path) (fst (RenderSnippet.run w opts)) ->
     (truthy (RenderSnippet.opt_input opts) = true
      /\ RenderSnippet.opt_input opts = Some path)
     \/ (truthy (RenderSnippet.opt_input opts) = false
         /\ exists first rest,
              RenderSnippet.opt_positional opts = first :: rest
              /\ path = OStr first))
  /\ (In ReadStdin (fst (RenderSnippet.run w opts)) ->
      truthy (RenderSnippet.opt_input opts) = false
      /\ RenderSnippet.opt_positional opts = []
      /\ stdin_isTTY w = false).
Proof.
  split.
  - intros path H.
    destruct (run_read_in_prepare opts _ H) as [_ Hp]; [right; now exists path|].
    exact (proj1 (prepare_reads opts _ Hp) path eq_refl).
  - intros H.
    destruct (run_read_in_prepare opts _ H) as [_ Hp]; [now left|].
    exact (proj2 (prepare_reads opts _ Hp) eq_refl).
Qed.

(** The output path of the plan. *)
Lemma prepare_output (opts : RenderSnippet.Opts) (p : Phases.Plan) (t1 : trace) :
  Phases.prepare w opts [] = (Returns p, t1) ->
  Phases.plan_output p
  = orDefault (RenderSnippet.opt_output opts) RenderSnippet.DEFAULTS.output.
Proof.
  intros H.
  phase_cases (Phases.prepare w opts []); try discriminate H.
  all: injection H as <- <-; reflexivity.
Qed.

(** A session that returns has captured the frame and reported the file. *)
Lemma session_returns (p : Phases.Plan) (u : unit) (ts : trace) :
  Phases.session w p [] = (Returns u, ts) ->
  exists r dir,
    frameRect w (Phases.plan_html p) = Some r
    /\ ts = [Launch; NewPage;
             SetViewport (Phases.plan_width p) (Phases.plan_height p)
                         (Phases.plan_scale p);
             SetContent (Phases.plan_html p); Evaluate; Mkdir dir;
             Screenshot (Phases.plan_output p) (Some (RenderSnippet.clipOf r)) false;
             BrowserClose;
             StdoutWrite ("Wrote " ++ toStr (Phases.plan_output p) ++ nl)].
Proof.
  intros H.
  phase_cases (Phases.session w p []); try discriminate H.
  all: injection H as _ <-; eexists _, _; split; reflexivity.
Qed.

(** [X6] A run exits with status 0 or 1.  A run without the help flag that exits
    with 0 has measured the frame, created the directory, captured the
    frame to the output path, closed the browser and reported the file, in
    this order and as its last calls. *)
Theorem exit_zero_means_captured (opts : RenderSnippet.Opts) :
  (snd (RenderSnippet.run w opts) = 0%Z \/ snd (RenderSnippet.run w opts) = 1%Z)
  /\ (truthy (RenderSnippet.opt_help opts) = false ->
      snd (RenderSnippet.run w opts) = 0%Z ->
      let output :=
        orDefault (RenderSnippet.opt_output opts) RenderSnippet.DEFAULTS.output in
      exists pre html r dir,
        frameRect w html = Some r
        /\ fst (RenderSnippet.run w opts)
           = (pre ++ [SetContent html; Evaluate; Mkdir dir;
                      Screenshot output (Some (RenderSnippet.clipOf r)) false;
                      BrowserClose;
                      StdoutWrite ("Wrote " ++ toStr output ++ nl)])%list).
Proof.
  split.
  - rewrite run_phases.
    destruct (truthy (RenderSnippet.opt_help opts)).
    + unfold catchExit, RenderSnippet.showHelp, perform.
      destruct (rejects w _); cbn; auto.
    + destruct (Phases.prepare w opts []) as [[p|e] t1]; [|now right].
      destruct (Phases.session w p []) as [[u|e] ts]; cbn; auto.
  - intros Hhelp Hzero. cbv zeta.
    rewrite run_phases, Hhelp in *.
    destruct (Phases.prepare w opts []) as [[p|e] t1] eqn:Hp;
      [|discriminate Hzero].
    rewrite <- (prepare_output opts p t1 Hp).
    destruct (Phases.session w p []) as [[u|e] ts] eqn:Hs;
      [|discriminate Hzero].
    destruct (session_returns p u ts Hs) as (r & dir & Hr & ->).
    exists (t1 ++ [Launch; NewPage;
                   SetViewport (Phases.plan_width p) (Phases.plan_height p)
                               (Phases.plan_scale p)])%list,
           (Phases.plan_html p), r, dir.
    split; [exact Hr|]. cbn [fst]. now rewrite <- app_assoc.
Qed.

(** [X8] Resolution returns a supported identifier as soon as the fallback is
    supported or the first supported identifier is not the empty text. *)
Theorem resolved_identifier_is_supported (requested : optval) (fallback : string) :
  (includes (bundledLanguages w) fallback = true
   \/ (exists first rest, bundledLanguages w = first :: rest /\ first <> EmptyString) ->
   includes (bundledLanguages w)
            (RenderSnippet.resolveLanguage w requested fallback) = true)
  /\ (includes (bundledThemes w) fallback = true
      \/ (exists first rest, bundledThemes w = first :: rest /\ first <> EmptyString) ->
      includes (bundledThemes w)
               (RenderSnippet.resolveTheme w requested fallback) = true).
Proof.
  assert (Hval : forall l v, RenderSnippet.includesVal l v = true ->
                             includes l (toStr v) = true).
  { intros l [|s]; [discriminate | trivial]. }
  assert (Hfirst : forall l, (exists first rest, l = first :: rest /\ first <> EmptyString) ->
                             includes l (RenderSnippet.firstOr l fallback) = true).
  { intros l (first & rest & -> & Hne). simpl.
    apply String.eqb_neq in Hne. rewrite Hne. simpl.
    now rewrite String.eqb_refl. }
  split; intros H.
  - unfold RenderSnippet.resolveLanguage.
    destruct (RenderSnippet.includesVal _ _) eqn:E1; [now apply Hval|].
    destruct (includes (bundledLanguages w) fallback) eqn:E2; [exact E2|].
    destruct H as [H|H]; [discriminate H | now apply Hfirst].
  - unfold RenderSnippet.resolveTheme.
    destruct (RenderSnippet.includesVal _ _) eqn:E1; [now apply Hval|].
    destruct (includes (bundledThemes w) fallback) eqn:E2; [exact E2|].
    destruct H as [H|H]; [discriminate H | now apply Hfirst].
Qed.

(** [X9] The overlay render closes its page exactly when every call up to the
    capture went through: a step that fails leaves the page open. *)
Theorem overlay_page_closed_only_on_success (code difficulty outputPath : string) :
  let html :=
    Main.buildHtml w (highlighted w code "javascript" "nord")
      Main.DEFAULTS.width Main.DEFAULTS.height Main.DEFAULTS.padding
      Main.DEFAULTS.background Main.DEFAULTS.font Main.DEFAULTS.fontSize
      difficulty in
  In PageClose (snd (Main.renderSnippet w code difficulty outputPath []))
  <-> (rejects w (GetHighlighter "nord" "javascript") = None
       /\ rejects w (CodeToHtml code "javascript" "nord") = None
       /\ rejects w NewPage = None
       /\ rejects w (SetViewport Main.DEFAULTS.width Main.DEFAULTS.height
                                 Main.DEFAULTS.scale) = None
       /\ rejects w (SetContent html) = None
       /\ rejects w (Screenshot (OStr outputPath) None true) = None).
Proof.
  cbv zeta.
  phase_cases (Main.renderSnippet w code difficulty outputPath []).
  all: split; [intros H; in_cases H; repeat split; reflexivity
              | intros (H1 & H2 & H3 & H4 & H5 & H6); try discriminate; in_solve].
Qed.

End MoreRuns.

(** ** The lines of the code and the estimate *)

Section LineCount.

Variable w : World.

(** A session in which no call fails and the frame is found captures it
    and returns. *)
Lemma session_succeeds (p : Phases.Plan) (r : rect) (path : string) :
  (forall c, rejects w c = None) ->
  frameRect w (Phases.plan_html p) = Some r ->
  Phases.plan_output p = OStr path ->
  Phases.session w p []
  = (Returns tt,
     [Launch; NewPage;
      SetViewport (Phases.plan_width p) (Phases.plan_height p) (Phases.plan_scale p);
      SetContent (Phases.plan_html p); Evaluate; Mkdir (dirname w path);
      Screenshot (OStr path) (Some (RenderSnippet.clipOf r)) false;
      BrowserClose; StdoutWrite ("Wrote " ++ path ++ nl)]).
Proof.
  intros Hrej Hframe Hout.
  run_unfold; run_reduce. rewrite !Hrej. run_reduce.
  rewrite Hframe, Hout. run_reduce. rewrite !Hrej. reflexivity.
Qed.

(** An output option that is not the bare flag gives a path. *)
Lemma orDefault_text (v : option optval) (d : string) :
  v <> Some OTrue -> exists s, orDefault v d = OStr s.
Proof.
  intros H. destruct v as [[|s]|]; [now contradiction H | |]; unfold orDefault; simpl.
  - destruct (String.eqb s EmptyString); eexists; reflexivity.
  - eexists; reflexivity.
Qed.

(** A run on empty code goes as a run on any other code. *)
Lemma empty_code_renders (opts : RenderSnippet.Opts) :
  (forall c, rejects w c = None) ->
  truthy (RenderSnippet.opt_help opts) = false ->
  ~ (truthy (RenderSnippet.opt_input opts) = false
     /\ RenderSnippet.opt_positional opts = []
     /\ stdin_isTTY w = true) ->
  stdin_text w = EmptyString ->
  (forall path, file_text w path = EmptyString) ->
  (forall html, frameRect w html <> None) ->
  RenderSnippet.opt_output opts <> Some OTrue ->
  snd (RenderSnippet.run w opts) = 0%Z
  /\ In (CodeToHtml EmptyString
           (RenderSnippet.resolveLanguage w
              (orDefault (RenderSnippet.opt_lang opts) RenderSnippet.DEFAULTS.lang)
              RenderSnippet.DEFAULTS.lang)
           (RenderSnippet.resolveTheme w
              (orDefault (RenderSnippet.opt_theme opts) RenderSnippet.DEFAULTS.theme)
              RenderSnippet.DEFAULTS.theme))
        (fst (RenderSnippet.run w opts))
  /\ In (SetViewport
           (max (Double.add (RenderSnippet.widthOf w opts)
                            (Double.mul (RenderSnippet.paddingOf w opts) (ofZ 2)))
                (ofZ 320))
           (max (RenderSnippet.estimatedHeightOf EmptyString
                   (RenderSnippet.fontSizeOf w opts) (RenderSnippet.paddingOf w opts))
                (ofZ 480))
           (RenderSnippet.scaleOf w opts))
        (fst (RenderSnippet.run w opts))
  /\ exists r,
       In (Screenshot
             (orDefault (RenderSnippet.opt_output opts) RenderSnippet.DEFAULTS.output)
             (Some (RenderSnippet.clipOf r)) false)
          (fst (RenderSnippet.run w opts)).
Proof.
  intros Hrej Hhelp Hinput Hstdin Hfile Hframe Hout.
  destruct (prepare_calls w opts Hrej Hinput) as (p & read & code0 & Hp & _).
  cbv zeta in Hp.
  destruct (prepare_plan w opts p _ Hp)
    as (code & Hcode & Hsrc & _ & Hwidth & Hheight & Hscale & Hpath).
  cbv zeta in Hcode.
  assert (Hempty : code = EmptyString).
  { destruct Hsrc as [->|[path ->]]; [exact Hstdin | apply Hfile]. }
  subst code.
  destruct (orDefault_text _ RenderSnippet.DEFAULTS.output Hout) as [path Hpath'].
  rewrite Hpath' in *.
  destruct (frameRect w (Phases.plan_html p)) as [r|] eqn:Hr;
    [|now apply Hframe in Hr].
  pose proof (session_succeeds p r path Hrej Hr Hpath) as Hs.
  rewrite run_phases, Hhelp, Hp, Hs. cbn [fst snd].
  split; [reflexivity|]. split; [|split].
  - apply in_or_app. left. exact Hcode.
  - apply in_or_app. right. rewrite Hwidth, Hheight, Hscale. in_solve.
  - exists r. apply in_or_app. right. in_solve.
Qed.

Local Open Scope Q_scope.

(** [C10] Amended.  The code is sized by its newline characters plus one:
    the empty code counts one line and a trailing newline counts one line
    more.  The estimate of the empty code is positive when the font size
    and the padding are not negative, and a run on empty code that has an
    input, in which no call fails and the frame is found, highlights the
    empty code, sets the viewport of its estimate, captures the frame and
    exits with status 0.  A trailing newline raises the estimate when the
    font size is from 1 to 4096, the padding between -4096 and 4096 and the
    lines fewer than [2^30]. *)
Theorem lineCount_is_newlines_plus_one (code : string) :
  RenderSnippet.lineCountOf code = (count newline code + 1)%nat
  /\ RenderSnippet.lineCountOf EmptyString = 1%nat
  /\ RenderSnippet.lineCountOf (code ++ nl)
     = (RenderSnippet.lineCountOf code + 1)%nat
  /\ (forall f p : Q, 0 <= f -> 0 <= p ->
        lt (ofZ 0) (RenderSnippet.estimatedHeightOf EmptyString (Finite f) (Finite p)))
  /\ (forall opts : RenderSnippet.Opts,
        (forall c, rejects w c = None) ->
        truthy (RenderSnippet.opt_help opts) = false ->
        ~ (truthy (RenderSnippet.opt_input opts) = false
           /\ RenderSnippet.opt_positional opts = []
           /\ stdin_isTTY w = true) ->
        stdin_text w = EmptyString ->
        (forall path, file_text w path = EmptyString) ->
        (forall html, frameRect w html <> None) ->
        RenderSnippet.opt_output opts <> Some OTrue ->
        snd (RenderSnippet.run w opts) = 0%Z
        /\ In (CodeToHtml EmptyString
                 (RenderSnippet.resolveLanguage w
                    (orDefault (RenderSnippet.opt_lang opts) RenderSnippet.DEFAULTS.lang)
                    RenderSnippet.DEFAULTS.lang)
                 (RenderSnippet.resolveTheme w
                    (orDefault (RenderSnippet.opt_theme opts)
                               RenderSnippet.DEFAULTS.theme)
                    RenderSnippet.DEFAULTS.theme))
              (fst (RenderSnippet.run w opts))
        /\ In (SetViewport
                 (max (Double.add (RenderSnippet.widthOf w opts)
                                  (Double.mul (RenderSnippet.paddingOf w opts) (ofZ 2)))
                      (ofZ 320))
                 (max (RenderSnippet.estimatedHeightOf EmptyString
                         (RenderSnippet.fontSizeOf w opts)
                         (RenderSnippet.paddingOf w opts))
                      (ofZ 480))
                 (RenderSnippet.scaleOf w opts))
              (fst (RenderSnippet.run w opts))
        /\ exists r,
             In (Screenshot
                   (orDefault (RenderSnippet.opt_output opts)
                              RenderSnippet.DEFAULTS.output)
                   (Some (RenderSnippet.clipOf r)) false)
                (fst (RenderSnippet.run w opts)))
  /\ (forall f p : Q,
        1 <= f <= 4096 -> - 4096 <= p <= 4096 ->
        (Z.of_nat (RenderSnippet.lineCountOf code) < 2 ^ 30)%Z ->
        lt (RenderSnippet.estimatedHeightOf code (Finite f) (Finite p))
           (RenderSnippet.estimatedHeightOf (code ++ nl) (Finite f) (Finite p))).
Proof.
  assert (Hcount : forall s, RenderSnippet.lineCountOf s = (count newline s + 1)%nat).
  { intros s. apply split_length. }
  assert (Hnl : RenderSnippet.lineCountOf (code ++ nl)
                = (RenderSnippet.lineCountOf code + 1)%nat).
  { rewrite !Hcount, count_app. reflexivity. }
  split; [apply Hcount|]. split; [reflexivity|]. split; [exact Hnl|].
  split; [|split].
  - intros f p Hf Hp. now apply empty_estimate_positive.
  - apply empty_code_renders.
  - intros f p Hf Hp Hn.
    unfold RenderSnippet.estimatedHeightOf. rewrite Hnl.
    apply estimate_grows; [exact Hf | exact Hp | lia].
Qed.

End LineCount.

(** ** The command line *)

Section CommandLine.

(** Induction on a list whose step may also use the tail of the tail. *)
Lemma list_ind_two (A : Type) (P : list A -> Prop) :
  P [] ->
  (forall a l, P l -> (forall b l', l = b :: l' -> P l') -> P (a :: l)) ->
  forall l, P l.
Proof.
  intros Hnil Hcons l.
  assert (H : P l /\ (forall b l', l = b :: l' -> P l')).
  { induction l as [|a l [IH1 IH2]].
    - split; [exact Hnil | discriminate].
    - split; [now apply Hcons|]. intros b l' E. injection E as _ <-. exact IH1. }
  exact (proj1 H).
Qed.

Lemma isFlag_slice2 (arg : string) :
  Args.isFlag arg = true -> arg = "--" ++ Args.slice2 arg.
Proof.
  unfold Args.isFlag.
  destruct arg as [|a [|b rest]]; cbn [prefixb]; intros H.
  - discriminate H.
  - rewrite andb_false_r in H. discriminate H.
  - apply andb_true_iff in H as [Ha H]. apply andb_true_iff in H as [Hb _].
    apply Ascii.eqb_eq in Ha, Hb. now subst.
Qed.

Lemma parseFrom_values (all argv : list string) :
  forall opts p,
    incl argv all ->
    (forall k v, Args.lookup k (Args.flags opts) = Some v -> Args.valueOk all v) ->
    Args.parseFrom argv opts = Returns p ->
    forall k v, Args.lookup k (Args.flags p) = Some v -> Args.valueOk all v.
Proof.
  induction argv as [|arg rest IH1 IH2] using list_ind_two;
    intros opts p Hincl Hopts Hparse.
  - injection Hparse as <-. exact Hopts.
  - assert (Hassign : forall key value,
               Args.valueOk all value ->
               forall k v, Args.lookup k (Args.flags (Args.assign key value opts)) = Some v ->
                           Args.valueOk all v).
    { intros key value Hv k v. unfold Args.assign.
      destruct (String.eqb key "_"); [apply Hopts|].
      destruct (String.eqb key "__proto__"); [apply Hopts|].
      simpl. destruct (String.eqb key k); [|apply Hopts].
      intros E. injection E as <-. exact Hv. }
    cbn [Args.parseFrom] in Hparse.
    destruct (Args.isFlag arg) eqn:Harg.
    + destruct rest as [|next rest'].
      * injection Hparse as <-. now apply Hassign.
      * destruct (String.eqb next EmptyString || Args.isFlag next) eqn:Hnext.
        -- eapply IH1; [ | | exact Hparse]; [|now apply Hassign].
           intros x Hx. apply Hincl. now right.
        -- apply orb_false_iff in Hnext as [Hne Hnf].
           eapply (IH2 next rest' eq_refl); [ | | exact Hparse].
           ++ intros x Hx. apply Hincl. right. now right.
           ++ apply Hassign. simpl. split; [now apply String.eqb_neq|].
              split; [exact Hnf|]. apply Hincl. right. now left.
    + unfold Args.push in Hparse.
      destruct (Args.under opts); [|discriminate Hparse].
      eapply IH1; [ | | exact Hparse]; [|exact Hopts].
      intros x Hx. apply Hincl. now right.
Qed.

(** [X10] The value [parseArgs] stores for a flag is [true] or an argument that is
    not empty and does not begin with two dashes; so a flag is truthy as
    soon as it was given. *)
Theorem parsed_flag_values (argv : list string) (p : Args.Parsed) (key : string) :
  Args.parseArgs argv = Returns p ->
  (forall v, Args.get key p = Some v -> Args.valueOk argv v)
  /\ (truthy (Args.get key p) = true <-> Args.get key p <> None).
Proof.
  intros H.
  assert (Hv : forall v, Args.get key p = Some v -> Args.valueOk argv v).
  { intros v. apply (parseFrom_values argv argv Args.empty p); try assumption.
    - intros x Hx. exact Hx.
    - intros k v' F. discriminate F. }
  split; [exact Hv|].
  destruct (Args.get key p) as [[|s]|] eqn:E; simpl.
  - split; [discriminate | reflexivity].
  - destruct (Hv _ eq_refl) as [Hne _]. apply String.eqb_neq in Hne.
    rewrite Hne. split; [discriminate | reflexivity].
  - split; [discriminate | intros F; now contradiction F].
Qed.

Lemma parseFrom_positional (argv args : list string) (fl : list (string * optval)) :
  Forall (fun a => Args.isFlag a = false) argv ->
  Args.parseFrom argv {| Args.flags := fl; Args.under := Args.Positional args |}
  = Returns {| Args.flags := fl; Args.under := Args.Positional (args ++ argv) |}.
Proof.
  intros H. revert args. induction H as [|a argv Ha _ IH]; intros args.
  - now rewrite app_nil_r.
  - cbn [Args.parseFrom]. rewrite Ha. unfold Args.push. cbn [Args.under Args.flags].
    rewrite IH, <- app_assoc. reflexivity.
Qed.

(** [X11] Arguments of which none begins with two dashes are the positional
    arguments, in their order, and set no flag. *)
Theorem positional_arguments_kept (argv : list string) :
  Forall (fun a => Args.isFlag a = false) argv ->
  Args.parseArgs argv
  = Returns {| Args.flags := []; Args.under := Args.Positional argv |}.
Proof.
  intros H. unfold Args.parseArgs, Args.empty.
  now rewrite parseFrom_positional.
Qed.

Lemma parseFrom_encode (pairs : list (string * string)) (rest : list string) :
  Forall Args.pairOk pairs ->
  forall opts,
    Args.parseFrom (Args.encode pairs ++ rest) opts
    = Args.parseFrom rest
        {| Args.flags :=
             (rev (map (fun kv => (fst kv, OStr (snd kv))) pairs)
              ++ Args.flags opts)%list;
           Args.under := Args.under opts |}.
Proof.
  intros H. induction H as [|[k v] pairs (Hk1 & Hk2 & Hv1 & Hv2) _ IH]; intros opts.
  - simpl. now destruct opts.
  - cbn [Args.encode flat_map fst snd app] in *. cbn [Args.parseFrom].
    change (Args.isFlag ("--" ++ k)) with true. cbv iota.
    apply String.eqb_neq in Hv1. rewrite Hv1, Hv2. cbn [orb].
    change (Args.slice2 ("--" ++ k)) with k.
    fold (Args.encode pairs). rewrite IH. f_equal. unfold Args.assign.
    apply String.eqb_neq in Hk1, Hk2. rewrite Hk1, Hk2.
    cbn [Args.flags Args.under map rev]. now rewrite <- app_assoc.
Qed.

(** [X12] Flags written with their values are read back: the record has exactly
    these flags, the latest first, so that of two values for one key the
    later one is read, and no positional argument. *)
Theorem encoded_flags_read_back
  (pairs : list (string * string)) (key value : string) :
  Forall Args.pairOk pairs ->
  Args.parseArgs (Args.encode pairs)
  = Returns {| Args.flags := rev (map (fun kv => (fst kv, OStr (snd kv))) pairs);
               Args.under := Args.Positional [] |}
  /\ (Args.pairOk (key, value) ->
      forall p, Args.parseArgs (Args.encode (pairs ++ [(key, value)])) = Returns p ->
                Args.get key p = Some (OStr value)).
Proof.
  intros H. split.
  - unfold Args.parseArgs.
    rewrite <- (app_nil_r (Args.encode pairs)), parseFrom_encode by assumption.
    cbn [Args.parseFrom Args.empty Args.flags Args.under]. now rewrite app_nil_r.
  - intros Hkv p Hp.
    assert (Hall : Forall Args.pairOk (pairs ++ [(key, value)])).
    { apply Forall_app. split; [assumption | now constructor]. }
    unfold Args.parseArgs in Hp.
    rewrite <- (app_nil_r (Args.encode _)), parseFrom_encode in Hp by assumption.
    cbn [Args.parseFrom] in Hp. injection Hp as <-.
    unfold Args.get. cbn [Args.flags Args.empty].
    rewrite map_app, rev_app_distr. cbn [map rev app fst snd Args.lookup].
    now rewrite String.eqb_refl.
Qed.

Lemma get_assign_help (key : string) (value : optval) (opts : Args.Parsed) :
  truthy (Some value) = true ->
  key = "help" \/ truthy (Args.get "help" opts) = true ->
  truthy (Args.get "help" (Args.assign key value opts)) = true.
Proof.
  intros Hv H. unfold Args.assign, Args.get.
  destruct H as [->|H].
  - cbn. exact Hv.
  - destruct (String.eqb key "_"); [exact H|].
    destruct (String.eqb key "__proto__"); [exact H|].
    cbn [Args.flags Args.lookup].
    destruct (String.eqb key "help"); [exact Hv | exact H].
Qed.

Lemma parseFrom_help (argv : list string) :
  forall opts p,
    In "--help" argv \/ truthy (Args.get "help" opts) = true ->
    Args.parseFrom argv opts = Returns p ->
    truthy (Args.get "help" p) = true.
Proof.
  induction argv as [|arg rest IH1 IH2] using list_ind_two; intros opts p H Hparse.
  - injection Hparse as <-. destruct H as [[]|H]. exact H.
  - cbn [Args.parseFrom] in Hparse.
    assert (Hhere : arg = "--help" -> Args.slice2 arg = "help") by (now intros ->).
    destruct (Args.isFlag arg) eqn:Harg.
    + assert (Hset : forall value, truthy (Some value) = true ->
                 (arg = "--help" \/ truthy (Args.get "help" opts) = true) ->
                 truthy (Args.get "help" (Args.assign (Args.slice2 arg) value opts)) = true).
      { intros value Hv [E|E]; apply get_assign_help; auto. }
      destruct rest as [|next rest'].
      * injection Hparse as <-. apply Hset; [reflexivity|].
        destruct H as [[H|[]]|H]; auto.
      * destruct (String.eqb next EmptyString || Args.isFlag next) eqn:Hnext.
        -- eapply IH1; [|exact Hparse].
           destruct H as [[H|H]|H]; [right | now left | right];
             apply Hset; auto.
        -- apply orb_false_iff in Hnext as [Hne Hnf].
           eapply (IH2 next rest' eq_refl); [|exact Hparse].
           assert (Hv : truthy (Some (OStr next)) = true) by (simpl; now rewrite Hne).
           destruct H as [[H|[H|H]]|H].
           ++ right. apply Hset; auto.
           ++ subst next. discriminate Hnf.
           ++ now left.
           ++ right. apply Hset; auto.
    + unfold Args.push in Hparse.
      destruct (Args.under opts) eqn:Hu; [|discriminate Hparse].
      eapply IH1; [|exact Hparse].
      destruct H as [[H|H]|H]; [subst arg; discriminate Harg | now left | now right].
Qed.

Lemma parseFrom_returns (argv : list string) :
  (forall a, In a argv -> a <> "--_") ->
  forall opts args,
    Args.under opts = Args.Positional args ->
    exists p, Args.parseFrom argv opts = Returns p.
Proof.
  induction argv as [|arg rest IH1 IH2] using list_ind_two; intros Hno opts args Hu.
  - now exists opts.
  - cbn [Args.parseFrom].
    assert (Hrest : forall a, In a rest -> a <> "--_")
      by (intros a Ha; apply Hno; now right).
    destruct (Args.isFlag arg) eqn:Harg.
    + assert (Hkeep : forall value,
                 Args.under (Args.assign (Args.slice2 arg) value opts)
                 = Args.Positional args).
      { intros value. unfold Args.assign.
        destruct (String.eqb (Args.slice2 arg) "_") eqn:E.
        - exfalso. apply String.eqb_eq in E.
          apply (Hno arg); [now left|].
          rewrite (isFlag_slice2 arg Harg), E. reflexivity.
        - destruct (String.eqb _ "__proto__"); exact Hu. }
      destruct rest as [|next rest']; [now eexists|].
      destruct (String.eqb next EmptyString || Args.isFlag next).
      * now apply (IH1 Hrest _ args).
      * apply (IH2 next rest' eq_refl) with (args := args); [|apply Hkeep].
        intros a Ha. apply Hrest. now right.
    + unfold Args.push. rewrite Hu. now apply (IH1 Hrest _ (args ++ [arg])%list).
Qed.

Lemma parseFrom_throws (argv : list string) :
  forall opts e, Args.parseFrom argv opts = Throws e -> e = Args.pushError.
Proof.
  induction argv as [|arg rest IH1 IH2] using list_ind_two; intros opts e H.
  - discriminate H.
  - cbn [Args.parseFrom] in H.
    destruct (Args.isFlag arg).
    + destruct rest as [|next rest']; [discriminate H|].
      destruct (String.eqb next EmptyString || Args.isFlag next).
      * now apply IH1 in H.
      * now apply (IH2 next rest' eq_refl) in H.
    + unfold Args.push in H.
      destruct (Args.under opts).
      * now apply IH1 in H.
      * now injection H as <-.
Qed.

Section WithWorld.

Variable w : World.

(** [X13] With [--help] anywhere on a command line that has no flag named [_],
    the run writes the help text and does nothing else: it reads no input
    and launches no browser, whatever the other arguments are. *)
Theorem help_flag_wins (argv : list string) :
  In "--help" argv ->
  (forall a, In a argv -> a <> "--_") ->
  rejects w (StdoutWrite (String.concat nl RenderSnippet.helpLines ++ nl)) = None ->
  Args.run w argv
  = ([StdoutWrite (String.concat nl RenderSnippet.helpLines ++ nl)], 0%Z).
Proof.
  intros Hhelp Hno Hout.
  destruct (parseFrom_returns argv Hno Args.empty [] eq_refl) as [p Hp].
  assert (Ht : truthy (Args.get "help" p) = true)
    by (apply (parseFrom_help argv Args.empty p); auto).
  unfold Args.run, Args.mainArgv, Args.parseArgs. rewrite Hp.
  unfold catchExit, RenderSnippet.main. cbn [RenderSnippet.opt_help Args.optsOf].
  rewrite Ht. unfold RenderSnippet.showHelp, perform. rewrite Hout. reflexivity.
Qed.

(** [X14] [parseArgs] fails only on a command line with a flag named [_], with
    the type error of a push on what is no array; the run then makes no
    call, reports the error and exits with status 1. *)
Theorem parse_fails_only_on_underscore_flag (argv : list string) (e : string) :
  Args.parseArgs argv = Throws e ->
  In "--_" argv
  /\ e = Args.pushError
  /\ Args.run w argv = ([StderrWrite (Args.pushError ++ nl); Exit 1], 1%Z).
Proof.
  intros H. split; [|split].
  - destruct (in_dec string_dec "--_" argv) as [Hin|Hnot]; [exact Hin|].
    exfalso.
    destruct (parseFrom_returns argv) with (opts := Args.empty) (args := @nil string)
      as [p Hp]; [|reflexivity|].
    + intros a Ha E. subst a. contradiction.
    + unfold Args.parseArgs in H. congruence.
  - now apply parseFrom_throws in H.
  - unfold Args.run, Args.mainArgv. rewrite H.
    apply parseFrom_throws in H. subst e. reflexivity.
Qed.

End WithWorld.

End CommandLine.

(** ** The helpers of the reel generator *)

Section Timestamps.

Local Open Scope nat_scope.

Lemma below_100 (P : nat -> bool) :
  forallb P (seq 0 100) = true -> forall n, n < 100 -> P n = true.
Proof.
  intros H n Hn. rewrite forallb_forall in H. apply H. apply in_seq. lia.
Qed.

Lemma twoDigits_length (n : nat) : n < 100 -> String.length (Reel.twoDigits n) = 2.
Proof.
  intros Hn.
  apply Nat.eqb_eq.
  apply (below_100 (fun n => String.length (Reel.twoDigits n) =? 2)); [|exact Hn].
  vm_compute. reflexivity.
Qed.

Lemma twoDigits_compare (n m : nat) :
  n < 100 -> m < 100 -> String.compare (Reel.twoDigits n) (Reel.twoDigits m) = Nat.compare n m.
Proof.
  intros Hn Hm.
  assert (H : forallb (fun n => forallb (fun m =>
                match String.compare (Reel.twoDigits n) (Reel.twoDigits m), Nat.compare n m with
                | Eq, Eq | Lt, Lt | Gt, Gt => true
                | _, _ => false
                end) (seq 0 100)) (seq 0 100) = true) by (vm_compute; reflexivity).
  apply below_100 with (n := n) in H; [|exact Hn].
  apply below_100 with (n := m) in H; [|exact Hm].
  destruct (String.compare _ _), (Nat.compare n m); congruence.
Qed.

Lemma twoDigits_injective (n m : nat) :
  n < 100 -> m < 100 -> Reel.twoDigits n = Reel.twoDigits m -> n = m.
Proof.
  intros Hn Hm H. apply Nat.compare_eq.
  rewrite <- twoDigits_compare by assumption. rewrite H.
  rewrite twoDigits_compare by assumption. apply Nat.compare_refl.
Qed.

Lemma append_length (a b : string) :
  String.length (a ++ b) = String.length a + String.length b.
Proof. induction a as [|c a IH]; simpl; [reflexivity | now rewrite IH]. Qed.

Lemma append_inj_head (a a' b b' : string) :
  String.length a = String.length a' -> a ++ b = a' ++ b' -> a = a' /\ b = b'.
Proof.
  revert a'. induction a as [|c a IH]; intros [|c' a'] Hlen H;
    try discriminate Hlen.
  - now split.
  - simpl in H. injection H as -> H. injection Hlen as Hlen.
    destruct (IH a' Hlen H) as [-> ->]. now split.
Qed.

Lemma append_inj_tail (a a' b b' : string) :
  String.length b = String.length b' -> a ++ b = a' ++ b' -> a = a' /\ b = b'.
Proof.
  intros Hlen H. apply append_inj_head; [|exact H].
  apply (f_equal String.length) in H. rewrite !append_length in H. lia.
Qed.

Lemma compare_append (a a' b b' : string) :
  String.length a = String.length a' ->
  String.compare (a ++ b) (a' ++ b')
  = match String.compare a a' with
    | Eq => String.compare b b'
    | c => c
    end.
Proof.
  revert a'. induction a as [|c a IH]; intros [|c' a'] Hlen;
    try discriminate Hlen.
  - reflexivity.
  - injection Hlen as Hlen. simpl.
    destruct (Ascii.compare c c'); try reflexivity. now apply IH.
Qed.

Lemma compare_same_head (a b b' : string) :
  String.compare (a ++ b) (a ++ b') = String.compare b b'.
Proof.
  induction a as [|c a IH]; simpl; [reflexivity|].
  assert (E : Ascii.compare c c = Eq).
  { unfold Ascii.compare. apply N.compare_refl. }
  now rewrite E.
Qed.

Lemma showZ_injective (a b : Z) : Reel.showZ a = Reel.showZ b -> a = b.
Proof.
  assert (Hnil : forall z, Z.to_int z <> Decimal.Pos Decimal.Nil
                           /\ Z.to_int z <> Decimal.Neg Decimal.Nil).
  { intros z. split; intros E; pose proof (f_equal Z.of_int E) as E';
      rewrite DecimalZ.of_to in E'; simpl in E'; subst z;
      vm_compute in E; discriminate E. }
  unfold Reel.showZ. intros H. apply DecimalZ.to_int_inj.
  apply (f_equal NilZero.int_of_string) in H.
  destruct (Hnil a) as [Ha1 Ha2], (Hnil b) as [Hb1 Hb2].
  rewrite !NilZero.isi in H by assumption. now injection H.
Qed.

Lemma folder_tail (c : Reel.Clock) :
  Reel.getTimestampedFolder c
  = "output_" ++ Reel.showZ (Reel.fullYear c) ++ Reel.afterYear c.
Proof. reflexivity. Qed.

Lemma tail_length (c : Reel.Clock) :
  Reel.inRange c -> String.length (Reel.afterYear c) = 11.
Proof.
  intros (Hm & Hd & Hh & Hmi & Hs). unfold Reel.afterYear.
  rewrite !append_length, !twoDigits_length by lia. cbn. lia.
Qed.

(** [X15] The name of the output folder is [output_], the year, and
    eleven more characters: month, day, hour, minute and second on two
    digits each, with an underscore after the day.  Two dates have the
    same name only when they are the same to the second. *)
Theorem folder_name_injective (a b : Reel.Clock) :
  Reel.inRange a -> Reel.inRange b ->
  String.length (Reel.getTimestampedFolder a)
  = 18 + String.length (Reel.showZ (Reel.fullYear a))
  /\ (Reel.getTimestampedFolder a = Reel.getTimestampedFolder b -> a = b).
Proof.
  intros Ha Hb. split.
  - rewrite folder_tail, !append_length, tail_length by assumption. cbn. lia.
  - rewrite !folder_tail. intros H.
    apply append_inj_head in H as [_ H]; [|reflexivity].
    apply append_inj_tail in H as [Hy H];
      [|now rewrite !tail_length by assumption].
    apply showZ_injective in Hy.
    destruct Ha as (Hm & Hd & Hh & Hmi & Hs), Hb as (Hm' & Hd' & Hh' & Hmi' & Hs').
    unfold Reel.afterYear in H.
    apply append_inj_head in H as [E1 H];
      [|now rewrite !twoDigits_length by lia].
    apply append_inj_head in H as [E2 H];
      [|now rewrite !twoDigits_length by lia].
    apply append_inj_head in H as [_ H]; [|reflexivity].
    apply append_inj_head in H as [E3 H];
      [|now rewrite !twoDigits_length by lia].
    apply append_inj_head in H as [E4 E5];
      [|now rewrite !twoDigits_length by lia].
    apply twoDigits_injective in E1, E2, E3, E4, E5; try lia.
    destruct a, b; simpl in *. f_equal; lia.
Qed.

(** [X16] The names of the folders of one year sort as their dates do. *)
Theorem folder_names_sort_in_year (a b : Reel.Clock) :
  Reel.inRange a -> Reel.inRange b ->
  Reel.fullYear a = Reel.fullYear b ->
  String.compare (Reel.getTimestampedFolder a) (Reel.getTimestampedFolder b)
  = Reel.compareInYear a b.
Proof.
  intros (Hm & Hd & Hh & Hmi & Hs) (Hm' & Hd' & Hh' & Hmi' & Hs') Hy.
  rewrite !folder_tail, Hy.
  rewrite (compare_same_head "output_"), compare_same_head.
  unfold Reel.afterYear, Reel.compareInYear.
  rewrite compare_append by (now rewrite !twoDigits_length by lia).
  rewrite twoDigits_compare by lia.
  rewrite !Nat.add_1_r, Nat.compare_succ.
  destruct (Nat.compare (Reel.month a) (Reel.month b)); try reflexivity.
  rewrite compare_append by (now rewrite !twoDigits_length by lia).
  rewrite twoDigits_compare by lia.
  destruct (Nat.compare (Reel.date a) (Reel.date b)); try reflexivity.
  rewrite (compare_same_head "_").
  rewrite compare_append by (now rewrite !twoDigits_length by lia).
  rewrite twoDigits_compare by lia.
  destruct (Nat.compare (Reel.hours a) (Reel.hours b)); try reflexivity.
  rewrite compare_append by (now rewrite !twoDigits_length by lia).
  rewrite !twoDigits_compare by lia.
  reflexivity.
Qed.

End Timestamps.

(** ** The segment cut from the background video *)

Section Segment.

Local Open Scope Q_scope.


End Segment.

(** ** The fences around the answer of the model *)

Section Fences.

Local Open Scope nat_scope.

Lemma removeFences_skip (f : string) (k : nat) (s : string) :
  Reel.removeFences f k s = Reel.removeFences f 0 (Reel.drop k s).
Proof.
  revert k. induction s as [|c s IH]; intros [|k]; try reflexivity.
  cbn [Reel.removeFences Reel.drop]. apply IH.
Qed.

Lemma drop_length (k : nat) (s : string) :
  String.length (Reel.drop k s) <= String.length s.
Proof.
  revert k. induction s as [|c s IH]; intros [|k]; simpl; try lia.
  specialize (IH k). lia.
Qed.

(** One step of the removal of the fence of three backticks. *)
Lemma removeFences_step (c : ascii) (rest : string) :
  (prefixb Reel.fence (String c rest) = true
   /\ exists k, Reel.removeFences Reel.fence 0 (String c rest)
                = Reel.removeFences Reel.fence 0 (Reel.drop k rest))
  \/ (prefixb Reel.fence (String c rest) = false
      /\ Reel.removeFences Reel.fence 0 (String c rest)
         = String c (Reel.removeFences Reel.fence 0 rest)).
Proof.
  cbn [Reel.removeFences].
  destruct (prefixb Reel.fence (String c rest)); [left | right]; split; try reflexivity.
  eexists. apply removeFences_skip.
Qed.

Lemma prefixb_fence_head (c : ascii) (s : string) :
  prefixb Reel.fence (String c s) = true ->
  c = "`"%char /\ prefixb "``" s = true.
Proof.
  unfold Reel.fence. cbn [prefixb]. intros H.
  apply andb_true_iff in H as [Hc H]. apply Ascii.eqb_eq in Hc. now subst.
Qed.

Lemma prefixb_two_head (c : ascii) (s : string) :
  prefixb "``" (String c s) = true -> c = "`"%char /\ prefixb "`" s = true.
Proof.
  cbn [prefixb]. intros H.
  apply andb_true_iff in H as [Hc H]. apply Ascii.eqb_eq in Hc. now subst.
Qed.

Lemma prefixb_weaken (s : string) :
  prefixb Reel.fence s = true -> prefixb "``" s = true /\ prefixb "`" s = true.
Proof.
  destruct s as [|a [|b [|c s]]]; unfold Reel.fence; cbn [prefixb]; intros H;
    rewrite ?andb_false_r in H; try discriminate H.
  apply andb_true_iff in H as [Ha H]. apply andb_true_iff in H as [Hb _].
  rewrite Ha, Hb. now split.
Qed.

(** What is left has no fence, and begins with backticks only where the
    text did. *)
Lemma removeFences_invariant (n : nat) :
  forall s, String.length s <= n ->
    let r := Reel.removeFences Reel.fence 0 s in
    occursb Reel.fence r = false
    /\ (prefixb "``" r = true -> prefixb "``" s = true)
    /\ (prefixb "`" r = true -> prefixb "`" s = true).
Proof.
  induction n as [|n IH]; intros s Hlen; cbv zeta.
  - destruct s; [|simpl in Hlen; lia]. repeat split; intros; assumption.
  - destruct s as [|c rest]; [repeat split; intros; assumption|].
    simpl in Hlen.
    destruct (removeFences_step c rest) as [[Hp [k Hk]]|[Hp Hk]]; rewrite Hk.
    + destruct (IH (Reel.drop k rest)) as (H1 & _ & _).
      { pose proof (drop_length k rest). lia. }
      split; [exact H1|].
      destruct (prefixb_weaken _ Hp) as [P2 P1]. now split.
    + destruct (IH rest) as (H1 & H2 & H3); [lia|].
      split; [|split].
      * cbn [occursb]. rewrite H1, orb_false_r.
        destruct (prefixb Reel.fence
                    (String c (Reel.removeFences Reel.fence 0 rest))) eqn:E;
          [|reflexivity].
        apply prefixb_fence_head in E as [-> E]. apply H2 in E.
        unfold Reel.fence in Hp. cbn [prefixb] in Hp, E.
        rewrite Ascii.eqb_refl in Hp. cbn [andb] in Hp. congruence.
      * intros E. apply prefixb_two_head in E as [-> E]. apply H3 in E.
        cbn [prefixb]. now rewrite Ascii.eqb_refl.
      * intros E. cbn [prefixb] in *. exact E.
Qed.

(** [X18] The text handed to [JSON.parse] has no run of three backticks,
    whatever the model answered. *)
Theorem cleaned_text_has_no_fence (trim : string -> string) (text : string) :
  occursb Reel.fence (Reel.cleanText trim text) = false.
Proof.
  unfold Reel.cleanText, Reel.stripFences.
  exact (proj1 (removeFences_invariant _ _ (Nat.le_refl _))).
Qed.

Lemma occursb_cons_false (x : string) (c : ascii) (s : string) :
  occursb x (String c s) = false ->
  prefixb x (String c s) = false /\ occursb x s = false.
Proof. cbn [occursb]. intros H. now apply orb_false_iff in H. Qed.

Lemma prefixb_jsonFence (s : string) :
  prefixb Reel.fence s = false -> prefixb Reel.jsonFence s = false.
Proof.
  unfold Reel.fence, Reel.jsonFence.
  destruct s as [|a [|b [|c s]]]; cbn [prefixb]; intros H;
    rewrite ?andb_false_r; try reflexivity.
  rewrite andb_true_r in H.
  destruct (Ascii.eqb "`" a); [|reflexivity].
  destruct (Ascii.eqb "`" b); [|reflexivity].
  cbn [andb] in *. now rewrite H.
Qed.

Lemma removeFences_id (f : string) (s : string) :
  (forall t, prefixb Reel.fence t = false -> prefixb f t = false) ->
  occursb Reel.fence s = false -> Reel.removeFences f 0 s = s.
Proof.
  intros Hf. induction s as [|c s IH]; intros H; [reflexivity|].
  apply occursb_cons_false in H as [Hp Ho].
  cbn [Reel.removeFences]. rewrite (Hf _ Hp), IH by assumption. reflexivity.
Qed.

(** [X19] A text with no run of three backticks is left as it is. *)
Theorem fence_free_text_unchanged (s : string) :
  occursb Reel.fence s = false -> Reel.stripFences s = s.
Proof.
  intros H. unfold Reel.stripFences.
  rewrite (removeFences_id Reel.jsonFence) by (auto using prefixb_jsonFence).
  now apply removeFences_id.
Qed.

(** [X20] Stripping the fences twice is stripping them once. *)
Theorem stripFences_idempotent (s : string) :
  Reel.stripFences (Reel.stripFences s) = Reel.stripFences s.
Proof.
  assert (H : occursb Reel.fence (Reel.stripFences s) = false)
    by exact (proj1 (removeFences_invariant _ _ (Nat.le_refl _))).
  unfold Reel.stripFences at 1.
  rewrite (removeFences_id Reel.jsonFence) by (auto using prefixb_jsonFence).
  now apply removeFences_id.
Qed.

(** A fence is not completed by the closing line of the answer. *)
Lemma prefixb_fence_closing (c : ascii) (s : string) :
  prefixb Reel.fence (String c s) = false ->
  prefixb Reel.fence (String c s ++ nl ++ Reel.fence) = false.
Proof.
  unfold Reel.fence.
  destruct s as [|b [|d s]]; cbn [prefixb append]; intros H.
  - destruct (Ascii.eqb "`" c); reflexivity.
  - destruct (Ascii.eqb "`" c); [|reflexivity].
    destruct (Ascii.eqb "`" b); reflexivity.
  - exact H.
Qed.

Lemma removeFences_closing (f : string) (s : string) :
  (forall t, prefixb Reel.fence t = false -> prefixb f t = false) ->
  occursb Reel.fence s = false ->
  Reel.removeFences f 0 (s ++ nl ++ Reel.fence)
  = s ++ Reel.removeFences f 0 (nl ++ Reel.fence).
Proof.
  intros Hf. induction s as [|c s IH]; intros H; [reflexivity|].
  apply occursb_cons_false in H as [Hp Ho].
  change (String c s ++ nl ++ Reel.fence)
    with (String c (s ++ nl ++ Reel.fence)) at 1.
  cbn [Reel.removeFences].
  change (String c (s ++ nl ++ Reel.fence))
    with (String c s ++ nl ++ Reel.fence).
  rewrite (Hf _ (prefixb_fence_closing c s Hp)), IH by assumption. reflexivity.
Qed.

(** [X21] An answer wrapped in a fence with the language tag is reduced to what
    the fence holds, with the newline before the closing fence. *)
Theorem fenced_answer_unwrapped (body : string) :
  occursb Reel.fence body = false ->
  Reel.stripFences (Reel.jsonFence ++ nl ++ body ++ nl ++ Reel.fence) = body ++ nl.
Proof.
  intros H. unfold Reel.stripFences.
  assert (E1 : Reel.removeFences Reel.jsonFence 0
                 (Reel.jsonFence ++ nl ++ body ++ nl ++ Reel.fence)
               = Reel.removeFences Reel.jsonFence 0 (body ++ nl ++ Reel.fence)).
  { reflexivity. }
  rewrite E1.
  rewrite (removeFences_closing Reel.jsonFence) by (auto using prefixb_jsonFence).
  change (Reel.removeFences Reel.jsonFence 0 (nl ++ Reel.fence)) with (nl ++ Reel.fence).
  rewrite removeFences_closing by auto. reflexivity.
Qed.

End Fences.

(** ** The run of the generator *)

(** Symbolic execution of a stage of the generator. *)
Ltac reel_unfold :=
  unfold Reel.Stages.startup, Reel.Stages.save, Reel.Stages.extract,
    Reel.Stages.overlay, Reel.extractRandomVideoSegment, Reel.overlayCodeOnVideo,
    Reel.getVideoDuration, Reel.generateSnippetWithAI, Reel.next, Reel.rescue,
    Reel.log, Reel.step, Reel.fail, Reel.done, Reel.refusal.

Ltac reel_cases m :=
  let res := fresh "res" in
  let Hres := fresh "Hres" in
  remember m as res eqn:Hres in *;
  revert Hres; reel_unfold; run_reduce;
  repeat (lazymatch goal with
          | |- _ = ?rhs -> _ =>
              let sc := head_scrutinee rhs in
              lazymatch sc with
              | rhs => fail
              | _ => let E := fresh "E" in destruct sc eqn:E; run_reduce
              end
          end);
  intros ->; cbn [fst snd] in *.

Ltac quiet_solve := repeat first [apply Forall_nil | apply Forall_cons; [exact I|]].

(** Two lists of events that are the same up to the grouping of their
    segments. *)
Ltac segments := repeat (progress (rewrite <- ?app_assoc; cbn [app])); reflexivity.

Ltac quiet_app :=
  repeat first [ assumption
               | apply Forall_nil
               | apply Forall_cons; [exact I|]
               | apply Forall_app; split ].

Section Generator.

Variable s : Reel.Studio.

Lemma next_run (A B : Type) (m : Reel.R A) (k : A -> Reel.R B) :
  Reel.next m k
  = match fst m with
    | Returns a => (fst (k a), (snd m ++ snd (k a))%list)
    | Throws e => (Throws e, snd m)
    end.
Proof.
  destruct m as [[a|e] l]; cbn; [destruct (k a)|]; reflexivity.
Qed.

Lemma next_assoc (A B C : Type) (m : Reel.R A) (k : A -> Reel.R B) (h : B -> Reel.R C) :
  Reel.next (Reel.next m k) h = Reel.next m (fun a => Reel.next (k a) h).
Proof.
  destruct m as [[a|e] l]; cbn; [|reflexivity].
  destruct (k a) as [[b|e] l']; cbn; [|reflexivity].
  destruct (h b) as [r l'']. now rewrite app_assoc.
Qed.

Lemma produce_stages :
  Reel.produce s
  = Reel.next (Reel.generateSnippetWithAI s 0) (fun snippet =>
      Reel.next (Reel.Stages.render s snippet) (fun _ =>
        Reel.next (Reel.Stages.extract s) (fun _ =>
          Reel.next (Reel.Stages.overlay s) (fun _ => Reel.Stages.save s snippet)))).
Proof. reflexivity. Qed.

Lemma main_stages :
  Reel.main s
  = Reel.next (Reel.Stages.startup s) (fun _ =>
      Reel.next (Reel.step s (Reel.Call Launch)) (fun _ =>
        Reel.finally (Reel.produce s) (Reel.step s (Reel.Call BrowserClose)))).
Proof.
  unfold Reel.Stages.startup. rewrite !next_assoc. reflexivity.
Qed.

Lemma step_run (e : Reel.event) :
  snd (Reel.step s e) = [e]
  /\ (fst (Reel.step s e) = Returns tt <-> Reel.refusal s e = None).
Proof.
  unfold Reel.step. destruct (Reel.refusal s e); cbn; split; try reflexivity;
    split; congruence.
Qed.

Lemma runJob_run (j : Reel.job) (ended failed : string) :
  Reel.runJob s j ended failed
  = match Reel.failure (Reel.transcode s j) with
    | None =>
        (Returns tt,
         (Reel.Ffmpeg j :: Reel.Stages.listened s j
          ++ [Reel.Call (StdoutWrite (ended ++ nl))])%list)
    | Some message =>
        (Throws failed,
         (Reel.Ffmpeg j :: Reel.Stages.listened s j
          ++ [Reel.Call (StderrWrite (nl ++ "FFmpeg error: " ++ message ++ nl))])%list)
    end.
Proof.
  unfold Reel.runJob, Reel.Stages.listened, Reel.note, Reel.next, Reel.fail.
  destruct (Reel.failure _); cbn [app]; rewrite ?app_nil_r, <- ?app_assoc; reflexivity.
Qed.

Lemma listened_quiet (j : Reel.job) : Forall Reel.Stages.quiet (Reel.Stages.listened s j).
Proof.
  unfold Reel.Stages.listened. apply Forall_app. split.
  - unfold Reel.onStart. destruct (Reel.commandLine _); repeat constructor.
  - apply Forall_flat_map. apply Forall_forall. intros [p|] _; cbn; [|constructor].
    destruct (Reel.truthyNumber p); repeat constructor.
Qed.

(** What a run does before the launch: it gives ffmpeg no job, writes no
    file, launches nothing and asks the model nothing; it goes on only
    when the background video is there, and fails with its own message
    when it is not. *)
Lemma startup_run :
  Forall (Reel.Stages.quiet) (snd (Reel.Stages.startup s))
  /\ ~ In (Reel.Call Launch) (snd (Reel.Stages.startup s))
  /\ (forall p, ~ In (Reel.GenerateText p) (snd (Reel.Stages.startup s)))
  /\ match fst (Reel.Stages.startup s) with
     | Returns _ => Reel.refuses s (Reel.Access Reel.DEFAULTS.bRollPath) = None
     | Throws m =>
         In (Reel.Access Reel.DEFAULTS.bRollPath) (snd (Reel.Stages.startup s)) ->
         Reel.refuses s (Reel.Access Reel.DEFAULTS.bRollPath) <> None ->
         m = "B-roll video not found at: ./bRoll.mov"
         /\ exists pre,
              snd (Reel.Stages.startup s)
              = (pre ++ [Reel.Access Reel.DEFAULTS.bRollPath])%list
     end.
Proof.
  reel_cases (Reel.Stages.startup s).
  all: split; [quiet_solve|].
  all: split; [intros H; in_cases H|].
  all: split; [intros p H; in_cases H|].
  all: try reflexivity.
  all: intros H Hne; in_cases H; try congruence.
  split; [reflexivity|]. now eexists [_; _].
Qed.

(** The request: it is made only with a key, and its answer is read by
    [JSON.parse] once the fences are stripped. *)
Lemma generate_run :
  match Reel.generateSnippetWithAI s 0 with
  | (Returns snippet, l) =>
      Reel.hasApiKey s = true
      /\ Reel.parseJson s (Reel.cleanText (Reel.trim s) (Reel.answer s)) = Returns snippet
      /\ l = [Reel.Call (StdoutWrite ("Generating snippet 1..." ++ nl));
              Reel.GenerateText Reel.PROMPT]
  | (Throws m, l) =>
      Forall Reel.Stages.quiet l
      /\ (Reel.hasApiKey s = false -> m = "Missing OPENAI_API_KEY" /\ l = [])
  end.
Proof.
  reel_cases (Reel.generateSnippetWithAI s 0).
  all: first [ split; [reflexivity | split; reflexivity]
             | split; [quiet_solve | intros H; first [discriminate H | split; reflexivity]] ].
Qed.

(** The render: its events are calls of the renderer, with the capture
    of the image among them when it returns. *)
Lemma render_run (snippet : Reel.Snippet) :
  exists before after,
    Forall Reel.Stages.quiet (snd (Reel.Stages.render s snippet))
    /\ (fst (Reel.Stages.render s snippet) = Returns tt ->
        snd (Reel.Stages.render s snippet)
        = (before
           ++ Reel.Call (Screenshot (OStr (Reel.imagePath s)) None true) :: after)%list
        /\ Forall Reel.Stages.quiet before /\ Forall Reel.Stages.quiet after).
Proof.
  unfold Reel.Stages.render, Reel.lift.
  phase_cases (Main.renderSnippet (Reel.browser s) (Reel.code snippet)
                 (Reel.difficulty snippet) (Reel.imagePath s) []).
  all: cbn [map].
  all: try (exists [], []; split; [quiet_solve | intros H; discriminate H]).
  eexists [_; _; _; _; _], [_; _].
  split; [quiet_solve|]. intros _.
  split; [reflexivity|]. split; quiet_solve.
Qed.

Lemma app_quiet (a b : list Reel.event) :
  Forall Reel.Stages.quiet a -> Forall Reel.Stages.quiet b ->
  Forall Reel.Stages.quiet (a ++ b)%list.
Proof. intros Ha Hb. apply Forall_app. now split. Qed.

(** The cut of the segment: it stops before the job, or the job ends, or
    the job fails, and then its error is written and another is thrown. *)
Lemma extract_run :
  exists pre,
    Forall Reel.Stages.quiet pre
    /\ ((exists m, Reel.Stages.extract s = (Throws m, pre))
        \/ (Reel.failure (Reel.transcode s (Reel.Stages.extractJob s)) = None
            /\ Reel.Stages.extract s
               = (Returns tt,
                  (pre ++ Reel.Ffmpeg (Reel.Stages.extractJob s)
                       :: Reel.Stages.listened s (Reel.Stages.extractJob s)
                       ++ [Reel.Call (StdoutWrite (Reel.Stages.extractEnded s ++ nl))])%list))
        \/ (exists e,
              Reel.failure (Reel.transcode s (Reel.Stages.extractJob s)) = Some e
              /\ Reel.Stages.extract s
                 = (Throws "Failed to extract video segment.",
                    (pre ++ Reel.Ffmpeg (Reel.Stages.extractJob s)
                         :: Reel.Stages.listened s (Reel.Stages.extractJob s)
                         ++ [Reel.Call (StderrWrite (nl ++ "FFmpeg error: " ++ e ++ nl))])%list))).
Proof.
  unfold Reel.Stages.extract, Reel.extractRandomVideoSegment.
  reel_unfold; run_reduce.
  repeat match goal with
         | |- context [rejects ?w ?c] => destruct (rejects w c) eqn:?; run_reduce
         | |- context [Reel.refuses ?w ?c] => destruct (Reel.refuses w c) eqn:?; run_reduce
         end.
  all: try (eexists; split; [|left; eexists; reflexivity]; quiet_solve).
  rewrite runJob_run.
  fold (Reel.Stages.extractJob s). fold (Reel.Stages.extractEnded s).
  destruct (Reel.failure (Reel.transcode s (Reel.Stages.extractJob s))) as [e|] eqn:Hf; run_reduce.
  - eexists [_; _; _; _]. split; [|right; right; exists e; split; reflexivity]. quiet_solve.
  - eexists [_; _; _; _]. split; [|right; left; split; reflexivity]. quiet_solve.
Qed.

Lemma overlay_run :
  exists pre,
    Forall Reel.Stages.quiet pre
    /\ ((exists m, Reel.Stages.overlay s = (Throws m, pre))
        \/ (Reel.failure (Reel.transcode s (Reel.Stages.overlayJob s)) = None
            /\ Reel.Stages.overlay s
               = (Returns tt,
                  (pre ++ Reel.Ffmpeg (Reel.Stages.overlayJob s)
                       :: Reel.Stages.listened s (Reel.Stages.overlayJob s)
                       ++ [Reel.Call (StdoutWrite (Reel.Stages.overlayEnded s ++ nl))])%list))
        \/ (exists e,
              Reel.failure (Reel.transcode s (Reel.Stages.overlayJob s)) = Some e
              /\ Reel.Stages.overlay s
                 = (Throws "Failed to overlay code on video.",
                    (pre ++ Reel.Ffmpeg (Reel.Stages.overlayJob s)
                         :: Reel.Stages.listened s (Reel.Stages.overlayJob s)
                         ++ [Reel.Call (StderrWrite (nl ++ "FFmpeg error: " ++ e ++ nl))])%list))).
Proof.
  unfold Reel.Stages.overlay, Reel.overlayCodeOnVideo.
  reel_unfold; run_reduce.
  repeat match goal with
         | |- context [rejects ?w ?c] => destruct (rejects w c) eqn:?; run_reduce
         end.
  all: try (eexists; split; [|left; eexists; reflexivity]; quiet_solve).
  rewrite runJob_run.
  fold (Reel.Stages.overlayJob s). fold (Reel.Stages.overlayEnded s).
  destruct (Reel.failure (Reel.transcode s (Reel.Stages.overlayJob s))) as [e|] eqn:Hf; run_reduce.
  - eexists [_]. split; [|right; right; exists e; split; reflexivity]. quiet_solve.
  - eexists [_]. split; [|right; left; split; reflexivity]. quiet_solve.
Qed.

(** The end of a run: the caption is written first, and then the summary
    is logged. *)
Lemma save_run (snippet : Reel.Snippet) :
  exists post,
    snd (Reel.Stages.save s snippet)
    = Reel.WriteFile (Reel.captionPath s) (Reel.captionContent snippet) :: post
    /\ Forall Reel.Stages.quiet post
    /\ (fst (Reel.Stages.save s snippet) = Returns tt ->
        post = map (fun text => Reel.Call (StdoutWrite (text ++ nl)))
                   (Reel.Stages.summary s)).
Proof.
  reel_cases (Reel.Stages.save s snippet).
  all: eexists; split; [reflexivity|]; split; [quiet_solve|].
  all: intros H; first [discriminate H | reflexivity].
Qed.

Lemma produce_without_key :
  Reel.hasApiKey s = false ->
  Reel.produce s = (Throws "Missing OPENAI_API_KEY", []).
Proof.
  intros H. rewrite produce_stages. unfold Reel.generateSnippetWithAI.
  rewrite H. reflexivity.
Qed.

(** How far the block under [try] gets: it stops before any job, or the
    first job fails, or it stops between the jobs, or the second job
    fails, or it comes to save the caption. *)
Lemma produce_run :
  (exists m l, Reel.produce s = (Throws m, l) /\ Forall Reel.Stages.quiet l)
  \/ (exists e pre,
        Reel.failure (Reel.transcode s (Reel.Stages.extractJob s)) = Some e
        /\ Forall Reel.Stages.quiet pre
        /\ Reel.produce s
           = (Throws "Failed to extract video segment.",
              (pre ++ Reel.Ffmpeg (Reel.Stages.extractJob s)
                   :: Reel.Stages.listened s (Reel.Stages.extractJob s)
                   ++ [Reel.Call (StderrWrite (nl ++ "FFmpeg error: " ++ e ++ nl))])%list))
  \/ (exists m pre mid,
        Reel.failure (Reel.transcode s (Reel.Stages.extractJob s)) = None
        /\ Forall Reel.Stages.quiet pre /\ Forall Reel.Stages.quiet mid
        /\ Reel.produce s
           = (Throws m, (pre ++ Reel.Ffmpeg (Reel.Stages.extractJob s) :: mid)%list))
  \/ (exists e pre mid,
        Reel.failure (Reel.transcode s (Reel.Stages.extractJob s)) = None
        /\ Reel.failure (Reel.transcode s (Reel.Stages.overlayJob s)) = Some e
        /\ Forall Reel.Stages.quiet pre /\ Forall Reel.Stages.quiet mid
        /\ Reel.produce s
           = (Throws "Failed to overlay code on video.",
              (pre ++ Reel.Ffmpeg (Reel.Stages.extractJob s)
                   :: mid ++ Reel.Ffmpeg (Reel.Stages.overlayJob s)
                   :: Reel.Stages.listened s (Reel.Stages.overlayJob s)
                   ++ [Reel.Call (StderrWrite (nl ++ "FFmpeg error: " ++ e ++ nl))])%list))
  \/ (exists snippet t1 t2 t3 t4 t5 post,
        Reel.hasApiKey s = true
        /\ Reel.parseJson s (Reel.cleanText (Reel.trim s) (Reel.answer s))
           = Returns snippet
        /\ Reel.failure (Reel.transcode s (Reel.Stages.extractJob s)) = None
        /\ Reel.failure (Reel.transcode s (Reel.Stages.overlayJob s)) = None
        /\ (Forall Reel.Stages.quiet t1 /\ Forall Reel.Stages.quiet t2
            /\ Forall Reel.Stages.quiet t3 /\ Forall Reel.Stages.quiet t4
            /\ Forall Reel.Stages.quiet t5 /\ Forall Reel.Stages.quiet post)
        /\ Reel.produce s
           = (fst (Reel.Stages.save s snippet),
              (t1 ++ Reel.GenerateText Reel.PROMPT
                  :: t2 ++ Reel.Call (Screenshot (OStr (Reel.imagePath s)) None true)
                  :: t3 ++ Reel.Ffmpeg (Reel.Stages.extractJob s)
                  :: t4 ++ Reel.Ffmpeg (Reel.Stages.overlayJob s)
                  :: t5 ++ Reel.WriteFile (Reel.captionPath s)
                                          (Reel.captionContent snippet)
                  :: post)%list)
        /\ (fst (Reel.Stages.save s snippet) = Returns tt ->
            post = map (fun text => Reel.Call (StdoutWrite (text ++ nl)))
                       (Reel.Stages.summary s))).
Proof.
  rewrite produce_stages.
  pose proof generate_run as Hg.
  destruct (Reel.generateSnippetWithAI s 0) as [[snippet|m] l0];
    rewrite next_run; cbn [fst snd].
  2:{ left. exists m, l0. split; [reflexivity | apply Hg]. }
  destruct Hg as (Hkey & Hparse & ->).
  destruct (render_run snippet) as (before & after & Hq1 & Hret).
  destruct (Reel.Stages.render s snippet) as [[[]|m] l1];
    rewrite next_run; cbn [fst snd].
  2:{ left. eexists m, _. split; [reflexivity|]. cbn [snd] in Hq1. quiet_app. }
  cbn [fst snd] in Hret, Hq1. destruct (Hret eq_refl) as (-> & Hb & Ha). clear Hret.
  pose proof (listened_quiet (Reel.Stages.extractJob s)) as Hl2.
  pose proof (listened_quiet (Reel.Stages.overlayJob s)) as Hl3.
  destruct extract_run as (pre2 & Hq2 & [[m ->]|[[Hf2 ->]|(e & Hf2 & ->)]]);
    rewrite next_run; cbn [fst snd].
  - left. eexists m, _. split; [reflexivity|]. quiet_app.
  - destruct overlay_run as (pre3 & Hq3 & [[m ->]|[[Hf3 ->]|(e & Hf3 & ->)]]);
      rewrite next_run; cbn [fst snd].
    + right; right; left.
      exists m, ([Reel.Call (StdoutWrite ("Generating snippet 1..." ++ nl));
                  Reel.GenerateText Reel.PROMPT]
                 ++ (before ++ Reel.Call (Screenshot (OStr (Reel.imagePath s)) None true)
                            :: after) ++ pre2)%list,
             (Reel.Stages.listened s (Reel.Stages.extractJob s)
              ++ [Reel.Call (StdoutWrite (Reel.Stages.extractEnded s ++ nl))]
              ++ pre3)%list.
      split; [exact Hf2|]. split; [quiet_app|]. split; [quiet_app|].
      f_equal. segments.
    + right; right; right; right.
      destruct (save_run snippet) as (post & Hsave & Hq4 & Hsum).
      exists snippet, [Reel.Call (StdoutWrite ("Generating snippet 1..." ++ nl))],
             before, (after ++ pre2)%list,
             (Reel.Stages.listened s (Reel.Stages.extractJob s)
              ++ [Reel.Call (StdoutWrite (Reel.Stages.extractEnded s ++ nl))]
              ++ pre3)%list,
             (Reel.Stages.listened s (Reel.Stages.overlayJob s)
              ++ [Reel.Call (StdoutWrite (Reel.Stages.overlayEnded s ++ nl))])%list,
             post.
      split; [exact Hkey|]. split; [exact Hparse|]. split; [exact Hf2|].
      split; [exact Hf3|]. split; [repeat split; quiet_app|].
      split; [|exact Hsum].
      destruct (Reel.Stages.save s snippet) as [r l4]. cbn [fst snd] in *. subst l4.
      f_equal. segments.
    + right; right; right; left.
      exists e, ([Reel.Call (StdoutWrite ("Generating snippet 1..." ++ nl));
                  Reel.GenerateText Reel.PROMPT]
                 ++ (before ++ Reel.Call (Screenshot (OStr (Reel.imagePath s)) None true)
                            :: after) ++ pre2)%list,
             (Reel.Stages.listened s (Reel.Stages.extractJob s)
              ++ [Reel.Call (StdoutWrite (Reel.Stages.extractEnded s ++ nl))]
              ++ pre3)%list.
      split; [exact Hf2|]. split; [exact Hf3|]. split; [quiet_app|]. split; [quiet_app|].
      f_equal. segments.
  - right; left.
    exists e, ([Reel.Call (StdoutWrite ("Generating snippet 1..." ++ nl));
                Reel.GenerateText Reel.PROMPT]
               ++ (before ++ Reel.Call (Screenshot (OStr (Reel.imagePath s)) None true)
                          :: after) ++ pre2)%list.
    split; [exact Hf2|]. split; [quiet_app|].
    f_equal. segments.
Qed.

(** The events before the launch. *)
Lemma startup_events (e : Reel.event) :
  In e (snd (Reel.Stages.startup s)) ->
  e = Reel.Call (Mkdir (Reel.outputDir s))
  \/ (exists text, e = Reel.Call (StdoutWrite text))
  \/ e = Reel.Access Reel.DEFAULTS.bRollPath.
Proof.
  intros H. reel_cases (Reel.Stages.startup s); in_cases H.
  all: subst e; first [ now left | right; left; now eexists | now right; right ].
Qed.

(** A run is its three parts: what it does before the launch, the launch,
    and the block under [try] with the browser closed after it. *)
Lemma run_shape :
  (exists m,
     fst (Reel.Stages.startup s) = Throws m
     /\ Reel.run s
        = ((snd (Reel.Stages.startup s)
            ++ [Reel.Call (StderrWrite ("Error: " ++ m ++ nl)); Reel.Call (Exit 1)])%list,
           1%Z))
  \/ (exists m,
        fst (Reel.Stages.startup s) = Returns tt
        /\ rejects (Reel.browser s) Launch = Some m
        /\ Reel.run s
           = ((snd (Reel.Stages.startup s)
               ++ [Reel.Call Launch; Reel.Call (StderrWrite ("Error: " ++ m ++ nl));
                   Reel.Call (Exit 1)])%list,
              1%Z))
  \/ (exists tail code,
        fst (Reel.Stages.startup s) = Returns tt
        /\ rejects (Reel.browser s) Launch = None
        /\ Reel.run s
           = ((snd (Reel.Stages.startup s)
               ++ Reel.Call Launch
               :: snd (Reel.produce s) ++ Reel.Call BrowserClose :: tail)%list,
              code)
        /\ ((code = 0%Z /\ tail = [] /\ fst (Reel.produce s) = Returns tt
             /\ rejects (Reel.browser s) BrowserClose = None)
            \/ (exists m,
                  code = 1%Z
                  /\ tail = [Reel.Call (StderrWrite ("Error: " ++ m ++ nl));
                             Reel.Call (Exit 1)]
                  /\ (rejects (Reel.browser s) BrowserClose = None ->
                      fst (Reel.produce s) = Throws m)))).
Proof.
  unfold Reel.run. rewrite main_stages.
  unfold Reel.next, Reel.finally, Reel.step, Reel.refusal.
  destruct (Reel.Stages.startup s) as [[[]|m] t0]; cbn [fst snd].
  2:{ left. now exists m. }
  right.
  destruct (rejects (Reel.browser s) Launch) as [m|] eqn:Hlaunch; cbn [fst snd].
  { left. exists m. split; [reflexivity|]. split; [reflexivity|].
    f_equal; segments. }
  right.
  destruct (Reel.produce s) as [r l].
  destruct (rejects (Reel.browser s) BrowserClose) as [m|] eqn:Hclose; cbn [fst snd].
  - eexists _, _. split; [reflexivity|]. split; [reflexivity|].
    split; [|right; exists m; split; [reflexivity|]; split; [reflexivity|]; discriminate].
    f_equal; segments.
  - destruct r as [[]|m].
    + eexists _, _. split; [reflexivity|]. split; [reflexivity|].
      split; [|left; repeat split; reflexivity].
      f_equal; segments.
    + eexists _, _. split; [reflexivity|]. split; [reflexivity|].
      split; [|right; exists m; split; [reflexivity|]; split; [reflexivity|]; reflexivity].
      f_equal; segments.
Qed.

Lemma quiet_no_write (l : list Reel.event) (p c : string) :
  Forall Reel.Stages.quiet l -> ~ In (Reel.WriteFile p c) l.
Proof.
  intros H F. rewrite Forall_forall in H. exact (H _ F).
Qed.

Lemma quiet_no_job (l : list Reel.event) (j : Reel.job) :
  Forall Reel.Stages.quiet l -> ~ In (Reel.Ffmpeg j) l.
Proof.
  intros H F. rewrite Forall_forall in H. exact (H _ F).
Qed.

Lemma startup_quiet : Forall Reel.Stages.quiet (snd (Reel.Stages.startup s)).
Proof. exact (proj1 startup_run). Qed.

(** [X22] The browser a run of the generator launched is closed, whatever
    fails after the launch: the request, the render, a job of ffmpeg or
    the writing of the caption. *)
Theorem generator_closes_browser :
  In (Reel.Call Launch) (fst (Reel.run s)) ->
  rejects (Reel.browser s) Launch = None ->
  exists pre post,
    fst (Reel.run s) = (pre ++ Reel.Call Launch :: post)%list
    /\ ~ In (Reel.Call BrowserClose) pre
    /\ In (Reel.Call BrowserClose) post.
Proof.
  intros H Hlaunch.
  assert (Hpre : forall c, c = Launch \/ c = BrowserClose ->
                           ~ In (Reel.Call c) (snd (Reel.Stages.startup s))).
  { intros c Hc F. apply startup_events in F as [F|[[text F]|F]];
      destruct Hc as [-> | ->]; discriminate F. }
  destruct run_shape as [(m & _ & Hrun)|[(m & _ & Hm & _)|(tail & code & _ & _ & Hrun & _)]].
  - exfalso. rewrite Hrun in H. cbn [fst] in H.
    apply in_app_or in H as [H|H]; [apply (Hpre Launch) in H; auto|].
    in_cases H.
  - congruence.
  - rewrite Hrun. cbn [fst].
    exists (snd (Reel.Stages.startup s)), (snd (Reel.produce s) ++ Reel.Call BrowserClose :: tail)%list.
    split; [reflexivity|]. split; [apply Hpre; auto|].
    apply in_or_app. right. now left.
Qed.

(** [X23] Without the background video a run stops before it launches the
    browser or asks the model anything, and exits with status 1; the
    error it reports names the path of the video, whatever the error of
    the file system was. *)
Theorem missing_background_video_stops_run (e : string) :
  Reel.refuses s (Reel.Access Reel.DEFAULTS.bRollPath) = Some e ->
  snd (Reel.run s) = 1%Z
  /\ ~ In (Reel.Call Launch) (fst (Reel.run s))
  /\ (forall p, ~ In (Reel.GenerateText p) (fst (Reel.run s)))
  /\ (In (Reel.Access Reel.DEFAULTS.bRollPath) (fst (Reel.run s)) ->
      exists pre,
        fst (Reel.run s)
        = (pre ++ [Reel.Access Reel.DEFAULTS.bRollPath;
                   Reel.Call (StderrWrite
                                ("Error: B-roll video not found at: ./bRoll.mov" ++ nl));
                   Reel.Call (Exit 1)])%list).
Proof.
  intros Hacc.
  destruct startup_run as (_ & Hl & Hg & Hs).
  destruct run_shape as [(m & Hm & Hrun)|[(m & Hr & _)|(tail & code & Hr & _)]].
  - rewrite Hrun. cbn [fst snd]. rewrite Hm in Hs.
    split; [reflexivity|]. split; [|split].
    + intros F. apply in_app_or in F as [F|F]; [now apply Hl in F | in_cases F].
    + intros p F. apply in_app_or in F as [F|F]; [now apply Hg in F | in_cases F].
    + intros F. apply in_app_or in F as [F|F]; [|in_cases F].
      destruct (Hs F) as (-> & pre & Hpre); [congruence|].
      exists pre. rewrite Hpre. segments.
  - rewrite Hr in Hs. congruence.
  - rewrite Hr in Hs. congruence.
Qed.

(** [X24] Without an API key a run asks the model nothing: it requests no
    text, opens no page, gives ffmpeg no job and writes no file, and exits
    with status 1.  The key is looked for after the launch only: the
    browser is launched, closed at once, and the missing key is reported. *)
Theorem missing_key_requests_nothing :
  Reel.hasApiKey s = false ->
  snd (Reel.run s) = 1%Z
  /\ (forall p, ~ In (Reel.GenerateText p) (fst (Reel.run s)))
  /\ ~ In (Reel.Call NewPage) (fst (Reel.run s))
  /\ (forall j, ~ In (Reel.Ffmpeg j) (fst (Reel.run s)))
  /\ (forall p c, ~ In (Reel.WriteFile p c) (fst (Reel.run s)))
  /\ (In (Reel.Call Launch) (fst (Reel.run s)) ->
      rejects (Reel.browser s) Launch = None ->
      rejects (Reel.browser s) BrowserClose = None ->
      exists pre,
        fst (Reel.run s)
        = (pre ++ [Reel.Call Launch; Reel.Call BrowserClose;
                   Reel.Call (StderrWrite ("Error: Missing OPENAI_API_KEY" ++ nl));
                   Reel.Call (Exit 1)])%list).
Proof.
  intros Hkey.
  pose proof (produce_without_key Hkey) as Hp.
  pose proof startup_quiet as Hq.
  destruct startup_run as (_ & Hl & Hg & _).
  assert (Hn : ~ In (Reel.Call NewPage) (snd (Reel.Stages.startup s))).
  { intros F. apply startup_events in F as [F|[[text F]|F]]; discriminate F. }
  assert (Hquiet :
            forall l, Forall Reel.Stages.quiet l ->
                      (forall j, ~ In (Reel.Ffmpeg j) l)
                      /\ (forall p c, ~ In (Reel.WriteFile p c) l)).
  { intros l Hl'. split; [intros j; now apply quiet_no_job
                         | intros p c; now apply quiet_no_write]. }
  destruct run_shape as [(m & _ & Hrun)|[(m & _ & Hm & Hrun)|(tail & code & _ & _ & Hrun & Hcode)]];
    rewrite Hrun; cbn [fst snd].
  - split; [reflexivity|]. split; [|split; [|split; [|split]]].
    + intros p F. apply in_app_or in F as [F|F]; [now apply Hg in F | in_cases F].
    + intros F. apply in_app_or in F as [F|F]; [now apply Hn in F | in_cases F].
    + apply Hquiet. quiet_app.
    + apply Hquiet. quiet_app.
    + intros F. exfalso. apply in_app_or in F as [F|F]; [now apply Hl in F | in_cases F].
  - split; [reflexivity|]. split; [|split; [|split; [|split]]].
    + intros p F. apply in_app_or in F as [F|F]; [now apply Hg in F | in_cases F].
    + intros F. apply in_app_or in F as [F|F]; [now apply Hn in F | in_cases F].
    + apply Hquiet. quiet_app.
    + apply Hquiet. quiet_app.
    + congruence.
  - rewrite Hp in *. cbn [fst snd app] in *.
    destruct Hcode as [(_ & _ & F & _)|(m & -> & -> & Hm)]; [discriminate F|].
    split; [reflexivity|]. split; [|split; [|split; [|split]]].
    + intros p F. apply in_app_or in F as [F|F]; [now apply Hg in F | in_cases F].
    + intros F. apply in_app_or in F as [F|F]; [now apply Hn in F | in_cases F].
    + apply Hquiet. quiet_app.
    + apply Hquiet. quiet_app.
    + intros _ _ Hclose. specialize (Hm Hclose). injection Hm as <-.
      now exists (snd (Reel.Stages.startup s)).
Qed.

Lemma run_exit_status : snd (Reel.run s) = 0%Z \/ snd (Reel.run s) = 1%Z.
Proof.
  destruct run_shape as [(m & _ & ->)|[(m & _ & _ & ->)|(tail & code & _ & _ & -> & Hcode)]];
    cbn [snd]; auto.
  destruct Hcode as [(-> & _)|(m & -> & _)]; auto.
Qed.

(** The events of the block under [try] when the caption is written. *)
Lemma produce_saves (p c : string) :
  In (Reel.WriteFile p c) (snd (Reel.produce s)) \/ fst (Reel.produce s) = Returns tt ->
  exists snippet t1 t2 t3 t4 t5 post,
    Reel.parseJson s (Reel.cleanText (Reel.trim s) (Reel.answer s)) = Returns snippet
    /\ Reel.failure (Reel.transcode s (Reel.Stages.extractJob s)) = None
    /\ Reel.failure (Reel.transcode s (Reel.Stages.overlayJob s)) = None
    /\ (Forall Reel.Stages.quiet t1 /\ Forall Reel.Stages.quiet t2
        /\ Forall Reel.Stages.quiet t3 /\ Forall Reel.Stages.quiet t4
        /\ Forall Reel.Stages.quiet t5 /\ Forall Reel.Stages.quiet post)
    /\ snd (Reel.produce s)
       = (t1 ++ Reel.GenerateText Reel.PROMPT
             :: t2 ++ Reel.Call (Screenshot (OStr (Reel.imagePath s)) None true)
             :: t3 ++ Reel.Ffmpeg (Reel.Stages.extractJob s)
             :: t4 ++ Reel.Ffmpeg (Reel.Stages.overlayJob s)
             :: t5 ++ Reel.WriteFile (Reel.captionPath s) (Reel.captionContent snippet)
             :: post)%list
    /\ (fst (Reel.produce s) = Returns tt ->
        post = map (fun text => Reel.Call (StdoutWrite (text ++ nl)))
                   (Reel.Stages.summary s)).
Proof.
  intros H.
  destruct produce_run
    as [(m & l & Hp & Hq)
       |[(e & pre & Hf & Hq & Hp)
        |[(m & pre & mid & Hf & Hq1 & Hq2 & Hp)
         |[(e & pre & mid & Hf1 & Hf2 & Hq1 & Hq2 & Hp)
          |(snippet & t1 & t2 & t3 & t4 & t5 & post & _ & Hparse & Hf1 & Hf2 & Hq & Hp & Hsum)]]]].
  1-4: exfalso; rewrite Hp in H; cbn [fst snd] in H;
       destruct H as [H|H]; [|discriminate H].
  - now apply quiet_no_write in H.
  - apply in_app_or in H as [H|H]; [now apply quiet_no_write in H|].
    destruct H as [H|H]; [discriminate H|].
    apply in_app_or in H as [H|H]; [|in_cases H].
    now apply quiet_no_write in H; [|apply listened_quiet].
  - apply in_app_or in H as [H|H]; [now apply quiet_no_write in H|].
    destruct H as [H|H]; [discriminate H|].
    now apply quiet_no_write in H.
  - apply in_app_or in H as [H|H]; [now apply quiet_no_write in H|].
    destruct H as [H|H]; [discriminate H|].
    apply in_app_or in H as [H|H]; [now apply quiet_no_write in H|].
    destruct H as [H|H]; [discriminate H|].
    apply in_app_or in H as [H|H]; [|in_cases H].
    now apply quiet_no_write in H; [|apply listened_quiet].
  - exists snippet, t1, t2, t3, t4, t5, post.
    rewrite Hp. cbn [fst snd]. repeat split; try assumption; apply Hq.
Qed.

(** [X25] The caption is the last thing a run makes.  When it is written,
    the model has answered, the answer was read, the image was captured
    and both jobs of ffmpeg have ended without an error, in this order;
    the second job reads the video of the first and the captured image.
    It is written once, to [caption.txt] in the folder of the run, and
    holds the difficulty, the code and the caption of the answer. *)
Theorem caption_written_after_video (p c : string) :
  In (Reel.WriteFile p c) (fst (Reel.run s)) ->
  exists snippet t1 t2 t3 t4 t5 post,
    Reel.parseJson s (Reel.cleanText (Reel.trim s) (Reel.answer s)) = Returns snippet
    /\ p = Reel.join s (Reel.outputDir s) "caption.txt"
    /\ c = Reel.captionContent snippet
    /\ Reel.failure (Reel.transcode s (Reel.Stages.extractJob s)) = None
    /\ Reel.failure (Reel.transcode s (Reel.Stages.overlayJob s)) = None
    /\ fst (Reel.run s)
       = (t1 ++ Reel.GenerateText Reel.PROMPT
             :: t2 ++ Reel.Call (Screenshot (OStr (Reel.imagePath s)) None true)
             :: t3 ++ Reel.Ffmpeg
                        (Reel.ExtractSegment Reel.DEFAULTS.bRollPath
                           (Reel.bRollSegmentPath s)
                           (Reel.segmentStart
                              (Reel.probedDuration s Reel.DEFAULTS.bRollPath)
                              (ofZ 10) (Finite (Reel.random s)))
                           (ofZ 10))
             :: t4 ++ Reel.Ffmpeg
                        (Reel.OverlayImage (Reel.bRollSegmentPath s) (Reel.imagePath s)
                           (Reel.videoPath s) (ofZ 10))
             :: t5 ++ Reel.WriteFile p c :: post)%list
    /\ (forall q d, ~ In (Reel.WriteFile q d) (t1 ++ t2 ++ t3 ++ t4 ++ t5 ++ post)%list)
    /\ (forall j, ~ In (Reel.Ffmpeg j) (t1 ++ t2 ++ t3 ++ t4 ++ t5 ++ post)%list)
    /\ In (Reel.Call BrowserClose) post.
Proof.
  intros H.
  pose proof startup_quiet as Hq0.
  destruct run_shape as [(m & _ & Hrun)|[(m & _ & _ & Hrun)|(tail & code & _ & _ & Hrun & Hcode)]];
    rewrite Hrun in *; cbn [fst] in *.
  1-2: exfalso; apply in_app_or in H as [H|H];
       [now apply quiet_no_write in H | in_cases H].
  assert (Htail : Forall Reel.Stages.quiet tail).
  { destruct Hcode as [(_ & -> & _)|(m & _ & -> & _)]; quiet_app. }
  assert (Hin : In (Reel.WriteFile p c) (snd (Reel.produce s))).
  { apply in_app_or in H as [H|H]; [now apply quiet_no_write in H|].
    destruct H as [H|H]; [discriminate H|].
    apply in_app_or in H as [H|H]; [exact H|].
    destruct H as [H|H]; [discriminate H | now apply quiet_no_write in H]. }
  destruct (produce_saves p c (or_introl Hin))
    as (snippet & t1 & t2 & t3 & t4 & t5 & post & Hparse & Hf1 & Hf2
        & (Hq1 & Hq2 & Hq3 & Hq4 & Hq5 & Hq6) & Hp & _).
  rewrite Hp in Hin.
  assert (Hpc : Reel.WriteFile p c
                = Reel.WriteFile (Reel.captionPath s) (Reel.captionContent snippet)).
  { repeat (apply in_app_or in Hin as [Hin|Hin];
              [now apply quiet_no_write in Hin|];
            destruct Hin as [Hin|Hin]; [try discriminate Hin|]).
    - now symmetry.
    - now apply quiet_no_write in Hin. }
  injection Hpc as -> ->.
  exists snippet, (snd (Reel.Stages.startup s) ++ Reel.Call Launch :: t1)%list,
         t2, t3, t4, t5, (post ++ Reel.Call BrowserClose :: tail)%list.
  split; [exact Hparse|]. split; [reflexivity|]. split; [reflexivity|].
  split; [exact Hf1|]. split; [exact Hf2|].
  split; [rewrite Hp; segments|].
  assert (Hall : Forall Reel.Stages.quiet
                   ((snd (Reel.Stages.startup s) ++ Reel.Call Launch :: t1)
                    ++ t2 ++ t3 ++ t4 ++ t5 ++ post ++ Reel.Call BrowserClose :: tail)%list)
    by quiet_app.
  split; [intros q d; now apply quiet_no_write|].
  split; [intros j; now apply quiet_no_job|].
  apply in_or_app. right. now left.
Qed.

(** [X26] A run exits with status 0 or 1.  A run that exits with 0 has
    made the reel: both jobs have ended without an error, and its last
    events are the writing of the caption, the nine lines of the summary
    and the closing of the browser. *)
Theorem exit_zero_means_reel_made :
  (snd (Reel.run s) = 0%Z \/ snd (Reel.run s) = 1%Z)
  /\ (snd (Reel.run s) = 0%Z ->
      exists snippet pre,
        Reel.parseJson s (Reel.cleanText (Reel.trim s) (Reel.answer s)) = Returns snippet
        /\ Reel.failure (Reel.transcode s (Reel.Stages.extractJob s)) = None
        /\ Reel.failure (Reel.transcode s (Reel.Stages.overlayJob s)) = None
        /\ In (Reel.Ffmpeg (Reel.Stages.extractJob s)) pre
        /\ In (Reel.Ffmpeg (Reel.Stages.overlayJob s)) pre
        /\ fst (Reel.run s)
           = (pre ++ Reel.WriteFile (Reel.captionPath s) (Reel.captionContent snippet)
                  :: map (fun text => Reel.Call (StdoutWrite (text ++ nl)))
                         (Reel.Stages.summary s)
                  ++ [Reel.Call BrowserClose])%list).
Proof.
  split; [exact run_exit_status|]. intros Hzero.
  destruct run_shape as [(m & _ & Hrun)|[(m & _ & _ & Hrun)|(tail & code & _ & _ & Hrun & Hcode)]];
    rewrite Hrun in *; cbn [fst snd] in *; try discriminate Hzero.
  destruct Hcode as [(_ & -> & Hret & _)|(m & -> & _)]; [|discriminate Hzero].
  destruct (produce_saves EmptyString EmptyString (or_intror Hret))
    as (snippet & t1 & t2 & t3 & t4 & t5 & post & Hparse & Hf1 & Hf2 & _ & Hp & Hsum).
  rewrite (Hsum Hret) in Hp.
  exists snippet,
    (snd (Reel.Stages.startup s)
     ++ Reel.Call Launch
     :: t1 ++ Reel.GenerateText Reel.PROMPT
     :: t2 ++ Reel.Call (Screenshot (OStr (Reel.imagePath s)) None true)
     :: t3 ++ Reel.Ffmpeg (Reel.Stages.extractJob s)
     :: t4 ++ Reel.Ffmpeg (Reel.Stages.overlayJob s) :: t5)%list.
  split; [exact Hparse|]. split; [exact Hf1|]. split; [exact Hf2|].
  split; [|split].
  - apply in_or_app; right; right. apply in_or_app; right; right.
    apply in_or_app; right; right. apply in_or_app; right. now left.
  - apply in_or_app; right; right. apply in_or_app; right; right.
    apply in_or_app; right; right. apply in_or_app; right; right.
    apply in_or_app; right. now left.
  - rewrite Hp. segments.
Qed.

(** [X27] A job of ffmpeg that fails ends the run: the message of ffmpeg is
    written to the diagnostic stream, no later job is started and no
    caption is written, the browser is closed and the status is 1.  What
    the run reports as its error is the fixed sentence of the step, not
    the message of ffmpeg. *)
Theorem failed_job_ends_run (j : Reel.job) (e : string) :
  In (Reel.Ffmpeg j) (fst (Reel.run s)) ->
  Reel.failure (Reel.transcode s j) = Some e ->
  snd (Reel.run s) = 1%Z
  /\ (forall p c, ~ In (Reel.WriteFile p c) (fst (Reel.run s)))
  /\ exists pre post,
       fst (Reel.run s)
       = (pre ++ Reel.Ffmpeg j
              :: Reel.Stages.listened s j
              ++ Reel.Call (StderrWrite (nl ++ "FFmpeg error: " ++ e ++ nl))
              :: Reel.Call BrowserClose :: post)%list
       /\ (rejects (Reel.browser s) BrowserClose = None ->
           (j = Reel.Stages.extractJob s
            /\ post = [Reel.Call (StderrWrite
                                    ("Error: Failed to extract video segment." ++ nl));
                       Reel.Call (Exit 1)])
           \/ (j = Reel.Stages.overlayJob s
               /\ post = [Reel.Call (StderrWrite
                                       ("Error: Failed to overlay code on video." ++ nl));
                          Reel.Call (Exit 1)])).
Proof.
  intros H He.
  pose proof startup_quiet as Hq0.
  destruct run_shape as [(m & _ & Hrun)|[(m & _ & _ & Hrun)|(tail & code & _ & _ & Hrun & Hcode)]];
    rewrite Hrun in *; cbn [fst snd] in *.
  1-2: exfalso; apply in_app_or in H as [H|H];
       [now apply quiet_no_job in H | in_cases H].
  assert (Htail : Forall Reel.Stages.quiet tail).
  { destruct Hcode as [(_ & -> & _)|(m & _ & -> & _)]; quiet_app. }
  assert (Hin : In (Reel.Ffmpeg j) (snd (Reel.produce s))).
  { apply in_app_or in H as [H|H]; [now apply quiet_no_job in H|].
    destruct H as [H|H]; [discriminate H|].
    apply in_app_or in H as [H|H]; [exact H|].
    destruct H as [H|H]; [discriminate H | now apply quiet_no_job in H]. }
  clear H.
  assert (Hcases :
            exists pre failed,
              snd (Reel.produce s)
              = (pre ++ Reel.Ffmpeg j :: Reel.Stages.listened s j
                     ++ [Reel.Call (StderrWrite (nl ++ "FFmpeg error: " ++ e ++ nl))])%list
              /\ fst (Reel.produce s) = Throws failed
              /\ (forall p c, ~ In (Reel.WriteFile p c) (snd (Reel.produce s)))
              /\ ((j = Reel.Stages.extractJob s
                   /\ failed = "Failed to extract video segment.")
                  \/ (j = Reel.Stages.overlayJob s
                      /\ failed = "Failed to overlay code on video."))).
  { destruct produce_run
      as [(m & l & Hp & Hq)
         |[(e' & pre & Hf & Hq & Hp)
          |[(m & pre & mid & Hf & Hq1 & Hq2 & Hp)
           |[(e' & pre & mid & Hf1 & Hf2 & Hq1 & Hq2 & Hp)
            |(snippet & t1 & t2 & t3 & t4 & t5 & post & _ & _ & Hf1 & Hf2
              & (Hq1 & Hq2 & Hq3 & Hq4 & Hq5 & Hq6) & Hp & _)]]]];
      rewrite Hp in *; cbn [fst snd] in *.
    - exfalso. now apply quiet_no_job in Hin.
    - pose proof (listened_quiet (Reel.Stages.extractJob s)) as Hl.
      assert (Hj : j = Reel.Stages.extractJob s).
      { apply in_app_or in Hin as [Hin|Hin]; [now apply quiet_no_job in Hin|].
        destruct Hin as [Hin|Hin]; [now injection Hin|].
        apply in_app_or in Hin as [Hin|Hin]; [now apply quiet_no_job in Hin|].
        in_cases Hin. }
      subst j. assert (e' = e) by congruence. subst e'.
      exists pre, "Failed to extract video segment.".
      split; [reflexivity|]. split; [reflexivity|]. split; [|now left].
      intros p c F.
      apply in_app_or in F as [F|F]; [now apply quiet_no_write in F|].
      destruct F as [F|F]; [discriminate F|].
      apply in_app_or in F as [F|F]; [now apply quiet_no_write in F | in_cases F].
    - exfalso.
      apply in_app_or in Hin as [Hin|Hin]; [now apply quiet_no_job in Hin|].
      destruct Hin as [Hin|Hin]; [|now apply quiet_no_job in Hin].
      injection Hin as <-. congruence.
    - pose proof (listened_quiet (Reel.Stages.overlayJob s)) as Hl.
      assert (Hj : j = Reel.Stages.overlayJob s).
      { apply in_app_or in Hin as [Hin|Hin]; [now apply quiet_no_job in Hin|].
        destruct Hin as [Hin|Hin]; [injection Hin as <-; congruence|].
        apply in_app_or in Hin as [Hin|Hin]; [now apply quiet_no_job in Hin|].
        destruct Hin as [Hin|Hin]; [now injection Hin|].
        apply in_app_or in Hin as [Hin|Hin]; [now apply quiet_no_job in Hin|].
        in_cases Hin. }
      subst j. assert (e' = e) by congruence. subst e'.
      exists (pre ++ Reel.Ffmpeg (Reel.Stages.extractJob s) :: mid)%list,
             "Failed to overlay code on video.".
      split; [segments|]. split; [reflexivity|]. split; [|now right].
      intros p c F.
      apply in_app_or in F as [F|F]; [now apply quiet_no_write in F|].
      destruct F as [F|F]; [discriminate F|].
      apply in_app_or in F as [F|F]; [now apply quiet_no_write in F|].
      destruct F as [F|F]; [discriminate F|].
      apply in_app_or in F as [F|F]; [now apply quiet_no_write in F | in_cases F].
    - exfalso.
      repeat (apply in_app_or in Hin as [Hin|Hin];
                [now apply quiet_no_job in Hin|];
              destruct Hin as [Hin|Hin];
                [try discriminate Hin; try (injection Hin as <-; congruence)|]).
      now apply quiet_no_job in Hin. }
  destruct Hcases as (pre & failed & Hp & Hthrow & Hnw & Hj).
  destruct Hcode as [(_ & _ & Hret & _)|(m & -> & -> & Hm)]; [congruence|].
  split; [reflexivity|]. split.
  - intros p c F.
    apply in_app_or in F as [F|F]; [now apply quiet_no_write in F|].
    destruct F as [F|F]; [discriminate F|].
    apply in_app_or in F as [F|F]; [now apply Hnw in F | in_cases F].
  - exists (snd (Reel.Stages.startup s) ++ Reel.Call Launch :: pre)%list,
           [Reel.Call (StderrWrite ("Error: " ++ m ++ nl)); Reel.Call (Exit 1)].
    split; [rewrite Hp; segments|].
    intros Hclose. specialize (Hm Hclose). rewrite Hthrow in Hm. injection Hm as <-.
    destruct Hj as [[-> ->]|[-> ->]]; [left | right]; split; reflexivity.
Qed.

End Generator.

(** ** Sample runs of the command line and of the generator *)

(** [C10] As stated the claim fails: with a padding of -200, which the
    options accept, the estimate of the empty code is -246; and at a font
    size of [0.1] a trailing newline leaves the estimate of a line at
    257. *)
Lemma estimate_not_positive_nor_raised :
  RenderSnippet.paddingOf Demo.world (Demo.withPadding "-200") = ofZ (-200)
  /\ RenderSnippet.estimatedHeightOf EmptyString (ofZ 16) (ofZ (-200)) = ofZ (-246)
  /\ ~ lt (ofZ 0) (RenderSnippet.estimatedHeightOf EmptyString (ofZ 16) (ofZ (-200)))
  /\ RenderSnippet.estimatedHeightOf "x" (Double.round 0.1) (ofZ 64) = ofZ 257
  /\ RenderSnippet.estimatedHeightOf ("x" ++ nl) (Double.round 0.1) (ofZ 64) = ofZ 257
  /\ ~ lt (RenderSnippet.estimatedHeightOf "x" (Double.round 0.1) (ofZ 64))
          (RenderSnippet.estimatedHeightOf ("x" ++ nl) (Double.round 0.1) (ofZ 64)).
Proof.
  assert (A : RenderSnippet.estimatedHeightOf EmptyString (ofZ 16) (ofZ (-200))
              = ofZ (-246)) by (vm_compute; reflexivity).
  assert (B : RenderSnippet.estimatedHeightOf "x" (Double.round 0.1) (ofZ 64)
              = ofZ 257) by (vm_compute; reflexivity).
  assert (C : RenderSnippet.estimatedHeightOf ("x" ++ nl) (Double.round 0.1) (ofZ 64)
              = ofZ 257) by (vm_compute; reflexivity).
  split; [vm_compute; reflexivity|]. split; [exact A|]. split; [|split; [exact B|]].
  - rewrite A. cbn. discriminate.
  - split; [exact C|]. rewrite B, C. cbn. apply Qlt_irrefl.
Qed.

Lemma lineCount_is_newlines_plus_one_witness :
  RenderSnippet.lineCountOf ("a" ++ nl ++ "b") = 2%nat
  /\ lt (ofZ 0) (RenderSnippet.estimatedHeightOf EmptyString (Finite 16) (Finite 64))
  /\ (snd (RenderSnippet.run Demo.empty Demo.noOpts) = 0%Z
      /\ In (CodeToHtml EmptyString "javascript" "nord")
            (fst (RenderSnippet.run Demo.empty Demo.noOpts)))
  /\ lt (RenderSnippet.estimatedHeightOf ("a" ++ nl ++ "b") (Finite 16) (Finite 64))
        (RenderSnippet.estimatedHeightOf (("a" ++ nl ++ "b") ++ nl)
           (Finite 16) (Finite 64)).
Proof.
  assert (H16 : (0 <= 16)%Q) by discriminate.
  assert (H64 : (0 <= 64)%Q) by discriminate.
  assert (Hf : (1 <= 16 <= 4096)%Q) by (split; discriminate).
  assert (Hp : (- 4096 <= 64 <= 4096)%Q) by (split; discriminate).
  assert (Hn : (Z.of_nat (RenderSnippet.lineCountOf ("a" ++ nl ++ "b")) < 2 ^ 30)%Z)
    by (vm_compute; reflexivity).
  assert (Hrej : forall c, rejects Demo.empty c = None) by reflexivity.
  assert (Hinput : ~ (truthy (RenderSnippet.opt_input Demo.noOpts) = false
                      /\ RenderSnippet.opt_positional Demo.noOpts = []
                      /\ stdin_isTTY Demo.empty = true)).
  { intros (_ & _ & H). discriminate H. }
  assert (Hfile : forall path, file_text Demo.empty path = EmptyString)
    by reflexivity.
  assert (Hframe : forall html, frameRect Demo.empty html <> None)
    by (intros html; discriminate).
  assert (Hout : RenderSnippet.opt_output Demo.noOpts <> Some OTrue) by discriminate.
  destruct (lineCount_is_newlines_plus_one Demo.empty ("a" ++ nl ++ "b"))
    as (Hc & _ & _ & Hpos & Hrun & Hgrow).
  destruct (Hrun Demo.noOpts Hrej eq_refl Hinput eq_refl Hfile Hframe Hout)
    as (Hexit & Hcode & _).
  split; [exact Hc|]. split; [exact (Hpos 16 64 H16 H64)|].
  split; [split; [exact Hexit | exact Hcode]|].
  exact (Hgrow 16 64 Hf Hp Hn).
Defined.

Lemma run_document_escapes_witness :
  In (SetContent Sample.document) (fst (RenderSnippet.run Demo.world Demo.noOpts))
  /\ exists before code,
       In (CodeToHtml code "javascript" "nord")
          (fst (RenderSnippet.run Demo.world Demo.noOpts))
       /\ (code = stdin_text Demo.world
           \/ exists path, code = file_text Demo.world path)
       /\ Sample.document
          = before ++ Spec.escaped "snippet" ++ RenderSnippet.doc_theme_label
            ++ Spec.escaped "nord" ++ RenderSnippet.doc_code_region
            ++ highlighted Demo.world code "javascript" "nord"
            ++ RenderSnippet.doc_tail.
Proof.
  assert (Hin : In (SetContent Sample.document)
                   (fst (RenderSnippet.run Demo.world Demo.noOpts))).
  { vm_compute. in_solve. }
  split; [exact Hin|].
  exact (run_document_escapes Demo.world Demo.noOpts Sample.document Hin).
Defined.

Lemma run_releases_browser_witness :
  snd (RenderSnippet.run Demo.blind Demo.noOpts) = 1%Z
  /\ exists pre post,
       fst (RenderSnippet.run Demo.blind Demo.noOpts) = (pre ++ Launch :: post)%list
       /\ In BrowserClose post.
Proof.
  split; [reflexivity|].
  apply (run_releases_browser Demo.blind Demo.noOpts); [|reflexivity].
  vm_compute. in_solve.
Defined.

Lemma input_source_precedence_witness :
  In ReadStdin (fst (RenderSnippet.run Demo.world Demo.noOpts))
  /\ truthy (RenderSnippet.opt_input Demo.noOpts) = false
  /\ RenderSnippet.opt_positional Demo.noOpts = []
  /\ stdin_isTTY Demo.world = false.
Proof.
  assert (Hin : In ReadStdin (fst (RenderSnippet.run Demo.world Demo.noOpts))).
  { vm_compute. in_solve. }
  split; [exact Hin|].
  exact (proj2 (input_source_precedence Demo.world Demo.noOpts) Hin).
Defined.

Lemma exit_zero_means_captured_witness :
  snd (RenderSnippet.run Demo.world Demo.noOpts) = 0%Z
  /\ exists pre html r dir,
       frameRect Demo.world html = Some r
       /\ fst (RenderSnippet.run Demo.world Demo.noOpts)
          = (pre ++ [SetContent html; Evaluate; Mkdir dir;
                     Screenshot (OStr "snippet.png")
                                (Some (RenderSnippet.clipOf r)) false;
                     BrowserClose;
                     StdoutWrite ("Wrote " ++ "snippet.png" ++ nl)])%list.
Proof.
  split; [reflexivity|].
  exact (proj2 (exit_zero_means_captured Demo.world Demo.noOpts) eq_refl eq_refl).
Defined.

Lemma resolved_identifier_is_supported_witness :
  includes (bundledLanguages Demo.world) "javascript" = true
  /\ includes (bundledLanguages Demo.world)
              (RenderSnippet.resolveLanguage Demo.world (OStr "rust") "javascript")
     = true.
Proof.
  split; [reflexivity|].
  exact (proj1 (resolved_identifier_is_supported Demo.world (OStr "rust") "javascript")
               (or_introl eq_refl)).
Defined.

Lemma parsed_flag_values_witness :
  exists p,
    Args.parseArgs Sample.argv = Returns p
    /\ (forall v, Args.get "lang" p = Some v -> Args.valueOk Sample.argv v)
    /\ (truthy (Args.get "lang" p) = true <-> Args.get "lang" p <> None).
Proof.
  eexists. split; [reflexivity|].
  apply parsed_flag_values. reflexivity.
Defined.

Lemma positional_arguments_kept_witness :
  Forall (fun a => Args.isFlag a = false) ["a.js"; "-v"; "b.js"]
  /\ Args.parseArgs ["a.js"; "-v"; "b.js"]
     = Returns {| Args.flags := []; Args.under := Args.Positional ["a.js"; "-v"; "b.js"] |}.
Proof.
  assert (H : Forall (fun a => Args.isFlag a = false) ["a.js"; "-v"; "b.js"])
    by (repeat constructor).
  split; [exact H|].
  exact (positional_arguments_kept _ H).
Defined.

Lemma encoded_flags_read_back_witness :
  Forall Args.pairOk Sample.pairs
  /\ Args.parseArgs (Args.encode Sample.pairs)
     = Returns {| Args.flags := [("lang", OStr "js"); ("theme", OStr "nord");
                                 ("lang", OStr "ts")];
                  Args.under := Args.Positional [] |}.
Proof.
  assert (H : Forall Args.pairOk Sample.pairs).
  { repeat first [ apply Forall_cons | apply Forall_nil ];
      (unfold Args.pairOk; cbn [fst snd];
       split; [discriminate|]; split; [discriminate|];
       split; [discriminate | reflexivity]). }
  split; [exact H|].
  exact (proj1 (encoded_flags_read_back Sample.pairs "theme" "dracula" H)).
Defined.

Lemma help_flag_wins_witness :
  In "--help" Sample.argv
  /\ Args.run Demo.world Sample.argv
     = ([StdoutWrite (String.concat nl RenderSnippet.helpLines ++ nl)], 0%Z).
Proof.
  assert (Hin : In "--help" Sample.argv) by (cbn; tauto).
  split; [exact Hin|].
  apply (help_flag_wins Demo.world Sample.argv Hin); [|reflexivity].
  intros a Ha. cbn in Ha.
  repeat (destruct Ha as [Ha|Ha]; [subst a; discriminate|]). contradiction Ha.
Defined.

Lemma parse_fails_only_on_underscore_flag_witness :
  Args.parseArgs Sample.shadowing = Throws Args.pushError
  /\ In "--_" Sample.shadowing
  /\ Args.run Demo.world Sample.shadowing
     = ([StderrWrite (Args.pushError ++ nl); Exit 1], 1%Z).
Proof.
  split; [reflexivity|].
  destruct (parse_fails_only_on_underscore_flag Demo.world Sample.shadowing
              Args.pushError eq_refl) as (Hin & _ & Hrun).
  split; [exact Hin | exact Hrun].
Defined.

Lemma folder_name_injective_witness :
  Reel.inRange Sample.clock /\ Reel.inRange Sample.later
  /\ String.length (Reel.getTimestampedFolder Sample.clock) = (18 + 4)%nat.
Proof.
  assert (Ha : Reel.inRange Sample.clock) by (unfold Reel.inRange; simpl; lia).
  assert (Hb : Reel.inRange Sample.later) by (unfold Reel.inRange; simpl; lia).
  split; [exact Ha|]. split; [exact Hb|].
  exact (proj1 (folder_name_injective Sample.clock Sample.later Ha Hb)).
Defined.

Lemma folder_names_sort_in_year_witness :
  Reel.inRange Sample.clock /\ Reel.inRange Sample.later
  /\ String.compare (Reel.getTimestampedFolder Sample.clock)
                    (Reel.getTimestampedFolder Sample.later)
     = Reel.compareInYear Sample.clock Sample.later.
Proof.
  assert (Ha : Reel.inRange Sample.clock) by (unfold Reel.inRange; simpl; lia).
  assert (Hb : Reel.inRange Sample.later) by (unfold Reel.inRange; simpl; lia).
  split; [exact Ha|]. split; [exact Hb|].
  exact (folder_names_sort_in_year Sample.clock Sample.later Ha Hb eq_refl).
Defined.


Lemma fence_free_text_unchanged_witness :
  occursb Reel.fence Sample.json = false
  /\ Reel.stripFences Sample.json = Sample.json.
Proof.
  split; [reflexivity|].
  exact (fence_free_text_unchanged Sample.json eq_refl).
Defined.

Lemma fenced_answer_unwrapped_witness :
  occursb Reel.fence Sample.json = false
  /\ Reel.stripFences Sample.answer = Sample.json ++ nl.
Proof.
  split; [reflexivity|].
  exact (fenced_answer_unwrapped Sample.json eq_refl).
Defined.

Lemma generator_closes_browser_witness :
  snd (Reel.run Sample.brokenOverlay) = 1%Z
  /\ exists pre post,
       fst (Reel.run Sample.brokenOverlay) = (pre ++ Reel.Call Launch :: post)%list
       /\ ~ In (Reel.Call BrowserClose) pre
       /\ In (Reel.Call BrowserClose) post.
Proof.
  split; [reflexivity|].
  apply (generator_closes_browser Sample.brokenOverlay); [|reflexivity].
  vm_compute. in_solve.
Defined.

Lemma missing_background_video_stops_run_witness :
  Reel.refuses Sample.noVideo (Reel.Access Reel.DEFAULTS.bRollPath)
  = Some "ENOENT: no such file or directory, access './bRoll.mov'"
  /\ snd (Reel.run Sample.noVideo) = 1%Z
  /\ ~ In (Reel.Call Launch) (fst (Reel.run Sample.noVideo)).
Proof.
  split; [reflexivity|].
  destruct (missing_background_video_stops_run Sample.noVideo _ eq_refl)
    as (Hexit & Hlaunch & _).
  split; [exact Hexit | exact Hlaunch].
Defined.

Lemma missing_key_requests_nothing_witness :
  Reel.hasApiKey Sample.noKey = false
  /\ snd (Reel.run Sample.noKey) = 1%Z
  /\ forall p, ~ In (Reel.GenerateText p) (fst (Reel.run Sample.noKey)).
Proof.
  split; [reflexivity|].
  destruct (missing_key_requests_nothing Sample.noKey eq_refl) as (Hexit & Hask & _).
  split; [exact Hexit | exact Hask].
Defined.

Lemma caption_written_after_video_witness :
  In (Reel.WriteFile "output_20250107_090559/caption.txt"
                     (Reel.captionContent Sample.snippet))
     (fst (Reel.run Sample.studio))
  /\ exists snippet,
       Reel.parseJson Sample.studio
         (Reel.cleanText (Reel.trim Sample.studio) (Reel.answer Sample.studio))
       = Returns snippet
       /\ Reel.captionContent Sample.snippet = Reel.captionContent snippet.
Proof.
  assert (Hin : In (Reel.WriteFile "output_20250107_090559/caption.txt"
                      (Reel.captionContent Sample.snippet))
                   (fst (Reel.run Sample.studio))).
  { vm_compute. in_solve. }
  split; [exact Hin|].
  destruct (caption_written_after_video Sample.studio _ _ Hin)
    as (snippet & _ & _ & _ & _ & _ & _ & Hparse & _ & Hc & _).
  exists snippet. split; [exact Hparse | exact Hc].
Defined.

Lemma exit_zero_means_reel_made_witness :
  snd (Reel.run Sample.studio) = 0%Z
  /\ exists snippet pre,
       Reel.parseJson Sample.studio
         (Reel.cleanText (Reel.trim Sample.studio) (Reel.answer Sample.studio))
       = Returns snippet
       /\ fst (Reel.run Sample.studio)
          = (pre ++ Reel.WriteFile (Reel.captionPath Sample.studio)
                                   (Reel.captionContent snippet)
                 :: map (fun text => Reel.Call (StdoutWrite (text ++ nl)))
                        (Reel.Stages.summary Sample.studio)
                 ++ [Reel.Call BrowserClose])%list.
Proof.
  split; [reflexivity|].
  destruct (proj2 (exit_zero_means_reel_made Sample.studio) eq_refl)
    as (snippet & pre & Hparse & _ & _ & _ & _ & Hrun).
  exists snippet, pre. split; [exact Hparse | exact Hrun].
Defined.

Lemma failed_job_ends_run_witness :
  In (Reel.Ffmpeg (Reel.Stages.overlayJob Sample.brokenOverlay))
     (fst (Reel.run Sample.brokenOverlay))
  /\ Reel.failure (Reel.transcode Sample.brokenOverlay
                     (Reel.Stages.overlayJob Sample.brokenOverlay))
     = Some "ffmpeg exited with code 1: Conversion failed!"
  /\ snd (Reel.run Sample.brokenOverlay) = 1%Z
  /\ forall p c, ~ In (Reel.WriteFile p c) (fst (Reel.run Sample.brokenOverlay)).
Proof.
  assert (Hin : In (Reel.Ffmpeg (Reel.Stages.overlayJob Sample.brokenOverlay))
                   (fst (Reel.run Sample.brokenOverlay))).
  { vm_compute. in_solve. }
  split; [exact Hin|]. split; [reflexivity|].
  destruct (failed_job_ends_run Sample.brokenOverlay _ _ Hin eq_refl)
    as (Hexit & Hwrite & _).
  split; [exact Hexit | exact Hwrite].
Defined.
